(** * Task manager with a mock authentication gate: a shallow embedding

    The development embeds the JavaScript sources [components/auth.js]
    (the [AuthManager] class and its static user table), [utils/storage.js]
    (the [StorageManager] adapter) and [script.js] (the task list handlers)
    and proves properties of credential lookup, login, session validation,
    the storage adapter and the per-user task list.

    Conventions of the embedding.
    - A JavaScript string is a [string]; its characters stand for the code
      units U+0000 to U+00FF.  Code units above U+00FF are outside the model.
    - A JavaScript value is a [jsval]: the JSON data model plus [undefined].
      Functions are not values of the model; the only inherited method the
      sources call on data, [hasOwnProperty], is resolved by [hasOwnProperty].
    - A number is an exact decimal [m * 10^e], where the platform rounds
      to a double.  The two agree on the safe integers ([safe_integer]):
      in value, order, truth value and text.  A statement that ranges over
      arbitrary stored texts is made for the texts [within_model], whose
      numbers are safe integers and whose escapes stay below U+0100.
    - The browser is a record [browser]: the key-value medium behind
      [localStorage] with the writes it refuses, the wall clock as a sequence
      of readings (every [Date.now()] or [new Date()] consumes one reading),
      the page path, the task input field and the trace of announcements and
      navigations.  Console output is diagnostic only and is not recorded;
      the document is not held, so rendering is reduced to what it can raise.
    - Module-level variables of a script are fields of the [world].
    - A statement that can raise runs in the monad [M]: state passing over
      [world] with a [completion] that is normal or a thrown exception. *)

From Stdlib Require Import ZArith NArith List Ascii String Bool Lia.
From stdpp Require Import base option list strings gmap.

Local Open Scope Z_scope.

(** ** Strings of the platform *)

Definition dquote : ascii := "034"%char.
Definition backslash : ascii := "092"%char.

(** Test data is written with apostrophes where the JSON text has double
    quotes; [jsq] puts the double quotes back. *)
Fixpoint jsq (s : string) : string :=
  match s with
  | EmptyString => EmptyString
  | String c r => String (if Ascii.eqb c "'"%char then dquote else c) (jsq r)
  end.

(** [String.prototype.trim] strips WhiteSpace and LineTerminator code units:
    TAB, LF, VT, FF, CR, SP and NBSP in the modelled range. *)
Definition is_white_space (c : ascii) : bool :=
  let n := N_of_ascii c in
  ((9 <=? n) && (n <=? 13) || (n =? 32) || (n =? 160))%N.

(** [String.prototype.toLowerCase] on one code unit: A-Z and the Latin-1
    capitals U+00C0..U+00DE, the multiplication sign U+00D7 excepted. *)
Definition lower_char (c : ascii) : ascii :=
  let n := N_of_ascii c in
  if ((65 <=? n) && (n <=? 90) || (192 <=? n) && (n <=? 222) && negb (n =? 215))%N
  then ascii_of_N (n + 32) else c.

Fixpoint toLowerCase (s : string) : string :=
  match s with
  | EmptyString => EmptyString
  | String c r => String (lower_char c) (toLowerCase r)
  end.

Fixpoint trimStart (s : string) : string :=
  match s with
  | EmptyString => EmptyString
  | String c r => if is_white_space c then trimStart r else s
  end.

Fixpoint trimEnd (s : string) : string :=
  match s with
  | EmptyString => EmptyString
  | String c r =>
      match trimEnd r with
      | EmptyString => if is_white_space c then EmptyString else String c EmptyString
      | r' => String c r'
      end
  end.

Definition trim (s : string) : string := trimEnd (trimStart s).

(** [s.includes(sub)] *)
Fixpoint includes (s sub : string) : bool :=
  String.prefix sub s ||
  match s with
  | EmptyString => false
  | String _ r => includes r sub
  end.

(** [s.split(sep)] for a separator of one code unit. *)
Fixpoint split (sep : ascii) (s : string) : list string :=
  match s with
  | EmptyString => [EmptyString]
  | String c r =>
      if Ascii.eqb c sep then EmptyString :: split sep r
      else match split sep r with
           | h :: t => String c h :: t
           | [] => [String c EmptyString]
           end
  end.

(** ** Decimal digits *)

Definition digit_char (d : N) : ascii := ascii_of_N (48 + d).

Definition digit_value (c : ascii) : option N :=
  let n := N_of_ascii c in
  if ((48 <=? n) && (n <=? 57))%N then Some (n - 48)%N else None.

Fixpoint N_digits (fuel : nat) (n : N) (acc : string) : string :=
  match fuel with
  | O => acc
  | S f =>
      let acc' := String (digit_char (n mod 10)) acc in
      if (n / 10 =? 0)%N then acc' else N_digits f (n / 10) acc'
  end.

(** The decimal digits of [n], no leading zero; [S (log2 n)] steps suffice. *)
Definition N_to_string (n : N) : string :=
  N_digits (S (N.to_nat (N.log2 n))) n EmptyString.

Fixpoint digits_value (s : string) (acc : N) : option N :=
  match s with
  | EmptyString => Some acc
  | String c r =>
      match digit_value c with
      | Some d => digits_value r (acc * 10 + d)%N
      | None => None
      end
  end.

(** A canonical array index: the decimal digits, without leading zero, of an
    integer below 2^32 - 1.  Such property names are enumerated first and in
    numeric order. *)
Definition array_index (k : string) : option N :=
  match k with
  | EmptyString => None
  | _ =>
      match digits_value k 0%N with
      | Some n =>
          if String.eqb (N_to_string n) k && (n <? 4294967295)%N then Some n else None
      | None => None
      end
  end.

Fixpoint zeros (n : nat) : string :=
  match n with
  | O => EmptyString
  | S k => String "0"%char (zeros k)
  end.

(** Splits the trailing zeros off a digit string: the remaining digits and
    the number of zeros removed. *)
Fixpoint strip_zeros (s : string) : string * nat :=
  match s with
  | EmptyString => (EmptyString, O)
  | String c r =>
      match strip_zeros r with
      | (EmptyString, z) =>
          if Ascii.eqb c "0"%char then (EmptyString, S z) else (String c EmptyString, z)
      | (r', z) => (String c r', z)
      end
  end.

(** [Number::toString] (radix 10) of the finite number [m * 10^e], from
    the digits of the exact decimal; for a safe integer these are the
    digits that the platform writes. *)
Definition Number_toString (m e : Z) : string :=
  if m =? 0 then "0" else
  let sign := if m <? 0 then "-" else "" in
  let '(ds, z) := strip_zeros (N_to_string (Z.to_N (Z.abs m))) in
  let k := Z.of_nat (String.length ds) in
  let n := k + e + Z.of_nat z in
  sign +:+
  (if (k <=? n) && (n <=? 21) then ds +:+ zeros (Z.to_nat (n - k))
   else if (0 <? n) && (n <=? 21) then
     substring 0 (Z.to_nat n) ds +:+ "." +:+ substring (Z.to_nat n) (Z.to_nat (k - n)) ds
   else if (-6 <? n) && (n <=? 0) then "0." +:+ zeros (Z.to_nat (- n)) +:+ ds
   else
     let ex := n - 1 in
     let es := (if ex <? 0 then "-" else "+") +:+ N_to_string (Z.to_N (Z.abs ex)) in
     match ds with
     | EmptyString => EmptyString
     | String d EmptyString => String d ("e" +:+ es)
     | String d r => String d ("." +:+ r +:+ "e" +:+ es)
     end).

(** ** JavaScript values *)

#[local] Unset Elimination Schemes.
Inductive jsval : Type :=
| VUndefined
| VNull
| VBool (b : bool)
| VNum (m e : Z)                          (* the number m * 10^e *)
| VStr (s : string)
| VArr (elems : list jsval)
| VObj (props : list (string * jsval)).   (* own properties, in enumeration order *)

#[local] Set Elimination Schemes.

Abbreviation obj := (list (string * jsval)).

Definition VInt (n : Z) : jsval := VNum n 0.

(** Exceptions: the [name] and [message] of the thrown Error object.  The
    message text of the errors the platform raises is engine specific and no
    statement below depends on it. *)
Record exn := mkExn { exn_name : string; exn_message : string }.

Definition Error (msg : string) : exn := mkExn "Error" msg.
Definition TypeError : exn := mkExn "TypeError" "".
Definition SyntaxError : exn := mkExn "SyntaxError" "".
Definition InvalidCharacterError : exn := mkExn "InvalidCharacterError" "".
Definition QuotaExceededError : exn := mkExn "QuotaExceededError" "".

Inductive completion (A : Type) : Type :=
| Normal (a : A)
| Throw (e : exn).
Arguments Normal {A} a.
Arguments Throw {A} e.

Definition cbind {A B} (c : completion A) (k : A -> completion B) : completion B :=
  match c with
  | Normal a => k a
  | Throw e => Throw e
  end.

(** ToBoolean *)
Definition truthy (v : jsval) : bool :=
  match v with
  | VUndefined | VNull => false
  | VBool b => b
  | VNum m _ => negb (m =? 0)
  | VStr s => negb (String.eqb s "")
  | VArr _ | VObj _ => true
  end.

Definition typeof (v : jsval) : string :=
  match v with
  | VUndefined => "undefined"
  | VNull => "object"
  | VBool _ => "boolean"
  | VNum _ _ => "number"
  | VStr _ => "string"
  | VArr _ | VObj _ => "object"
  end.

(** *** Own properties *)

Fixpoint has_own (o : obj) (k : string) : bool :=
  match o with
  | [] => false
  | (k', _) :: r => String.eqb k' k || has_own r k
  end.

Fixpoint obj_get (o : obj) (k : string) : jsval :=
  match o with
  | [] => VUndefined
  | (k', v) :: r => if String.eqb k' k then v else obj_get r k
  end.

Fixpoint obj_replace (k : string) (v : jsval) (o : obj) : obj :=
  match o with
  | [] => []
  | (k', v') :: r => if String.eqb k' k then (k, v) :: r else (k', v') :: obj_replace k v r
  end.

Fixpoint obj_insert_index (i : N) (k : string) (v : jsval) (o : obj) : obj :=
  match o with
  | [] => [(k, v)]
  | (k', v') :: r =>
      match array_index k' with
      | Some j => if (j <? i)%N then (k', v') :: obj_insert_index i k v r else (k, v) :: o
      | None => (k, v) :: o
      end
  end.

(** Defining or assigning the own property [k]: an existing property keeps
    its place; a new array index goes among the indices in numeric order; any
    other new name goes last. *)
Definition obj_set (k : string) (v : jsval) (o : obj) : obj :=
  if has_own o k then obj_replace k v o
  else match array_index k with
       | Some i => obj_insert_index i k v o
       | None => o ++ [(k, v)]
       end.

(** An object literal [{k1: v1, ...}] *)
Definition object_literal (kvs : obj) : obj :=
  fold_left (fun o kv => obj_set (fst kv) (snd kv) o) kvs [].

Fixpoint string_chars (s : string) : list jsval :=
  match s with
  | EmptyString => []
  | String c r => VStr (String c EmptyString) :: string_chars r
  end.

Fixpoint indexed (i : N) (l : list jsval) : obj :=
  match l with
  | [] => []
  | v :: r => (N_to_string i, v) :: indexed (N.succ i) r
  end.

(** The own enumerable properties that the spread [{...v}] copies. *)
Definition spread (v : jsval) : obj :=
  match v with
  | VObj o => o
  | VArr l => indexed 0%N l
  | VStr s => indexed 0%N (string_chars s)
  | _ => []
  end.

(** The property read [v.k] or [v[k]].  Reading from [null] or [undefined]
    raises; a primitive has the properties of its wrapper.  Members inherited
    from the built-in prototypes are functions and have no [jsval]; the
    sources read none of them as data. *)
Definition get_prop (v : jsval) (k : string) : completion jsval :=
  match v with
  | VUndefined | VNull => Throw TypeError
  | VObj o => Normal (obj_get o k)
  | VArr l =>
      if String.eqb k "length" then Normal (VInt (Z.of_nat (length l)))
      else match array_index k with
           | Some i => Normal (nth (N.to_nat i) l VUndefined)
           | None => Normal VUndefined
           end
  | VStr s =>
      if String.eqb k "length" then Normal (VInt (Z.of_nat (String.length s)))
      else match array_index k with
           | Some i => Normal (nth (N.to_nat i) (string_chars s) VUndefined)
           | None => Normal VUndefined
           end
  | VBool _ | VNum _ _ => Normal VUndefined
  end.

(** The method call [v.hasOwnProperty(k)].  The method is found on
    [Object.prototype] unless [v] is an object with an own property of that
    name, whose value (data, never a function) cannot be called. *)
Definition hasOwnProperty (v : jsval) (k : string) : completion bool :=
  match v with
  | VUndefined | VNull => Throw TypeError
  | VObj o => if has_own o "hasOwnProperty" then Throw TypeError else Normal (has_own o k)
  | VArr l =>
      Normal (String.eqb k "length" ||
              match array_index k with Some i => (i <? N.of_nat (length l))%N | None => false end)
  | VStr s =>
      Normal (String.eqb k "length" ||
              match array_index k with Some i => (i <? N.of_nat (String.length s))%N | None => false end)
  | VBool _ | VNum _ _ => Normal false
  end.

(** The names that every object inherits from [Object.prototype].  All of
    them but [__proto__] name functions; [__proto__] is an accessor that
    reads and sets the prototype. *)
Definition inherited_names : list string :=
  ["__proto__"; "constructor"; "hasOwnProperty"; "isPrototypeOf"; "propertyIsEnumerable";
   "toLocaleString"; "toString"; "valueOf"; "__defineGetter__"; "__defineSetter__";
   "__lookupGetter__"; "__lookupSetter__"].

Definition inherited_name (k : string) : bool := existsb (String.eqb k) inherited_names.

(** A parameter with a default, [f(x = fallback)]: the default replaces an
    argument that is missing or [undefined]. *)
Definition default_parameter (given fallback : jsval) : jsval :=
  match given with
  | VUndefined => fallback
  | _ => given
  end.

Definition num_eqb (m1 e1 m2 e2 : Z) : bool :=
  let d := Z.min e1 e2 in
  m1 * 10 ^ (e1 - d) =? m2 * 10 ^ (e2 - d).

(** Strict equality [===].  Two arrays or objects are equal only when they
    are the same object; the values compared in the sources come from
    separate [JSON.parse] calls or literals and are never the same object. *)
Definition strict_eq (a b : jsval) : bool :=
  match a, b with
  | VUndefined, VUndefined => true
  | VNull, VNull => true
  | VBool x, VBool y => Bool.eqb x y
  | VNum m1 e1, VNum m2 e2 => num_eqb m1 e1 m2 e2
  | VStr x, VStr y => String.eqb x y
  | _, _ => false
  end.

(** ToString, as a template literal applies it.  An object is converted by
    its [toString] method, inherited unless an own property shadows it; an
    array by [join]. *)
Fixpoint to_string (v : jsval) : completion string :=
  match v with
  | VUndefined => Normal "undefined"
  | VNull => Normal "null"
  | VBool b => Normal (if b then "true" else "false")
  | VNum m e => Normal (Number_toString m e)
  | VStr s => Normal s
  | VArr l =>
      (fix join (l : list jsval) : completion string :=
         match l with
         | [] => Normal ""
         | x :: r =>
             cbind (match x with
                    | VUndefined | VNull => Normal ""
                    | _ => to_string x
                    end)
               (fun sx => match r with
                          | [] => Normal sx
                          | _ => cbind (join r) (fun sr => Normal (sx +:+ "," +:+ sr))
                          end)
         end) l
  | VObj o => if has_own o "toString" then Throw TypeError else Normal "[object Object]"
  end.

(** *** ToNumber *)

Inductive number : Type :=
| NaN
| PosInf
| NegInf
| Fin (m e : Z).

Definition is_digit (c : ascii) : bool :=
  match digit_value c with Some _ => true | None => false end.

Definition hex_value (c : ascii) : option N :=
  let n := N_of_ascii c in
  if ((48 <=? n) && (n <=? 57))%N then Some (n - 48)%N
  else if ((97 <=? n) && (n <=? 102))%N then Some (n - 87)%N
  else if ((65 <=? n) && (n <=? 70))%N then Some (n - 55)%N
  else None.

Fixpoint span_digits (s : string) : string * string :=
  match s with
  | EmptyString => (EmptyString, EmptyString)
  | String c r =>
      if is_digit c then let '(d, t) := span_digits r in (String c d, t)
      else (EmptyString, s)
  end.

(** The digits of [s] in the given radix, all of them or nothing. *)
Fixpoint radix_value (radix : N) (s : string) (acc : N) : option N :=
  match s with
  | EmptyString => Some acc
  | String c r =>
      match hex_value c with
      | Some d => if (d <? radix)%N then radix_value radix r (acc * radix + d)%N else None
      | None => None
      end
  end.

Definition nat_of_digits (s : string) : Z :=
  match digits_value s 0%N with Some n => Z.of_N n | None => 0 end.

(** StrUnsignedDecimalLiteral *)
Definition str_unsigned_decimal (s : string) : number :=
  if String.eqb s "Infinity" then PosInf else
  let '(ip, r1) := span_digits s in
  let '(fp, r2) :=
    match r1 with
    | String "."%char r => span_digits r
    | _ => (EmptyString, r1)
    end in
  if String.eqb ip "" && String.eqb fp "" then NaN else
  let m := nat_of_digits (ip +:+ fp) in
  let f := Z.of_nat (String.length fp) in
  match r2 with
  | EmptyString => Fin m (- f)
  | String c r =>
      if Ascii.eqb c "e"%char || Ascii.eqb c "E"%char then
        let '(neg, r') :=
          match r with
          | String "+"%char t => (false, t)
          | String "-"%char t => (true, t)
          | _ => (false, r)
          end in
        let '(ed, r3) := span_digits r' in
        if String.eqb ed "" || negb (String.eqb r3 "") then NaN
        else Fin m ((if neg then - nat_of_digits ed else nat_of_digits ed) - f)
      else NaN
  end.

Definition negate (n : number) : number :=
  match n with
  | NaN => NaN
  | PosInf => NegInf
  | NegInf => PosInf
  | Fin m e => Fin (- m) e
  end.

Definition radix_literal (radix : N) (s : string) : number :=
  match s with
  | EmptyString => NaN
  | _ => match radix_value radix s 0%N with
         | Some n => Fin (Z.of_N n) 0
         | None => NaN
         end
  end.

(** StringToNumber *)
Definition StringToNumber (s : string) : number :=
  match trim s with
  | EmptyString => Fin 0 0
  | String "+"%char r => str_unsigned_decimal r
  | String "-"%char r => negate (str_unsigned_decimal r)
  | String "0"%char (String c r) as t =>
      if Ascii.eqb c "x"%char || Ascii.eqb c "X"%char then radix_literal 16 r
      else if Ascii.eqb c "o"%char || Ascii.eqb c "O"%char then radix_literal 8 r
      else if Ascii.eqb c "b"%char || Ascii.eqb c "B"%char then radix_literal 2 r
      else str_unsigned_decimal t
  | t => str_unsigned_decimal t
  end.

(** ToNumber.  An array or object is first converted to a primitive with
    hint number: [valueOf] gives no primitive, so [toString] decides. *)
Definition to_number (v : jsval) : completion number :=
  match v with
  | VUndefined => Normal NaN
  | VNull => Normal (Fin 0 0)
  | VBool b => Normal (Fin (if b then 1 else 0) 0)
  | VNum m e => Normal (Fin m e)
  | VStr s => Normal (StringToNumber s)
  | VArr _ | VObj _ => cbind (to_string v) (fun s => Normal (StringToNumber s))
  end.

(** [a < b] on finite decimals *)
Definition fin_ltb (m1 e1 m2 e2 : Z) : bool :=
  let d := Z.min e1 e2 in
  m1 * 10 ^ (e1 - d) <? m2 * 10 ^ (e2 - d).

(** The comparison [t > v] with [t] an integer number: false when [v]
    converts to NaN.  The decimals are compared exactly, which is the
    comparison of the doubles when [v] converts to a safe integer. *)
Definition int_gt (t : Z) (v : jsval) : completion bool :=
  cbind (to_number v) (fun n =>
    Normal (match n with
            | NaN => false
            | PosInf => false
            | NegInf => true
            | Fin m e => fin_ltb m e t 0
            end)).

(** ** JSON *)

Definition hex_char (d : N) : ascii :=
  if (d <? 10)%N then ascii_of_N (48 + d) else ascii_of_N (87 + d).

(** QuoteJSONString on one code unit *)
Definition escape_char (c : ascii) : string :=
  let n := N_of_ascii c in
  if (n =? 8)%N then String backslash "b"
  else if (n =? 9)%N then String backslash "t"
  else if (n =? 10)%N then String backslash "n"
  else if (n =? 12)%N then String backslash "f"
  else if (n =? 13)%N then String backslash "r"
  else if (n =? 34)%N then String backslash (String dquote EmptyString)
  else if (n =? 92)%N then String backslash (String backslash EmptyString)
  else if (n <? 32)%N then
    String backslash ("u00" +:+ String (hex_char (n / 16)) (String (hex_char (n mod 16)) EmptyString))
  else String c EmptyString.

Fixpoint escape (s : string) : string :=
  match s with
  | EmptyString => EmptyString
  | String c r => escape_char c +:+ escape r
  end.

Definition quote (s : string) : string :=
  String dquote (escape s +:+ String dquote EmptyString).

(** SerializeJSONProperty: [None] is [undefined], which an object omits and
    an array writes as null. *)
Fixpoint serialize (v : jsval) : option string :=
  match v with
  | VUndefined => None
  | VNull => Some "null"
  | VBool b => Some (if b then "true" else "false")
  | VNum m e => Some (Number_toString m e)
  | VStr s => Some (quote s)
  | VArr l =>
      Some ("[" +:+
        (fix items (l : list jsval) : string :=
           match l with
           | [] => ""
           | x :: r =>
               let sx := match serialize x with Some t => t | None => "null" end in
               match r with
               | [] => sx
               | _ => sx +:+ "," +:+ items r
               end
           end) l +:+ "]")
  | VObj o =>
      Some ("{" +:+
        (fix members (first : bool) (o : obj) : string :=
           match o with
           | [] => ""
           | (k, x) :: r =>
               match serialize x with
               | Some t => (if first then "" else ",") +:+ quote k +:+ ":" +:+ t +:+ members false r
               | None => members first r
               end
           end) true o +:+ "}")
  end.

(** [JSON.stringify(v)]: a string, or [undefined] for [undefined]. *)
Definition JSON_stringify (v : jsval) : jsval :=
  match serialize v with
  | Some s => VStr s
  | None => VUndefined
  end.

(** *** [JSON.parse]

    The JSON grammar is recognised by a pushdown automaton that consumes the
    text one code unit at a time: [stack] holds the arrays and objects that
    are still open, [mode] what the automaton is reading.  An escape
    [\uXXXX] above U+00FF denotes a code unit outside the model and is
    rejected, where the platform accepts it; a numeral is kept as the exact
    decimal it denotes, where the platform rounds it.  The texts on which
    both agree are singled out by [within_model] below. *)

Inductive frame : Type :=
| FArr (done : list jsval)                 (* elements read, last first *)
| FObj (done : obj) (key : option string). (* members read; the name awaiting its value *)

Inductive numst : Type :=
| NMinus | NZero | NInt | NDot | NFrac | NE | NESign | NEDigits.

Record numacc := mkNum {
  n_neg : bool;    (* a leading minus sign *)
  n_mant : Z;      (* the digits of the integer and fraction parts *)
  n_frac : Z;      (* how many of them follow the point *)
  n_eneg : bool;   (* a minus sign in the exponent *)
  n_exp : Z        (* the digits of the exponent *)
}.

Inductive mode : Type :=
| MValue (first : bool)      (* a value; just after '[' also the closing ']' *)
| MKey (first : bool)        (* a member name; just after '{' also the closing '}' *)
| MColon
| MAfter                     (* after a value inside an array or object *)
| MEnd (v : jsval)           (* after the outermost value *)
| MString (key : bool) (acc : string)
| MEscape (key : bool) (acc : string)
| MUnicode (key : bool) (acc : string) (seen : nat) (code : N)
| MNumber (st : numst) (a : numacc)
| MLiteral (rest : string) (v : jsval).

Definition pstate : Type := list frame * mode.

Definition json_ws (c : ascii) : bool :=
  let n := N_of_ascii c in ((n =? 32) || (n =? 9) || (n =? 10) || (n =? 13))%N.

(** A value is complete: it becomes the result, the next array element, or
    the value of the pending member (a repeated name overwrites). *)
Definition complete (v : jsval) (stack : list frame) : option pstate :=
  match stack with
  | [] => Some ([], MEnd v)
  | FArr done :: r => Some (FArr (v :: done) :: r, MAfter)
  | FObj done (Some k) :: r => Some (FObj (obj_set k v done) None :: r, MAfter)
  | FObj _ None :: _ => None
  end.

Definition complete_string (key : bool) (s : string) (stack : list frame) : option pstate :=
  if key then
    match stack with
    | FObj done None :: r => Some (FObj done (Some s) :: r, MColon)
    | _ => None
    end
  else complete (VStr s) stack.

Definition num_value (a : numacc) : jsval :=
  VNum (if n_neg a then - n_mant a else n_mant a)
       ((if n_eneg a then - n_exp a else n_exp a) - n_frac a).

Definition push_string (acc : string) (c : ascii) : string := acc +:+ String c EmptyString.

(** After a value: separators, closers and white space. *)
Definition step_after (stack : list frame) (m : mode) (c : ascii) : option pstate :=
  if json_ws c then Some (stack, m) else
  match m, stack with
  | MAfter, FArr done :: r =>
      if Ascii.eqb c ","%char then Some (stack, MValue false)
      else if Ascii.eqb c "]"%char then complete (VArr (rev done)) r
      else None
  | MAfter, FObj done None :: r =>
      if Ascii.eqb c ","%char then Some (stack, MKey false)
      else if Ascii.eqb c "}"%char then complete (VObj done) r
      else None
  | _, _ => None
  end.

Definition finish_number (a : numacc) (stack : list frame) (c : ascii) : option pstate :=
  match complete (num_value a) stack with
  | Some (stack', m) => step_after stack' m c
  | None => None
  end.

Definition step_number (st : numst) (a : numacc) (stack : list frame) (c : ascii)
  : option pstate :=
  let digit := digit_value c in
  let is_e := Ascii.eqb c "e"%char || Ascii.eqb c "E"%char in
  let is_dot := Ascii.eqb c "."%char in
  let more st' d := Some (stack, MNumber st' (mkNum (n_neg a) (n_mant a * 10 + Z.of_N d)
                                             (n_frac a) (n_eneg a) (n_exp a))) in
  let frac d := Some (stack, MNumber NFrac (mkNum (n_neg a) (n_mant a * 10 + Z.of_N d)
                                           (n_frac a + 1) (n_eneg a) (n_exp a))) in
  let expo d := Some (stack, MNumber NEDigits (mkNum (n_neg a) (n_mant a) (n_frac a)
                                              (n_eneg a) (n_exp a * 10 + Z.of_N d))) in
  match st with
  | NMinus =>
      match digit with
      | Some d => if (d =? 0)%N then Some (stack, MNumber NZero a) else more NInt d
      | None => None
      end
  | NZero =>
      if is_dot then Some (stack, MNumber NDot a)
      else if is_e then Some (stack, MNumber NE a)
      else finish_number a stack c
  | NInt =>
      match digit with
      | Some d => more NInt d
      | None =>
          if is_dot then Some (stack, MNumber NDot a)
          else if is_e then Some (stack, MNumber NE a)
          else finish_number a stack c
      end
  | NDot =>
      match digit with
      | Some d => frac d
      | None => None
      end
  | NFrac =>
      match digit with
      | Some d => frac d
      | None => if is_e then Some (stack, MNumber NE a) else finish_number a stack c
      end
  | NE =>
      match digit with
      | Some d => expo d
      | None =>
          if Ascii.eqb c "+"%char then Some (stack, MNumber NESign a)
          else if Ascii.eqb c "-"%char then
            Some (stack, MNumber NESign (mkNum (n_neg a) (n_mant a) (n_frac a) true (n_exp a)))
          else None
      end
  | NESign =>
      match digit with
      | Some d => expo d
      | None => None
      end
  | NEDigits =>
      match digit with
      | Some d => expo d
      | None => finish_number a stack c
      end
  end.

Definition num0 (neg : bool) (m : Z) : numacc := mkNum neg m 0 false 0.

Definition step_value (first : bool) (stack : list frame) (c : ascii) : option pstate :=
  if json_ws c then Some (stack, MValue first)
  else if Ascii.eqb c dquote then Some (stack, MString false EmptyString)
  else if Ascii.eqb c "-"%char then Some (stack, MNumber NMinus (num0 true 0))
  else if Ascii.eqb c "["%char then Some (FArr [] :: stack, MValue true)
  else if Ascii.eqb c "{"%char then Some (FObj [] None :: stack, MKey true)
  else if Ascii.eqb c "t"%char then Some (stack, MLiteral "rue" (VBool true))
  else if Ascii.eqb c "f"%char then Some (stack, MLiteral "alse" (VBool false))
  else if Ascii.eqb c "n"%char then Some (stack, MLiteral "ull" VNull)
  else if Ascii.eqb c "]"%char then
    match first, stack with
    | true, FArr [] :: r => complete (VArr []) r
    | _, _ => None
    end
  else
    match digit_value c with
    | Some d =>
        if (d =? 0)%N then Some (stack, MNumber NZero (num0 false 0))
        else Some (stack, MNumber NInt (num0 false (Z.of_N d)))
    | None => None
    end.

Definition escape_value (c : ascii) : option ascii :=
  if Ascii.eqb c dquote then Some dquote
  else if Ascii.eqb c backslash then Some backslash
  else if Ascii.eqb c "/"%char then Some "/"%char
  else if Ascii.eqb c "b"%char then Some "008"%char
  else if Ascii.eqb c "f"%char then Some "012"%char
  else if Ascii.eqb c "n"%char then Some "010"%char
  else if Ascii.eqb c "r"%char then Some "013"%char
  else if Ascii.eqb c "t"%char then Some "009"%char
  else None.

Definition step (st : pstate) (c : ascii) : option pstate :=
  let '(stack, m) := st in
  match m with
  | MValue first => step_value first stack c
  | MKey first =>
      if json_ws c then Some (stack, m)
      else if Ascii.eqb c dquote then Some (stack, MString true EmptyString)
      else if Ascii.eqb c "}"%char then
        match first, stack with
        | true, FObj [] None :: r => complete (VObj []) r
        | _, _ => None
        end
      else None
  | MColon =>
      if json_ws c then Some (stack, m)
      else if Ascii.eqb c ":"%char then Some (stack, MValue false)
      else None
  | MAfter | MEnd _ => step_after stack m c
  | MString key acc =>
      if Ascii.eqb c dquote then complete_string key acc stack
      else if Ascii.eqb c backslash then Some (stack, MEscape key acc)
      else if (N_of_ascii c <? 32)%N then None
      else Some (stack, MString key (push_string acc c))
  | MEscape key acc =>
      if Ascii.eqb c "u"%char then Some (stack, MUnicode key acc 0 0%N)
      else match escape_value c with
           | Some x => Some (stack, MString key (push_string acc x))
           | None => None
           end
  | MUnicode key acc seen code =>
      match hex_value c with
      | Some d =>
          let code' := (code * 16 + d)%N in
          if (seen <? 3)%nat then Some (stack, MUnicode key acc (S seen) code')
          else if (code' <? 256)%N then
            Some (stack, MString key (push_string acc (ascii_of_N code')))
          else None
      | None => None
      end
  | MNumber s a => step_number s a stack c
  | MLiteral rest v =>
      match rest with
      | String c' r =>
          if Ascii.eqb c c' then
            match r with
            | EmptyString => complete v stack
            | _ => Some (stack, MLiteral r v)
            end
          else None
      | EmptyString => None
      end
  end.

Fixpoint run (s : string) (st : pstate) : option pstate :=
  match s with
  | EmptyString => Some st
  | String c r =>
      match step st c with
      | Some st' => run r st'
      | None => None
      end
  end.

Definition accepting (s : numst) : bool :=
  match s with
  | NZero | NInt | NFrac | NEDigits => true
  | _ => false
  end.

(** The value at the end of the text, if the text is complete. *)
Definition finish (st : pstate) : option jsval :=
  match st with
  | ([], MEnd v) => Some v
  | ([], MNumber s a) => if accepting s then Some (num_value a) else None
  | _ => None
  end.

(** [JSON.parse(text)]: the value, or [None] where the platform raises a
    SyntaxError. *)
Definition JSON_parse (text : string) : option jsval :=
  match run text ([], MValue false) with
  | Some st => finish st
  | None => None
  end.

(** ** Base64: [btoa] and [atob] *)

Definition b64_char (n : N) : ascii :=
  if (n <? 26)%N then ascii_of_N (65 + n)
  else if (n <? 52)%N then ascii_of_N (71 + n)
  else if (n <? 62)%N then ascii_of_N (n - 4)
  else if (n =? 62)%N then "+"%char
  else "/"%char.

Definition b64_value (c : ascii) : option N :=
  let n := N_of_ascii c in
  if ((65 <=? n) && (n <=? 90))%N then Some (n - 65)%N
  else if ((97 <=? n) && (n <=? 122))%N then Some (n - 71)%N
  else if ((48 <=? n) && (n <=? 57))%N then Some (n + 4)%N
  else if (n =? 43)%N then Some 62%N
  else if (n =? 47)%N then Some 63%N
  else None.

(** [btoa(s)]: every code unit of the model is a byte, so the call cannot
    raise. *)
Fixpoint btoa (s : string) : string :=
  match s with
  | EmptyString => EmptyString
  | String a EmptyString =>
      let x := N_of_ascii a in
      String (b64_char (x / 4)) (String (b64_char (x mod 4 * 16)) "==")
  | String a (String b EmptyString) =>
      let x := N_of_ascii a in
      let y := N_of_ascii b in
      String (b64_char (x / 4)) (String (b64_char (x mod 4 * 16 + y / 16))
        (String (b64_char (y mod 16 * 4)) "="))
  | String a (String b (String c r)) =>
      let x := N_of_ascii a in
      let y := N_of_ascii b in
      let z := N_of_ascii c in
      String (b64_char (x / 4)) (String (b64_char (x mod 4 * 16 + y / 16))
        (String (b64_char (y mod 16 * 4 + z / 64)) (String (b64_char (z mod 64)) (btoa r))))
  end.

Definition ascii_ws (c : ascii) : bool :=
  let n := N_of_ascii c in
  ((n =? 9) || (n =? 10) || (n =? 12) || (n =? 13) || (n =? 32))%N.

Fixpoint remove_ws (s : string) : string :=
  match s with
  | EmptyString => EmptyString
  | String c r => if ascii_ws c then remove_ws r else String c (remove_ws r)
  end.

(** Removes one or two trailing '=' signs. *)
Fixpoint strip_padding (s : string) : string :=
  match s with
  | String a (String b EmptyString) =>
      if Ascii.eqb b "="%char then
        if Ascii.eqb a "="%char then EmptyString else String a EmptyString
      else s
  | String a EmptyString => if Ascii.eqb a "="%char then EmptyString else s
  | String a r => String a (strip_padding r)
  | EmptyString => EmptyString
  end.

Fixpoint sextets (s : string) : option (list N) :=
  match s with
  | EmptyString => Some []
  | String c r =>
      match b64_value c, sextets r with
      | Some v, Some l => Some (v :: l)
      | _, _ => None
      end
  end.

Fixpoint decode_sextets (l : list N) : string :=
  match l with
  | p :: q :: r :: s :: rest =>
      String (ascii_of_N (p * 4 + q / 16))
        (String (ascii_of_N (q mod 16 * 16 + r / 4))
          (String (ascii_of_N (r mod 4 * 64 + s)) (decode_sextets rest)))
  | [p; q; r] =>
      String (ascii_of_N (p * 4 + q / 16)) (String (ascii_of_N (q mod 16 * 16 + r / 4)) EmptyString)
  | [p; q] => String (ascii_of_N (p * 4 + q / 16)) EmptyString
  | _ => EmptyString
  end.

(** [atob(s)], the forgiving base64 decoding: [None] where the platform
    raises an InvalidCharacterError. *)
Definition atob (s : string) : option string :=
  let d := remove_ws s in
  let d := if (String.length d mod 4 =? 0)%nat then strip_padding d else d in
  if (String.length d mod 4 =? 1)%nat then None
  else match sextets d with
       | Some l => Some (decode_sextets l)
       | None => None
       end.

(** ** The browser and the module state *)

Inductive event : Type :=
| Announce (message : string)   (* text put in a live region for screen readers *)
| Navigate (href : string)      (* an assignment to [window.location.href] *)
| Focus (element : string).     (* [element.focus()] *)

Record browser := mkBrowser {
  ls_items : gmap string string;        (* the entries of [localStorage] *)
  ls_accepts : string -> string -> bool;(* whether the medium takes a write of key and value *)
  clock : nat -> Z;                     (* the successive readings of the wall clock, in ms *)
  clock_reads : nat;                    (* how many readings were consumed *)
  pathname : string;                    (* [window.location.pathname] *)
  taskInput_value : string;             (* [taskInput.value] *)
  trace : list event                    (* announcements and navigations, oldest first *)
}.

(** Module variables of auth.js *)
Record auth_vars := mkAuth {
  currentUser : jsval;        (* [null] or the session object *)
  authToken : option string   (* [null] or the token *)
}.

(** Module variables of script.js.  [tasks] only ever holds objects: it is
    assigned [[]], object literals are pushed, and [loadTasks] stores the
    result of a [map] that builds object literals. *)
Record script_vars := mkScript {
  tasks : list obj;
  currentFilter : string;
  script_currentUser : jsval
}.

(** The fields of a [StorageManager] instance.  The in-memory fallback is a
    plain object used as a map from a key to the pair [{ value, timestamp }]:
    [inMemoryStorage] holds its own properties, and [inMemoryProto] the pair
    that an assignment to the key [__proto__] made its prototype, if any;
    otherwise the prototype is [Object.prototype]. *)
Record StorageManager := mkStorageManager {
  isAvailable : bool;
  inMemoryStorage : gmap string (jsval * Z);
  inMemoryProto : option (jsval * Z)
}.

Record world := mkWorld {
  w_browser : browser;
  w_auth : auth_vars;
  w_script : script_vars;
  w_storage : StorageManager
}.

Definition set_browser (f : browser -> browser) (w : world) : world :=
  mkWorld (f (w_browser w)) (w_auth w) (w_script w) (w_storage w).
Definition set_auth (f : auth_vars -> auth_vars) (w : world) : world :=
  mkWorld (w_browser w) (f (w_auth w)) (w_script w) (w_storage w).
Definition set_script (f : script_vars -> script_vars) (w : world) : world :=
  mkWorld (w_browser w) (w_auth w) (f (w_script w)) (w_storage w).
Definition set_storage (f : StorageManager -> StorageManager) (w : world) : world :=
  mkWorld (w_browser w) (w_auth w) (w_script w) (f (w_storage w)).

Definition with_items (f : gmap string string -> gmap string string) (b : browser) : browser :=
  mkBrowser (f (ls_items b)) (ls_accepts b) (clock b) (clock_reads b) (pathname b)
    (taskInput_value b) (trace b).
Definition with_tick (b : browser) : browser :=
  mkBrowser (ls_items b) (ls_accepts b) (clock b) (S (clock_reads b)) (pathname b)
    (taskInput_value b) (trace b).
Definition with_input (v : string) (b : browser) : browser :=
  mkBrowser (ls_items b) (ls_accepts b) (clock b) (clock_reads b) (pathname b) v (trace b).
Definition with_event (e : event) (b : browser) : browser :=
  mkBrowser (ls_items b) (ls_accepts b) (clock b) (clock_reads b) (pathname b)
    (taskInput_value b) (trace b ++ [e]).

(** *** The monad of statements *)

Definition M (A : Type) : Type := world -> completion A * world.

Definition ret {A} (a : A) : M A := fun w => (Normal a, w).

Definition bind {A B} (m : M A) (k : A -> M B) : M B :=
  fun w =>
    match m w with
    | (Normal a, w') => k a w'
    | (Throw e, w') => (Throw e, w')
    end.

Definition throw {A} (e : exn) : M A := fun w => (Throw e, w).

(** [try { body } catch (e) { handler e }] *)
Definition try_catch {A} (body : M A) (handler : exn -> M A) : M A :=
  fun w =>
    match body w with
    | (Normal a, w') => (Normal a, w')
    | (Throw e, w') => handler e w'
    end.

Definition lift {A} (c : completion A) : M A := fun w => (c, w).

Definition gets {A} (f : world -> A) : M A := fun w => (Normal (f w), w).
Definition modify (f : world -> world) : M unit := fun w => (Normal tt, f w).

Declare Scope js_scope.
Delimit Scope js_scope with js.
Notation "x <- m ;; k" := (bind m (fun x => k))
  (at level 20, m at level 99, k at level 200, only parsing) : js_scope.
Notation "m ;;; k" := (bind m (fun _ => k))
  (at level 100, k at level 200, only parsing, right associativity) : js_scope.
Local Open Scope js_scope.

(** *** Platform operations *)

(** [Date.now()]: the next reading of the clock. *)
Definition Date_now : M Z :=
  fun w => (Normal (clock (w_browser w) (clock_reads (w_browser w))), set_browser with_tick w).

(** [localStorage.getItem(key)]: [None] is [null]. *)
Definition localStorage_getItem (key : string) : M (option string) :=
  gets (fun w => ls_items (w_browser w) !! key).

(** [localStorage.setItem(key, value)] raises a QuotaExceededError when the
    medium refuses the write. *)
Definition localStorage_setItem (key value : string) : M unit :=
  fun w =>
    if ls_accepts (w_browser w) key value
    then (Normal tt, set_browser (with_items (insert key value)) w)
    else (Throw QuotaExceededError, w).

Definition localStorage_removeItem (key : string) : M unit :=
  modify (set_browser (with_items (delete key))).

Definition localStorage_clear : M unit :=
  modify (set_browser (with_items (fun _ => ∅))).

Definition emit (e : event) : M unit := modify (set_browser (with_event e)).

Definition JSON_parse_M (text : string) : M jsval :=
  match JSON_parse text with
  | Some v => ret v
  | None => throw SyntaxError
  end.

Definition atob_M (s : string) : M string :=
  match atob s with
  | Some b => ret b
  | None => throw InvalidCharacterError
  end.

(** ToString of a value, as a statement: a template literal, or the
    argument of [localStorage.setItem] and [btoa]. *)
Definition ToString (v : jsval) : M string := lift (to_string v).

Definition pad (width : nat) (s : string) : string :=
  zeros (width - String.length s) +:+ s.

(** [new Date(t).toISOString()] for a time value [t] in milliseconds:
    the proleptic Gregorian date and time in UTC. *)
Definition Date_toISOString (t : Z) : string :=
  let days := t / 86400000 in
  let ms := t mod 86400000 in
  let z := days + 719468 in
  let era := z / 146097 in
  let doe := z - era * 146097 in
  let yoe := (doe - doe / 1460 + doe / 36524 - doe / 146096) / 365 in
  let doy := doe - (365 * yoe + yoe / 4 - yoe / 100) in
  let mp := (5 * doy + 2) / 153 in
  let d := doy - (153 * mp + 2) / 5 + 1 in
  let m := if mp <? 10 then mp + 3 else mp - 9 in
  let y := yoe + era * 400 + (if m <=? 2 then 1 else 0) in
  let num w n := pad w (N_to_string (Z.to_N n)) in
  let year :=
    if (0 <=? y) && (y <=? 9999) then num 4%nat y
    else (if y <? 0 then "-" else "+") +:+ num 6%nat (Z.abs y) in
  year +:+ "-" +:+ num 2%nat m +:+ "-" +:+ num 2%nat d +:+ "T" +:+
  num 2%nat (ms / 3600000) +:+ ":" +:+ num 2%nat (ms / 60000 mod 60) +:+ ":" +:+
  num 2%nat (ms / 1000 mod 60) +:+ "." +:+ num 3%nat (ms mod 1000) +:+ "Z".

(** * components/auth.js *)

Module Auth.

Record user := mkUser {
  id : string;
  username : string;
  password : string;
  email : string;
  role : string
}.

Definition MOCK_USERS : list user :=
  [ mkUser "admin123" "admin" "password123" "admin@taskmanager.com" "admin";
    mkUser "user456" "user" "user123" "user@taskmanager.com" "user" ].

Module STORAGE_KEYS.
Definition AUTH_TOKEN : string := "taskManager_authToken".
Definition USER_SESSION : string := "taskManager_userSession".
Definition LOGIN_TIME : string := "taskManager_loginTime".
End STORAGE_KEYS.

Definition set_currentUser (v : jsval) : M unit :=
  modify (set_auth (fun a => mkAuth v (authToken a))).
Definition set_authToken (t : option string) : M unit :=
  modify (set_auth (fun a => mkAuth (currentUser a) t)).

Definition token_value (t : option string) : jsval :=
  match t with
  | Some s => VStr s
  | None => VNull
  end.

(** [simulateDelay(ms)] resolves after a timer; the continuation of [login]
    then runs.  No handler is interleaved in the model. *)
Definition simulateDelay (ms : Z) : M unit := ret tt.

(** Puts the message in a live region of the document. *)
Definition announceToScreenReader (message : string) : M unit := emit (Announce message).

Definition redirectToLogin : M unit :=
  p <- gets (fun w => pathname (w_browser w)) ;;
  if negb (includes p "login.html") then emit (Navigate "login.html") else ret tt.

Definition redirectToApp : M unit :=
  p <- gets (fun w => pathname (w_browser w)) ;;
  if includes p "login.html" then emit (Navigate "index.html") else ret tt.

Definition findUser (usernameOrEmail password' : string) : option user :=
  let normalizedInput := trim (toLowerCase usernameOrEmail) in
  List.find (fun user =>
    let matchesUsername := String.eqb (toLowerCase (username user)) normalizedInput in
    let matchesEmail := String.eqb (toLowerCase (email user)) normalizedInput in
    let matchesPassword := String.eqb (password user) password' in
    (matchesUsername || matchesEmail) && matchesPassword) MOCK_USERS.

Definition generateMockToken (user : user) : M string :=
  header_json <- ToString (JSON_stringify (VObj (object_literal
                   [("alg", VStr "HS256"); ("typ", VStr "JWT")]))) ;;
  let header := btoa header_json in
  iat <- Date_now ;;
  now <- Date_now ;;
  payload_json <- ToString (JSON_stringify (VObj (object_literal
                   [("sub", VStr (id user)); ("username", VStr (username user));
                    ("email", VStr (email user)); ("role", VStr (role user));
                    ("iat", VInt iat); ("exp", VInt (now + 24 * 60 * 60 * 1000))]))) ;;
  let payload := btoa payload_json in
  let signature := btoa ("mock-signature-" +:+ id user) in
  ret (header +:+ "." +:+ payload +:+ "." +:+ signature).

Definition clearUserSession : M unit :=
  try_catch
    (localStorage_removeItem STORAGE_KEYS.AUTH_TOKEN ;;;
     localStorage_removeItem STORAGE_KEYS.USER_SESSION ;;;
     localStorage_removeItem STORAGE_KEYS.LOGIN_TIME)
    (fun _ => ret tt).

Definition saveUserSession : M unit :=
  try_catch
    (token <- gets (fun w => authToken (w_auth w)) ;;
     token_string <- ToString (token_value token) ;;
     localStorage_setItem STORAGE_KEYS.AUTH_TOKEN token_string ;;;
     user <- gets (fun w => currentUser (w_auth w)) ;;
     user_json <- ToString (JSON_stringify user) ;;
     localStorage_setItem STORAGE_KEYS.USER_SESSION user_json ;;;
     now <- Date_now ;;
     localStorage_setItem STORAGE_KEYS.LOGIN_TIME (Date_toISOString now))
    (fun _ => ret tt).

Definition loadUserSession : M unit :=
  try_catch
    (storedToken <- localStorage_getItem STORAGE_KEYS.AUTH_TOKEN ;;
     storedUser <- localStorage_getItem STORAGE_KEYS.USER_SESSION ;;
     match storedToken, storedUser with
     | Some token, Some user =>
         if truthy (VStr token) && truthy (VStr user) then
           set_authToken (Some token) ;;;
           parsed <- JSON_parse_M user ;;
           set_currentUser parsed
         else ret tt
     | _, _ => ret tt
     end)
    (fun _ => clearUserSession).

Definition logout : M unit :=
  set_currentUser VNull ;;;
  set_authToken None ;;;
  clearUserSession ;;;
  announceToScreenReader "Successfully logged out" ;;;
  p <- gets (fun w => pathname (w_browser w)) ;;
  if negb (includes p "login.html") then redirectToLogin else ret tt.

Definition getCurrentUser : M jsval := gets (fun w => currentUser (w_auth w)).

Definition isAuthenticated : M bool :=
  user <- gets (fun w => currentUser (w_auth w)) ;;
  if strict_eq user VNull then ret false
  else
    flag <- lift (get_prop user "isAuthenticated") ;;
    ret (strict_eq flag (VBool true)).

Definition checkAuthStatus : M bool :=
  authenticated <- isAuthenticated ;;
  if negb authenticated then redirectToLogin ;;; ret false else ret true.

Definition validateSession : M bool :=
  user <- gets (fun w => currentUser (w_auth w)) ;;
  token <- gets (fun w => authToken (w_auth w)) ;;
  if truthy user && truthy (token_value token) then
    try_catch
      (token_string <- ToString (token_value token) ;;
       let tokenParts := split "."%char token_string in
       (if negb (length tokenParts =? 3)%nat
        then throw (Error "Invalid token format") else ret tt) ;;;
       decoded <- atob_M (nth 1 tokenParts EmptyString) ;;
       payload <- JSON_parse_M decoded ;;
       now <- Date_now ;;
       exp <- lift (get_prop payload "exp") ;;
       expired <- lift (int_gt now exp) ;;
       if expired then throw (Error "Token expired") else ret true)
      (fun _ => logout ;;; ret false)
  else ret false.

Definition login (usernameOrEmail password' : string) : M jsval :=
  try_catch
    ((if negb (truthy (VStr usernameOrEmail)) || negb (truthy (VStr password'))
      then throw (Error "Username and password are required") else ret tt) ;;;
     simulateDelay 500 ;;;
     match findUser usernameOrEmail password' with
     | None => throw (Error "Invalid username or password")
     | Some user =>
         token <- generateMockToken user ;;
         now <- Date_now ;;
         set_currentUser (VObj (object_literal
           [("id", VStr (id user)); ("username", VStr (username user));
            ("email", VStr (email user)); ("role", VStr (role user));
            ("isAuthenticated", VBool true);
            ("loginTime", VStr (Date_toISOString now))])) ;;;
         set_authToken (Some token) ;;;
         saveUserSession ;;;
         session <- gets (fun w => currentUser (w_auth w)) ;;
         stored <- gets (fun w => authToken (w_auth w)) ;;
         ret (VObj (object_literal
           [("success", VBool true); ("user", session); ("token", token_value stored)]))
     end)
    (fun error =>
       ret (VObj (object_literal
         [("success", VBool false); ("error", VStr (exn_message error))]))).

Definition initializeAuth : M unit :=
  loadUserSession ;;;
  _ <- validateSession ;;
  ret tt.

End Auth.

(** * utils/storage.js *)

Module Storage.

Module STORAGE_KEYS.
Definition AUTH_TOKEN : string := "taskManager_authToken".
Definition USER_SESSION : string := "taskManager_userSession".
Definition LOGIN_TIME : string := "taskManager_loginTime".
Definition TASKS : string := "tasks".
Definition SETTINGS : string := "taskManager_settings".
End STORAGE_KEYS.

Definition set_isAvailable (b : bool) : M unit :=
  modify (set_storage (fun s => mkStorageManager b (inMemoryStorage s) (inMemoryProto s))).

(** The in-memory fallback.  [this.inMemoryStorage[key] = {...}] defines an
    own property, except for the key [__proto__], where it replaces the
    prototype of the object. *)
Definition setInMemory (key : string) (value : jsval) : M bool :=
  now <- Date_now ;;
  modify (set_storage (fun s =>
    if String.eqb key "__proto__"
    then mkStorageManager (isAvailable s) (inMemoryStorage s) (Some (value, now))
    else mkStorageManager (isAvailable s) (<[key := (value, now)]> (inMemoryStorage s))
           (inMemoryProto s))) ;;;
  ret true.

(** [stored ? stored.value : defaultValue] with [stored] the property
    [this.inMemoryStorage[key]], own or inherited.  The key [__proto__]
    is never an own property (an assignment to it sets the prototype) and
    reads the prototype.  Another key that is not an own property finds:
    under [value] and [timestamp] the members of a prototype that was set;
    under the other names of [Object.prototype] a function, which is
    truthy and has no member [value]. *)
Definition getInMemory (key : string) (given : jsval) : M jsval :=
  let defaultValue := default_parameter given VNull in
  own <- gets (fun w => inMemoryStorage (w_storage w) !! key) ;;
  proto <- gets (fun w => inMemoryProto (w_storage w)) ;;
  if String.eqb key "__proto__" then
    match proto with
    | Some (value, _) => ret value
    | None => ret VUndefined
    end
  else
    match own with
    | Some (value, _) => ret value
    | None =>
        match proto with
        | Some (value, timestamp) =>
            if String.eqb key "value" then
              if truthy value then lift (get_prop value "value") else ret defaultValue
            else if String.eqb key "timestamp" then
              if timestamp =? 0 then ret defaultValue else ret VUndefined
            else if inherited_name key then ret VUndefined else ret defaultValue
        | None => if inherited_name key then ret VUndefined else ret defaultValue
        end
    end.

(** [delete this.inMemoryStorage[key]] removes an own property; the
    prototype stays. *)
Definition removeInMemory (key : string) : M bool :=
  modify (set_storage (fun s =>
    mkStorageManager (isAvailable s) (delete key (inMemoryStorage s)) (inMemoryProto s))) ;;;
  ret true.

Definition clearInMemory : M unit :=
  modify (set_storage (fun s => mkStorageManager (isAvailable s) ∅ None)).

Definition checkStorageAvailability : M bool :=
  try_catch
    (let test := "__storage_test__" in
     localStorage_setItem test test ;;;
     localStorage_removeItem test ;;;
     ret true)
    (fun _ => ret false).

(** The constructor *)
Definition new_StorageManager : M unit :=
  available <- checkStorageAvailability ;;
  set_isAvailable available.

Definition setItem (key : string) (value : jsval) : M bool :=
  available <- gets (fun w => isAvailable (w_storage w)) ;;
  if negb available then setInMemory key value
  else
    try_catch
      (now <- Date_now ;;
       jsonValue <- ToString (JSON_stringify (VObj (object_literal
                      [("value", value); ("timestamp", VInt now);
                       ("type", VStr (typeof value))]))) ;;
       localStorage_setItem key jsonValue ;;;
       ret true)
      (fun _ => ret false).

Definition getItem (key : string) (given : jsval) : M jsval :=
  let defaultValue := default_parameter given VNull in
  available <- gets (fun w => isAvailable (w_storage w)) ;;
  if negb available then getInMemory key defaultValue
  else
    try_catch
      (storedItem <- localStorage_getItem key ;;
       match storedItem with
       | None => ret defaultValue
       | Some text =>
           parsed <- JSON_parse_M text ;;
           has_value <- lift (hasOwnProperty parsed "value") ;;
           if negb has_value then
             if String.eqb text "undefined" then ret defaultValue else JSON_parse_M text
           else lift (get_prop parsed "value")
       end)
      (fun _ => ret defaultValue).

Definition removeItem (key : string) : M bool :=
  available <- gets (fun w => isAvailable (w_storage w)) ;;
  if negb available then removeInMemory key
  else try_catch (localStorage_removeItem key ;;; ret true) (fun _ => ret false).

Definition clear : M bool :=
  available <- gets (fun w => isAvailable (w_storage w)) ;;
  if negb available then clearInMemory ;;; ret true
  else try_catch (localStorage_clear ;;; ret true) (fun _ => ret false).

Module AuthStorage.
Definition setAuthToken (token : jsval) : M bool := setItem STORAGE_KEYS.AUTH_TOKEN token.
Definition getAuthToken : M jsval := getItem STORAGE_KEYS.AUTH_TOKEN VNull.
Definition clearAuthToken : M bool := removeItem STORAGE_KEYS.AUTH_TOKEN.

Definition setUserSession (userData : jsval) : M bool :=
  success <- setItem STORAGE_KEYS.USER_SESSION userData ;;
  (if success then
     now <- Date_now ;;
     _ <- setItem STORAGE_KEYS.LOGIN_TIME (VStr (Date_toISOString now)) ;;
     ret tt
   else ret tt) ;;;
  ret success.

Definition getUserSession : M jsval := getItem STORAGE_KEYS.USER_SESSION VNull.

(** [results.every(result => result === true)] *)
Definition every_true (results : list bool) : bool := forallb (fun r => Bool.eqb r true) results.

Definition clearUserSession : M bool :=
  r1 <- removeItem STORAGE_KEYS.USER_SESSION ;;
  r2 <- removeItem STORAGE_KEYS.LOGIN_TIME ;;
  ret (every_true [r1; r2]).

Definition clearAuthData : M bool :=
  r1 <- clearAuthToken ;;
  r2 <- clearUserSession ;;
  ret (every_true [r1; r2]).
End AuthStorage.

Module TaskStorage.
Definition saveTasks (tasks : jsval) : M bool := setItem STORAGE_KEYS.TASKS tasks.
Definition loadTasks : M jsval := getItem STORAGE_KEYS.TASKS (VArr []).
Definition clearTasks : M bool := removeItem STORAGE_KEYS.TASKS.
End TaskStorage.

End Storage.

(** * script.js *)

Module Script.

Definition set_tasks (l : list obj) : M unit :=
  modify (set_script (fun s => mkScript l (currentFilter s) (script_currentUser s))).
Definition set_currentUser (v : jsval) : M unit :=
  modify (set_script (fun s => mkScript (tasks s) (currentFilter s) v)).
Definition set_currentFilter (f : string) : M unit :=
  modify (set_script (fun s => mkScript (tasks s) f (script_currentUser s))).

Definition completed (task : obj) : bool := truthy (obj_get task "completed").

Definition getFilteredTasks : M (list obj) :=
  filterValue <- gets (fun w => currentFilter (w_script w)) ;;
  list <- gets (fun w => tasks (w_script w)) ;;
  if String.eqb filterValue "active" then ret (List.filter (fun task => negb (completed task)) list)
  else if String.eqb filterValue "completed" then ret (List.filter completed list)
  else ret list.

(** [createTaskHTML(task)] writes the task into markup: the id through a
    template literal, the text through [escapeHtml], which assigns it to
    [textContent].  Both convert to a string, which can raise. *)
Definition createTaskHTML (task : obj) : completion unit :=
  cbind (to_string (obj_get task "id")) (fun _ =>
    match obj_get task "text" with
    | VUndefined | VNull => Normal tt
    | text => cbind (to_string text) (fun _ => Normal tt)
    end).

Fixpoint for_each {A} (f : A -> completion unit) (l : list A) : completion unit :=
  match l with
  | [] => Normal tt
  | x :: r => cbind (f x) (fun _ => for_each f r)
  end.

(** [renderTasks()] rewrites the list in the document, which the model does
    not hold; what remains of it is the conversions that can raise. *)
Definition renderTasks : M unit :=
  filteredTasks <- getFilteredTasks ;;
  list <- gets (fun w => tasks (w_script w)) ;;
  if (length list =? 0)%nat then ret tt
  else lift (for_each createTaskHTML filteredTasks).

(** [updateCounts()] writes three numbers into the document. *)
Definition updateCounts : M unit := ret tt.

(** [attachEventListeners()] registers the handlers below with the document. *)
Definition attachEventListeners : M unit := ret tt.

Definition announceToScreenReader (message : string) : M unit := emit (Announce message).

Definition saveTasks : M unit :=
  try_catch
    (user <- gets (fun w => script_currentUser (w_script w)) ;;
     if negb (truthy user) then ret tt
     else
       user_id <- lift (get_prop user "id") ;;
       id_string <- ToString user_id ;;
       let userTaskKey := "tasks_" +:+ id_string in
       list <- gets (fun w => tasks (w_script w)) ;;
       json <- ToString (JSON_stringify (VArr (map VObj list))) ;;
       localStorage_setItem userTaskKey json)
    (fun _ => ret tt).

(** [array.filter(f)] and [array.map(f)] with a callback that can raise. *)
Fixpoint filter_c {A} (f : A -> completion bool) (l : list A) : completion (list A) :=
  match l with
  | [] => Normal []
  | x :: r =>
      cbind (f x) (fun keep =>
        cbind (filter_c f r) (fun r' => Normal (if keep then x :: r' else r')))
  end.

Fixpoint map_c {A B} (f : A -> completion B) (l : list A) : completion (list B) :=
  match l with
  | [] => Normal []
  | x :: r => cbind (f x) (fun y => cbind (map_c f r) (fun r' => Normal (y :: r')))
  end.

(** The method call [value.filter(f)]: only an array has the method. *)
Definition array_elements (v : jsval) : completion (list jsval) :=
  match v with
  | VArr l => Normal l
  | _ => Throw TypeError
  end.

(** The callback of [tasks.filter]:
    [task => !task.userId || task.userId === currentUser.id] *)
Definition belongs_to (user_id : jsval) (task : jsval) : completion bool :=
  cbind (get_prop task "userId") (fun owner =>
    if negb (truthy owner) then Normal true
    else cbind (get_prop task "userId") (fun owner' => Normal (strict_eq owner' user_id))).

(** The callback of [tasks.map]:
    [task => ({...task, userId: task.userId || currentUser.id})] *)
Definition with_owner (user_id : jsval) (task : jsval) : completion obj :=
  let copy := spread task in
  cbind (get_prop task "userId") (fun owner =>
    Normal (obj_set "userId" (if truthy owner then owner else user_id) copy)).

(** [loadTasks()].  The source assigns the intermediate lists to [tasks];
    every exception ends in [tasks = []], so only the last assignment of a
    run is kept here. *)
Definition loadTasks : M unit :=
  try_catch
    (user <- gets (fun w => script_currentUser (w_script w)) ;;
     if negb (truthy user) then set_tasks []
     else
       user_id <- lift (get_prop user "id") ;;
       id_string <- ToString user_id ;;
       let userTaskKey := "tasks_" +:+ id_string in
       storedTasks <- localStorage_getItem userTaskKey ;;
       match storedTasks with
       | Some text =>
           if truthy (VStr text) then
             parsed <- JSON_parse_M text ;;
             elements <- lift (array_elements parsed) ;;
             owned <- lift (filter_c (belongs_to user_id) elements) ;;
             stamped <- lift (map_c (with_owner user_id) owned) ;;
             set_tasks stamped ;;;
             saveTasks
           else set_tasks []
       | None => set_tasks []
       end)
    (fun _ => set_tasks []).

Definition init : M unit :=
  user <- Auth.getCurrentUser ;;
  set_currentUser user ;;;
  if negb (truthy user) then ret tt
  else loadTasks ;;; renderTasks ;;; updateCounts ;;; attachEventListeners.

(** [handleAddTask(e)], the submit handler of the task form. *)
Definition handleAddTask : M unit :=
  value <- gets (fun w => taskInput_value (w_browser w)) ;;
  let taskText := trim value in
  if String.eqb taskText "" then emit (Focus "taskInput")
  else
    authenticated <- Auth.isAuthenticated ;;
    if negb authenticated then Auth.redirectToLogin
    else
      now <- Date_now ;;
      created <- Date_now ;;
      user <- gets (fun w => script_currentUser (w_script w)) ;;
      user_id <- lift (get_prop user "id") ;;
      let newTask := object_literal
        [("id", VInt now); ("text", VStr taskText); ("completed", VBool false);
         ("createdAt", VStr (Date_toISOString created)); ("userId", user_id)] in
      list <- gets (fun w => tasks (w_script w)) ;;
      set_tasks (list ++ [newTask]) ;;;
      saveTasks ;;;
      renderTasks ;;;
      updateCounts ;;;
      modify (set_browser (with_input "")) ;;;
      emit (Focus "taskInput") ;;;
      announceToScreenReader
        ("Task " +:+ String dquote (taskText +:+ String dquote " added successfully")).

(** [handleClearCompleted()], the click handler of the clear button.  Its
    [return] has no operand and its body ends without one: the value of a
    call is [undefined]. *)
Definition handleClearCompleted : M jsval :=
  list <- gets (fun w => tasks (w_script w)) ;;
  let completedCount := length (List.filter completed list) in
  if (completedCount =? 0)%nat then ret VUndefined
  else
    set_tasks (List.filter (fun task => negb (completed task)) list) ;;;
    saveTasks ;;;
    renderTasks ;;;
    updateCounts ;;;
    announceToScreenReader
      (N_to_string (N.of_nat completedCount) +:+ " completed task" +:+
       (if negb (completedCount =? 1)%nat then "s" else "") +:+ " cleared") ;;;
    ret VUndefined.

(** The callback [t => t.id === taskId].  The argument comes from
    [parseInt]; NaN, which equals no id, is outside the numbers of the model. *)
Definition has_id (taskId : jsval) (task : obj) : bool :=
  strict_eq (obj_get task "id") taskId.

(** [handleDeleteTask(taskId)], the click handler of a delete button. *)
Definition handleDeleteTask (taskId : jsval) : M unit :=
  list <- gets (fun w => tasks (w_script w)) ;;
  let task := List.find (has_id taskId) list in
  let taskText := match task with
                  | Some t => obj_get t "text"
                  | None => VStr ""
                  end in
  set_tasks (List.filter (fun task => negb (has_id taskId task)) list) ;;;
  saveTasks ;;;
  renderTasks ;;;
  updateCounts ;;;
  text <- ToString taskText ;;
  announceToScreenReader ("Task " +:+ String dquote (text +:+ String dquote " deleted")).

(** The array after an assignment to a property of the first element that
    satisfies [p]: the element is changed in place. *)
Fixpoint update_first (p : obj -> bool) (f : obj -> obj) (l : list obj) : list obj :=
  match l with
  | [] => []
  | x :: r => if p x then f x :: r else x :: update_first p f r
  end.

(** The assignment [task.completed = !task.completed] *)
Definition toggle (task : obj) : obj :=
  obj_set "completed" (VBool (negb (truthy (obj_get task "completed")))) task.

(** [handleToggleTask(taskId)], the change handler of a checkbox. *)
Definition handleToggleTask (taskId : jsval) : M unit :=
  list <- gets (fun w => tasks (w_script w)) ;;
  match List.find (has_id taskId) list with
  | Some task =>
      set_tasks (update_first (has_id taskId) toggle list) ;;;
      saveTasks ;;;
      renderTasks ;;;
      updateCounts ;;;
      let status := if completed (toggle task) then "completed" else "marked as active" in
      text <- ToString (obj_get (toggle task) "text") ;;
      announceToScreenReader
        ("Task " +:+ String dquote (text +:+ String dquote (" " +:+ status)))
  | None => ret tt
  end.

(** [handleFilterChange(e)], the click handler of a filter button whose
    [data-filter] attribute is [filterValue]. *)
Definition handleFilterChange (filterValue : string) : M unit :=
  set_currentFilter filterValue ;;;
  renderTasks.

End Script.

(** * The validation utilities

    The second part of script.js: the rules, the messages and the
    [ValidationManager] class. *)

Module Validation.

(** The patterns of the rules are anchored sequences of character classes,
    each taken once or repeated: [^ c1 c2+ ... $]. *)
Inductive atom : Type :=
| One (class : ascii -> bool)     (* a class, once *)
| Many (class : ascii -> bool).   (* a class with [+] *)

(** [pattern.test(s)]: the matcher tries the longest repetition first and
    backtracks; the pattern is anchored at both ends, so the whole of [s]
    has to be consumed. *)
Fixpoint test (pattern : list atom) : string -> bool :=
  match pattern with
  | [] => fun s => String.eqb s ""
  | One class :: rest =>
      fun s => match s with
               | String c r => class c && test rest r
               | EmptyString => false
               end
  | Many class :: rest =>
      fix many (s : string) : bool :=
        match s with
        | String c r => class c && (many r || test rest r)
        | EmptyString => false
        end
  end.

Definition in_range (lo hi c : ascii) : bool :=
  ((N_of_ascii lo <=? N_of_ascii c) && (N_of_ascii c <=? N_of_ascii hi))%N.

(** The class [[a-zA-Z0-9_.-]] *)
Definition username_char (c : ascii) : bool :=
  in_range "a" "z" c || in_range "A" "Z" c || in_range "0" "9" c
  || Ascii.eqb c "_"%char || Ascii.eqb c "."%char || Ascii.eqb c "-"%char.

(** The class [[^\s@]] *)
Definition email_char (c : ascii) : bool :=
  negb (is_white_space c || Ascii.eqb c "@"%char).

Module VALIDATION_RULES.
Module USERNAME.
Definition MIN_LENGTH : Z := 2.
Definition MAX_LENGTH : Z := 30.
Definition PATTERN : list atom := [Many username_char].
End USERNAME.
Module PASSWORD.
Definition MIN_LENGTH : Z := 6.
Definition MAX_LENGTH : Z := 128.
End PASSWORD.
Module EMAIL.
Definition PATTERN : list atom :=
  [Many email_char; One (Ascii.eqb "@"%char); Many email_char; One (Ascii.eqb "."%char);
   Many email_char].
End EMAIL.
End VALIDATION_RULES.

Module ERROR_MESSAGES.
Definition REQUIRED : string := "This field is required".
Definition INVALID_EMAIL : string := "Please enter a valid email address".
Definition INVALID_USERNAME : string :=
  "Username can only contain letters, numbers, dots, dashes, and underscores".
Definition USERNAME_TOO_SHORT : string :=
  "Username must be at least " +:+ Number_toString VALIDATION_RULES.USERNAME.MIN_LENGTH 0
  +:+ " characters".
Definition USERNAME_TOO_LONG : string :=
  "Username cannot exceed " +:+ Number_toString VALIDATION_RULES.USERNAME.MAX_LENGTH 0
  +:+ " characters".
Definition PASSWORD_TOO_SHORT : string :=
  "Password must be at least " +:+ Number_toString VALIDATION_RULES.PASSWORD.MIN_LENGTH 0
  +:+ " characters".
Definition PASSWORD_TOO_LONG : string :=
  "Password cannot exceed " +:+ Number_toString VALIDATION_RULES.PASSWORD.MAX_LENGTH 0
  +:+ " characters".
Definition INVALID_USERNAME_OR_EMAIL : string :=
  "Please enter a valid username or email address".
End ERROR_MESSAGES.

(** The object [{ isValid, error }] that a validator returns; [error] is
    [null] or a message. *)
Definition verdict (error : option string) : jsval :=
  VObj (object_literal
    [("isValid", VBool (match error with None => true | Some _ => false end));
     ("error", match error with None => VNull | Some message => VStr message end)]).

(** The method call [value.trim()]: only a string has the method. *)
Definition call_trim (value : jsval) : completion string :=
  match value with
  | VStr s => Normal (trim s)
  | _ => Throw TypeError
  end.

(** The comparisons [v < n] and [v > n] with a number [n]: false when [v]
    converts to NaN. *)
Definition less_than (v : jsval) (n : Z) : completion bool :=
  cbind (to_number v) (fun x =>
    Normal match x with
           | NaN | PosInf => false
           | NegInf => true
           | Fin m e => fin_ltb m e n 0
           end).

Definition greater_than (v : jsval) (n : Z) : completion bool :=
  cbind (to_number v) (fun x =>
    Normal match x with
           | NaN | NegInf => false
           | PosInf => true
           | Fin m e => fin_ltb n 0 m e
           end).

Definition validateRequired (value : jsval) : completion jsval :=
  cbind (match value with
         | VNull | VUndefined => Normal false
         | _ => cbind (to_string value) (fun s =>
                  Normal (0 <? Z.of_nat (String.length (trim s))))
         end)
    (fun isValid =>
       Normal (verdict (if isValid then None else Some ERROR_MESSAGES.REQUIRED))).

Definition validateEmail (value : jsval) : completion jsval :=
  if negb (truthy value) then Normal (verdict None)
  else
    cbind (call_trim value) (fun trimmed =>
      let isValid := test VALIDATION_RULES.EMAIL.PATTERN trimmed in
      Normal (verdict (if isValid then None else Some ERROR_MESSAGES.INVALID_EMAIL))).

Definition validateUsername (value : jsval) : completion jsval :=
  if negb (truthy value) then Normal (verdict None)
  else
    cbind (call_trim value) (fun trimmedValue =>
      let length := Z.of_nat (String.length trimmedValue) in
      if length <? VALIDATION_RULES.USERNAME.MIN_LENGTH
      then Normal (verdict (Some ERROR_MESSAGES.USERNAME_TOO_SHORT))
      else if VALIDATION_RULES.USERNAME.MAX_LENGTH <? length
      then Normal (verdict (Some ERROR_MESSAGES.USERNAME_TOO_LONG))
      else
        let isValid := test VALIDATION_RULES.USERNAME.PATTERN trimmedValue in
        Normal (verdict (if isValid then None else Some ERROR_MESSAGES.INVALID_USERNAME))).

Definition validatePassword (value : jsval) : completion jsval :=
  if negb (truthy value) then Normal (verdict None)
  else
    cbind (get_prop value "length") (fun length =>
      cbind (less_than length VALIDATION_RULES.PASSWORD.MIN_LENGTH) (fun short =>
        if short then Normal (verdict (Some ERROR_MESSAGES.PASSWORD_TOO_SHORT))
        else
          cbind (greater_than length VALIDATION_RULES.PASSWORD.MAX_LENGTH) (fun long =>
            if long then Normal (verdict (Some ERROR_MESSAGES.PASSWORD_TOO_LONG))
            else Normal (verdict None)))).

Definition validateUsernameOrEmail (value : jsval) : completion jsval :=
  if negb (truthy value) then Normal (verdict None)
  else
    cbind (call_trim value) (fun trimmedValue =>
      if includes trimmedValue "@" then validateEmail (VStr trimmedValue)
      else validateUsername (VStr trimmedValue)).

(** The field [validators] of a [ValidationManager]: a [Map] from rule
    names to validator functions.  A validator takes the value and returns
    an object with the members [isValid] and [error]. *)
Definition validator : Type := jsval -> completion jsval.

Definition setupDefaultValidators : gmap string validator :=
  <["usernameOrEmail" := validateUsernameOrEmail]>
    (<["password" := validatePassword]>
       (<["username" := validateUsername]>
          (<["email" := validateEmail]>
             (<["required" := validateRequired]> ∅)))).

Definition addValidator (name : string) (v : validator) (validators : gmap string validator)
  : gmap string validator :=
  <[name := v]> validators.

(** [for (const rule of rules)]: an array gives its elements, a string its
    code units; nothing else in the model can be iterated. *)
Definition iterate (v : jsval) : completion (list jsval) :=
  match v with
  | VArr l => Normal l
  | VStr s => Normal (string_chars s)
  | _ => Throw TypeError
  end.

(** The loop of [validateField]: the list [errors] at its end. *)
Fixpoint first_error (validators : gmap string validator) (value : jsval) (rules : list jsval)
  : completion (list jsval) :=
  match rules with
  | [] => Normal []
  | rule :: rest =>
      match match rule with
            | VStr name => validators !! name
            | _ => None
            end with
      | Some validate =>
          cbind (validate value) (fun result =>
            cbind (get_prop result "isValid") (fun isValid =>
              if negb (truthy isValid)
              then cbind (get_prop result "error") (fun error => Normal [error])
              else first_error validators value rest))
      | None => first_error validators value rest
      end
  end.

Definition validateField (validators : gmap string validator) (value rules : jsval)
  : completion jsval :=
  cbind (iterate rules) (fun rule_list =>
    cbind (first_error validators value rule_list) (fun errors =>
      Normal (VObj (object_literal
        [("isValid", VBool (length errors =? 0)%nat);
         ("errors", VArr errors);
         ("error", match errors with
                   | error :: _ => if truthy error then error else VNull
                   | [] => VNull
                   end)])))).

(** [Object.entries(v)] *)
Definition entries (v : jsval) : completion obj :=
  match v with
  | VUndefined | VNull => Throw TypeError
  | _ => Normal (spread v)
  end.

(** The assignment [results[fieldName] = result] of an object: the name
    [__proto__] sets the prototype and defines no property. *)
Definition assign (fieldName : string) (result : jsval) (results : obj) : obj :=
  if String.eqb fieldName "__proto__" then results else obj_set fieldName result results.

(** The loop of [validateForm].  Field names that are members of
    [Object.prototype] are outside the model: [formData[fieldName]] would
    find the inherited member. *)
Fixpoint validate_fields (validators : gmap string validator) (formData : jsval)
  (rules : obj) (results : obj) (isFormValid : bool) : completion (obj * bool) :=
  match rules with
  | [] => Normal (results, isFormValid)
  | (fieldName, fieldRules) :: rest =>
      cbind (get_prop formData fieldName) (fun fieldValue =>
        cbind (validateField validators fieldValue fieldRules) (fun result =>
          cbind (get_prop result "isValid") (fun isValid =>
            validate_fields validators formData rest (assign fieldName result results)
              (if negb (truthy isValid) then false else isFormValid))))
  end.

(** The entries of [results] are the objects that [validateField] built;
    reading a member of them cannot raise. *)
Definition member (result : jsval) (k : string) : jsval :=
  match result with
  | VObj o => obj_get o k
  | _ => VUndefined
  end.

Definition validateForm (validators : gmap string validator) (formData validationRules : jsval)
  : completion jsval :=
  cbind (entries validationRules) (fun rules =>
    cbind (validate_fields validators formData rules [] true) (fun '(results, isFormValid) =>
      let invalid := List.filter (fun kv => negb (truthy (member (snd kv) "isValid"))) results in
      let errors := map (fun kv => VObj (object_literal
                           [("field", VStr (fst kv)); ("error", member (snd kv) "error")]))
                      invalid in
      Normal (VObj (object_literal
        [("isValid", VBool isFormValid); ("fields", VObj results); ("errors", VArr errors)])))).

(** [s.replace(/c/g, text)] for a pattern of one code unit and a
    replacement text without [$]. *)
Fixpoint replace_all (c : ascii) (text : string) (s : string) : string :=
  match s with
  | EmptyString => EmptyString
  | String x r =>
      (if Ascii.eqb x c then text else String x EmptyString) +:+ replace_all c text r
  end.

Definition sanitizeInput (input : jsval) : jsval :=
  match input with
  | VStr s =>
      VStr (replace_all "/"%char "&#x2F;"
             (replace_all "'"%char "&#x27;"
               (replace_all dquote "&quot;"
                 (replace_all ">"%char "&gt;"
                   (replace_all "<"%char "&lt;" (trim s))))))
  | _ => input
  end.

End Validation.

(** * The login form

    [setupValidation] of the [LoginForm] component: the rules of its two
    fields. *)

Module LoginForm.

Definition validationRules : jsval :=
  VObj (object_literal
    [("username", VArr [VStr "required"; VStr "usernameOrEmail"]);
     ("password", VArr [VStr "required"; VStr "password"])]).

End LoginForm.

(** * Vocabulary of the statements *)

(** The completion and the final state of running [m] from [w]. *)
Definition result {A} (m : M A) (w : world) : completion A := fst (m w).
Definition after {A} (m : M A) (w : world) : world := snd (m w).

Fixpoint all_white_space (s : string) : bool :=
  match s with
  | EmptyString => true
  | String c r => is_white_space c && all_white_space r
  end.

Fixpoint contains (c : ascii) (s : string) : bool :=
  match s with
  | EmptyString => false
  | String x r => Ascii.eqb x c || contains c r
  end.

(** A freshly opened page: nothing stored, a medium that takes every write,
    a clock that starts at [t0] and advances by [rate] ms per reading. *)
Definition fresh_browser (t0 rate : Z) (path : string) : browser :=
  mkBrowser ∅ (fun _ _ => true) (fun n => t0 + rate * Z.of_nat n) 0 path "" [].

Definition fresh_world (t0 rate : Z) (path : string) : world :=
  mkWorld (fresh_browser t0 rate path) (mkAuth VNull None) (mkScript [] "all" VNull)
    (mkStorageManager true ∅ None).

Definition admin : Auth.user := Auth.mkUser "admin123" "admin" "password123" "admin@taskmanager.com" "admin".
Definition plain_user : Auth.user := Auth.mkUser "user456" "user" "user123" "user@taskmanager.com" "user".

(** Two strings that differ at most in the case of their letters. *)
Definition same_ignoring_case (a b : string) : Prop := toLowerCase a = toLowerCase b.

(** The token with the given header, payload and signature segments. *)
Definition token_of (header payload signature : string) : string :=
  header +:+ "." +:+ payload +:+ "." +:+ signature.

(** The state in which [authToken] holds [t], and the state with the token
    forgotten. *)
Definition with_token (t : option string) (w : world) : world :=
  set_auth (fun a => mkAuth (currentUser a) t) w.

(** The property [task.k] of an array element that is not [null]. *)
Definition prop (task : jsval) (k : string) : jsval :=
  match get_prop task k with
  | Normal v => v
  | Throw _ => VUndefined
  end.

(** A stored record belongs to somebody else than [owner]: its [userId] is
    set and is not [owner]. *)
Definition foreign (owner : string) (task : jsval) : bool :=
  truthy (prop task "userId") && negb (strict_eq (prop task "userId") (VStr owner)).

(** The record as [loadTasks] keeps it: its own properties, with [userId]
    set to [owner]. *)
Definition stamp (owner : string) (task : jsval) : obj :=
  obj_set "userId" (VStr owner) (spread task).

Definition not_nullish (v : jsval) : bool :=
  match v with
  | VUndefined | VNull => false
  | _ => true
  end.

(** The text stored for [JSON.stringify(v)]. *)
Definition stored_json (v : jsval) : string :=
  match serialize v with
  | Some text => text
  | None => "undefined"
  end.

(** The text [saveTasks] writes for a task list. *)
Definition tasks_json (l : list obj) : string := stored_json (VArr (map VObj l)).

(** The session object [login] builds for the administrator. *)
Definition admin_session : jsval :=
  VObj [("id", VStr "admin123"); ("username", VStr "admin");
        ("email", VStr "admin@taskmanager.com"); ("role", VStr "admin");
        ("isAuthenticated", VBool true); ("loginTime", VStr "2023-11-14T22:13:20.000Z")].


(** The task page with the administrator logged in, [items] in the store,
    [input] typed in the task field and [list] loaded. *)
Definition task_page (items : gmap string string) (input : string) (list : list obj) : world :=
  mkWorld
    (mkBrowser items (fun _ _ => true) (fun n => 1700000000000 + Z.of_nat n) 0
       "/index.html" input [])
    (mkAuth admin_session (Some "e30=.e30=.c2ln"))
    (mkScript list "all" admin_session)
    (mkStorageManager true ∅ None).

(** The same page after the session was dropped: script.js still holds the
    user object it read at start. *)
Definition logged_out_page (input : string) : world :=
  mkWorld
    (mkBrowser ∅ (fun _ _ => true) (fun n => 1700000000000 + Z.of_nat n) 0
       "/index.html" input [])
    (mkAuth VNull None)
    (mkScript [] "all" admin_session)
    (mkStorageManager true ∅ None).

(** The text [handleClearCompleted] announces after removing [n] records. *)
Definition cleared_message (n : nat) : string :=
  N_to_string (N.of_nat n) +:+ " completed task" +:+
  (if (n =? 1)%nat then "" else "s") +:+ " cleared".

(** Two loaded records, the second one completed. *)
Definition two_tasks : list obj :=
  [ [("id", VInt 1); ("text", VStr "mine"); ("completed", VBool false);
     ("userId", VStr "admin123")];
    [("id", VInt 2); ("text", VStr "legacy"); ("completed", VBool true);
     ("userId", VStr "admin123")] ].

(** The envelope of the storage adapter around [value], stamped [now]. *)
Definition envelope (value : jsval) (now : Z) : jsval :=
  VObj [("value", value); ("timestamp", VInt now); ("type", VStr (typeof value))].

(** A stored text is envelope shaped when it parses to an object with the
    three members of the envelope. *)
Definition envelope_shaped (text : string) : bool :=
  match JSON_parse text with
  | Some (VObj o) => has_own o "value" && has_own o "timestamp" && has_own o "type"
  | _ => false
  end.

Definition with_clock (f : nat -> Z) (w : world) : world :=
  set_browser (fun b => mkBrowser (ls_items b) (ls_accepts b) f (clock_reads b) (pathname b)
                          (taskInput_value b) (trace b)) w.

(** What [validateSession] decodes: the payload of a token. *)
Definition decode_payload (token : string) : option jsval :=
  match atob (nth 1 (split "."%char token) "") with
  | Some text => JSON_parse text
  | None => None
  end.

(** The login page after the administrator logged in, with a clock that
    advances 1 ms per reading. *)
Definition logged_in_page : world :=
  after (Auth.login "admin" "password123") (fresh_world 1700000000000 1 "/login.html").

(** Reading the entry [settings], stored as [text], through the adapter. *)
Definition read_settings (text : string) : completion jsval :=
  result (Storage.getItem "settings" (VStr "default"))
    (task_page {[ "settings" := jsq text ]} "" []).

(** The token of the administrator issued at 1700000000000 ms by a clock
    that advances 1 ms per reading. *)
Definition sample_token : string :=
  "eyJhbGciOiJIUzI1NiIsInR5cCI6IkpXVCJ9.eyJzdWIiOiJhZG1pbjEyMyIsInVzZXJuYW1lIjoiYWRtaW4iLCJlbWFpbCI6ImFkbWluQHRhc2ttYW5hZ2VyLmNvbSIsInJvbGUiOiJhZG1pbiIsImlhdCI6MTcwMDAwMDAwMDAwMCwiZXhwIjoxNzAwMDg2NDAwMDAxfQ==.bW9jay1zaWduYXR1cmUtYWRtaW4xMjM=".

(** The payload of the token of [u], issued at [iat] and expiring at [exp]. *)
Definition payload_of (u : Auth.user) (iat exp : Z) : jsval :=
  VObj [("sub", VStr (Auth.id u)); ("username", VStr (Auth.username u));
        ("email", VStr (Auth.email u)); ("role", VStr (Auth.role u));
        ("iat", VInt iat); ("exp", VInt exp)].

(** The JSON text of the payload up to the issue time, and the text between
    the issue time and the expiry. *)
Definition payload_prefix (u : Auth.user) : string :=
  "{" +:+ quote "sub" +:+ ":" +:+ quote (Auth.id u) +:+ "," +:+
  quote "username" +:+ ":" +:+ quote (Auth.username u) +:+ "," +:+
  quote "email" +:+ ":" +:+ quote (Auth.email u) +:+ "," +:+
  quote "role" +:+ ":" +:+ quote (Auth.role u) +:+ "," +:+ quote "iat" +:+ ":".

Definition exp_label : string := "," +:+ quote "exp" +:+ ":".

(** The header segment of every token. *)
Definition token_header : string := btoa (jsq "{'alg':'HS256','typ':'JWT'}").

(** The session lifetime, in milliseconds. *)
Definition session_lifetime : Z := 24 * 60 * 60 * 1000.

(** Whether two values of the model are the same data. *)
Fixpoint jsval_eqb (a b : jsval) : bool :=
  match a, b with
  | VUndefined, VUndefined => true
  | VNull, VNull => true
  | VBool x, VBool y => Bool.eqb x y
  | VNum m e, VNum m' e' => (m =? m') && (e =? e')
  | VStr x, VStr y => String.eqb x y
  | VArr l, VArr l' =>
      (fix all (l l' : list jsval) : bool :=
         match l, l' with
         | [], [] => true
         | x :: r, y :: r' => jsval_eqb x y && all r r'
         | _, _ => false
         end) l l'
  | VObj o, VObj o' =>
      (fix all (o o' : obj) : bool :=
         match o, o' with
         | [], [] => true
         | (k, x) :: r, (k', y) :: r' => String.eqb k k' && jsval_eqb x y && all r r'
         | _, _ => false
         end) o o'
  | _, _ => false
  end.

(** The values that [JSON.stringify] writes and [JSON.parse] reads back
    unchanged: no [undefined]; numbers that are integers written without
    exponent; objects whose properties stand in enumeration order, so that
    defining them one after the other gives the same object. *)
Fixpoint json_faithful (v : jsval) : bool :=
  match v with
  | VUndefined => false
  | VNull | VBool _ | VStr _ => true
  | VNum m e => (e =? 0) && (Z.abs m <? 10 ^ 21)
  | VArr l => forallb json_faithful l
  | VObj o =>
      forallb (fun kv => json_faithful (snd kv)) o
      && jsval_eqb (VObj (object_literal o)) (VObj o)
  end.

(** The time values of the platform: [Date.now()] gives an integer of at
    most 8.64e15 ms in magnitude. *)
Definition time_value (t : Z) : bool := Z.abs t <=? 8640000000000000.

(** The code units that follow a value inside an array or object. *)
Definition delimiter (c : ascii) : bool :=
  Ascii.eqb c ","%char || Ascii.eqb c "]"%char || Ascii.eqb c "}"%char.

(** The step of the automaton on [c] once the value [v] is complete. *)
Definition after_value (v : jsval) (stack : list frame) (c : ascii) : option pstate :=
  match complete v stack with
  | Some (stack', m) => step_after stack' m c
  | None => None
  end.

(** A stack on which a value may come next: not an object that waits for a
    member name. *)
Definition value_position (stack : list frame) : bool :=
  match stack with
  | FObj _ None :: _ => false
  | _ => true
  end.

(** The text of the elements of an array and of the members of an object,
    as [serialize] writes them between the brackets. *)
Fixpoint items_text (l : list jsval) : string :=
  match l with
  | [] => ""
  | x :: r =>
      let sx := match serialize x with Some t => t | None => "null" end in
      match r with
      | [] => sx
      | _ => sx +:+ "," +:+ items_text r
      end
  end.

Fixpoint members_text (first : bool) (o : obj) : string :=
  match o with
  | [] => ""
  | (k, x) :: r =>
      match serialize x with
      | Some t => (if first then "" else ",") +:+ quote k +:+ ":" +:+ t +:+ members_text false r
      | None => members_text first r
      end
  end.

(** The automaton reads [text] as the value [v] wherever a value may stand:
    it ends in a state that continues as after [v], and that gives [v] at
    the end of the text. *)
Definition reads_as (text : string) (v : jsval) : Prop :=
  forall stack first, value_position stack = true ->
  exists st, run text (stack, MValue first) = Some st
    /\ (forall c, delimiter c = true -> step st c = after_value v stack c)
    /\ (stack = [] -> finish st = Some v).

(** Defining the properties [kvs] one after the other on [o]. *)
Definition define_all (kvs : obj) (o : obj) : obj :=
  fold_left (fun o kv => obj_set (fst kv) (snd kv) o) kvs o.

(** The state with the task list replaced by [l]. *)
Definition with_tasks (l : list obj) (w : world) : world :=
  set_script (fun s => mkScript l (currentFilter s) (script_currentUser s)) w.

(** The state after [saveTasks] wrote the list [l]. *)
Definition saved_with (l : list obj) (w : world) : world :=
  after Script.saveTasks (with_tasks l w).

(** The state with other module variables of auth.js. *)
Definition with_auth (a : auth_vars) (w : world) : world := set_auth (fun _ => a) w.

(** The state with the text [v] typed in the task field. *)
Definition typed (v : string) (w : world) : world := set_browser (with_input v) w.

(** The texts that the handlers announce. *)
Definition deleted_message (text : string) : string :=
  "Task " +:+ String dquote (text +:+ String dquote " deleted").

Definition toggled_message (text : string) (done : bool) : string :=
  "Task " +:+ String dquote (text +:+ String dquote
    (" " +:+ (if done then "completed" else "marked as active"))).

Definition added_message (text : string) : string :=
  "Task " +:+ String dquote (text +:+ String dquote " added successfully").

(** The key under which the tasks of the user with id [B] are stored. *)
Definition tasks_key (B : string) : string := "tasks_" +:+ B.

(** The state after one more reading of the clock. *)
Definition tick (w : world) : world := set_browser with_tick w.

(** The entries of the store in which auth.js keeps the session. *)
Definition session_keys : list string :=
  [Auth.STORAGE_KEYS.AUTH_TOKEN; Auth.STORAGE_KEYS.USER_SESSION; Auth.STORAGE_KEYS.LOGIN_TIME].

Definition without_session (items : gmap string string) : gmap string string :=
  delete Auth.STORAGE_KEYS.LOGIN_TIME
    (delete Auth.STORAGE_KEYS.USER_SESSION (delete Auth.STORAGE_KEYS.AUTH_TOKEN items)).

(** What [logout] adds to the trace on a page with the given path. *)
Definition logout_events (path : string) : list event :=
  Announce "Successfully logged out" ::
  (if includes path "login.html" then [] else [Navigate "login.html"]).

(** The state [logout] leaves behind. *)
Definition logged_out (w : world) : world :=
  let b := w_browser w in
  mkWorld
    (mkBrowser (without_session (ls_items b)) (ls_accepts b) (clock b) (clock_reads b)
       (pathname b) (taskInput_value b) (trace b ++ logout_events (pathname b)))
    (mkAuth VNull None) (w_script w) (w_storage w).

(** The session object [login] builds for the directory entry [u] at the
    time [loginTime]. *)
Definition session_of (u : Auth.user) (loginTime : string) : jsval :=
  VObj [("id", VStr (Auth.id u)); ("username", VStr (Auth.username u));
        ("email", VStr (Auth.email u)); ("role", VStr (Auth.role u));
        ("isAuthenticated", VBool true); ("loginTime", VStr loginTime)].

(** The token [generateMockToken] issues for [u] at the readings [iat] and
    [now] of the clock. *)
Definition token_for (u : Auth.user) (iat now : Z) : string :=
  token_of token_header
    (btoa (stored_json (payload_of u iat (now + session_lifetime))))
    (btoa ("mock-signature-" +:+ Auth.id u)).

(** A page opened at [path] in the same browser: the store, the clock and
    the trace go on; the module variables of the scripts start afresh. *)
Definition open_page (path : string) (w : world) : world :=
  let b := w_browser w in
  mkWorld
    (mkBrowser (ls_items b) (ls_accepts b) (clock b) (clock_reads b) path "" (trace b))
    (mkAuth VNull None) (mkScript [] "all" VNull) (w_storage w).

(** What runs when the task page has loaded: auth.js constructs its
    [AuthManager], then script.js calls [init]. *)
Definition page_load : M unit :=
  Auth.initializeAuth ;;;
  Script.init.

(** The record [handleAddTask] creates. *)
Definition new_task (id : Z) (text createdAt : string) (userId : jsval) : obj :=
  [("id", VInt id); ("text", VStr text); ("completed", VBool false);
   ("createdAt", VStr createdAt); ("userId", userId)].

(** The state with a medium that takes no write any more. *)
Definition full_medium (w : world) : world :=
  set_browser (fun b => mkBrowser (ls_items b) (fun _ _ => false) (clock b) (clock_reads b)
                          (pathname b) (taskInput_value b) (trace b)) w.

(** A statement that neither reads nor writes the variables of auth.js: it
    runs alike whatever they hold, and leaves them as they are. *)
Definition session_blind {A} (m : M A) : Prop :=
  forall a w, m (with_auth a w) = (fst (m w), with_auth a (snd (m w))).

(** Every code unit of [s] is in the class [p]. *)
Fixpoint all_chars (p : ascii -> bool) (s : string) : bool :=
  match s with
  | EmptyString => true
  | String c r => p c && all_chars p r
  end.

(** The five code units that [sanitizeInput] rewrites. *)
Definition markup_char (c : ascii) : bool :=
  Ascii.eqb c "<"%char || Ascii.eqb c ">"%char || Ascii.eqb c dquote
  || Ascii.eqb c "'"%char || Ascii.eqb c "/"%char.

(** The five replacements of [sanitizeInput], in their order, on a text. *)
Definition escape_markup (s : string) : string :=
  Validation.replace_all "/"%char "&#x2F;"
    (Validation.replace_all "'"%char "&#x27;"
      (Validation.replace_all dquote "&quot;"
        (Validation.replace_all ">"%char "&gt;"
          (Validation.replace_all "<"%char "&lt;" s)))).

(** The object [{ isValid, errors, error }] that [validateField] returns
    for the list [errors]. *)
Definition field_verdict (errors : list jsval) : jsval :=
  VObj [("isValid", VBool (length errors =? 0)%nat);
        ("errors", VArr errors);
        ("error", match errors with
                  | error :: _ => if truthy error then error else VNull
                  | [] => VNull
                  end)].

(** The result for a field with at most one message. *)
Definition field_message (error : option string) : jsval :=
  field_verdict match error with
                | Some message => [VStr message]
                | None => []
                end.

(** The message of [validateUsername] and of [validateEmail] for a trimmed
    text that is not empty; [None] when the text passes. *)
Definition username_message (t : string) : option string :=
  let n := Z.of_nat (String.length t) in
  if n <? 2 then Some "Username must be at least 2 characters"
  else if 30 <? n then Some "Username cannot exceed 30 characters"
  else if all_chars Validation.username_char t then None
  else Some "Username can only contain letters, numbers, dots, dashes, and underscores".

Definition email_message (t : string) : option string :=
  if Validation.test Validation.VALIDATION_RULES.EMAIL.PATTERN t then None
  else Some "Please enter a valid email address".

(** The message of [validatePassword] for a text that is not empty. *)
Definition password_message (p : string) : option string :=
  let n := Z.of_nat (String.length p) in
  if n <? 6 then Some "Password must be at least 6 characters"
  else if 128 <? n then Some "Password cannot exceed 128 characters"
  else None.

(** The rules of the two fields of the login form. *)
Definition username_rules : jsval := prop LoginForm.validationRules "username".
Definition password_rules : jsval := prop LoginForm.validationRules "password".

(** The text that [sanitizeInput] makes of a text. *)
Definition sanitized (s : string) : string := escape_markup (trim s).

(** The data of a form whose fields hold texts, and rules given as lists
    of names. *)
Definition text_fields (data : list (string * string)) : obj :=
  map (fun kv => (fst kv, VStr (snd kv))) data.

Definition rule_lists (rules : list (string * list string)) : obj :=
  map (fun kv => (fst kv, VArr (map VStr (snd kv)))) rules.

(** The entry [{ field, error }] of the list of errors of [validateForm]. *)
Definition error_entry (field message : string) : jsval :=
  VObj (object_literal [("field", VStr field); ("error", VStr message)]).

(** The class of an atom of a pattern. *)
Definition class_of (a : Validation.atom) : ascii -> bool :=
  match a with Validation.One p | Validation.Many p => p end.

(** What [formData[fieldName]] is for a form of texts: the text, or
    [undefined] for a field that the form lacks. *)
Definition text_or_missing (v : jsval) : Prop := v = VUndefined \/ exists s, v = VStr s.

(** The field passed its rules. *)
Definition field_ok (kv : string * jsval) : bool := truthy (Validation.member (snd kv) "isValid").

(** ** The range of the model of JSON texts

    A number of the model is an exact decimal, where the platform rounds
    every numeral to a double, and a string of the model has code units up
    to U+00FF, where the escape [\uXXXX] denotes any code unit.  On the
    texts singled out here the two agree: the statements that range over
    arbitrary stored texts are made for these. *)








(** The path of the page is that of the login page, to which
    [redirectToLogin] does not navigate again. *)
Definition on_login_page (w : world) : bool := includes (pathname (w_browser w)) "login.html".

(** What [redirectToLogin] adds to the trace. *)
Definition redirect_events (w : world) : list event :=
  if on_login_page w then [] else [Navigate "login.html"].



(** * Properties *)

(** Closes a conjunction of closed equations by evaluation. *)
Ltac by_evaluation :=
  repeat match goal with |- _ /\ _ => split end; vm_compute; reflexivity.

(** Case analysis on the scrutinee of a match in the goal. *)
Ltac break_match :=
  match goal with
  | |- context [match ?x with _ => _ end] =>
      lazymatch x with
      | context [match _ with _ => _ end] => fail
      | _ => destruct x eqn:?
      end
  end.

(** Case analysis on every string comparison in the goal. *)
Ltac string_cases :=
  repeat match goal with
    | |- context [String.eqb ?a ?b] =>
        let E := fresh "E" in
        destruct (String.eqb_spec a b) as [E|E]
    end.

(** ** The platform model on sample inputs *)

Example Number_toString_ex :
  map (fun p => Number_toString (fst p) (snd p))
      [(0, 5); (1500, 0); (15, 2); (-15, -1); (1, 21); (12, 20); (1, -6); (1, -7); (123, -9); (5, 0)]
  = ["0"; "1500"; "1500"; "-1.5"; "1e+21"; "1.2e+21"; "0.000001"; "1e-7"; "1.23e-7"; "5"].
Proof. reflexivity. Qed.

Example to_string_ex :
  to_string (VArr [VInt 1; VNull; VArr [VStr "a"; VInt 2]; VObj []])
  = Normal "1,,a,2,[object Object]".
Proof. reflexivity. Qed.

Example spread_ex :
  obj_set "userId" (VStr "u") (spread (VStr "ab"))
  = [("0", VStr "a"); ("1", VStr "b"); ("userId", VStr "u")]
  /\ obj_set "1" VNull [("0", VNull); ("2", VNull); ("b", VNull)]
     = [("0", VNull); ("1", VNull); ("2", VNull); ("b", VNull)]
  /\ obj_set "01" VNull [("0", VNull); ("b", VNull)]
     = [("0", VNull); ("b", VNull); ("01", VNull)].
Proof. repeat split; reflexivity. Qed.

Example StringToNumber_ex :
  map StringToNumber [""; " 12 "; "0x1F"; "-.5e1"; "5."; "1 2"; "Infinity"; "-Infinity"; "+0b11"; "007"]
  = [Fin 0 0; Fin 12 0; Fin 31 0; Fin (-5) 0; Fin 5 0; NaN; PosInf; NegInf; NaN; Fin 7 0].
Proof. reflexivity. Qed.

Example JSON_stringify_ex :
  JSON_stringify (VObj [("a", VArr [VInt 1; VUndefined; VNull]); ("b", VUndefined);
                        ("c", VStr (jsq "x'y")); ("d", VBool true)])
  = VStr (String.append (jsq "{'a':[1,null,null],'c':'x") (String backslash (jsq "'y','d':true}"))).
Proof. reflexivity. Qed.

Example JSON_parse_ex :
  JSON_parse (jsq " {'b' : [1, -2.50e+3, true, null, 'xA\n'], '1': {}, 'b': 0, '0': []} ")
  = Some (VObj [("0", VArr []); ("1", VObj []); ("b", VInt 0)])
  /\ JSON_parse (jsq "[1, -2.50e+3, true, null, 'xA\ny']")
     = Some (VArr [VInt 1; VNum (-250) 1; VBool true; VNull;
                   VStr (String.append "xA" (String "010"%char "y"))])
  /\ map JSON_parse ["undefined"; ""; "01"; "1."; "[1,]"; "{,}"; "nul"; "1 2"; "-"; jsq "{'a':1,}"; jsq "'a"]
     = [None; None; None; None; None; None; None; None; None; None; None]
  /\ map JSON_parse ["null"; " 12 "; "-0"; "[]"; "{}"; jsq "''"; "1e2"]
     = [Some VNull; Some (VInt 12); Some (VNum 0 0); Some (VArr []); Some (VObj []);
        Some (VStr ""); Some (VNum 1 2)].
Proof. repeat split; reflexivity. Qed.

Example base64_ex :
  map btoa [""; "f"; "fo"; "foo"; "foob"; "fooba"; "foobar"]
  = [""; "Zg=="; "Zm8="; "Zm9v"; "Zm9vYg=="; "Zm9vYmE="; "Zm9vYmFy"]
  /\ map atob ["Zm9vYg=="; "Zm9vYg"; " Zm9v YmE= "; "Zm9vY"; "Zm9v=g=="; "Zg="; "Zh"; "===="; ""]
     = [Some "foob"; Some "foob"; Some "fooba"; None; None; None; Some "f"; None; Some ""].
Proof. split; reflexivity. Qed.

Example Date_toISOString_ex :
  map Date_toISOString [0; 1700000000000; 951782400000; -1; 253402300800000; -62198755200000 - 1]
  = ["1970-01-01T00:00:00.000Z"; "2023-11-14T22:13:20.000Z"; "2000-02-29T00:00:00.000Z";
     "1969-12-31T23:59:59.999Z"; "+010000-01-01T00:00:00.000Z"; "-000002-12-31T23:59:59.999Z"].
Proof. reflexivity. Qed.

(** ** Strings *)

Lemma append_cons c (a b : string) : String c a +:+ b = String c (a +:+ b).
Proof. reflexivity. Qed.

Lemma append_nil_l (b : string) : "" +:+ b = b.
Proof. reflexivity. Qed.

Lemma append_nil_r (a : string) : a +:+ "" = a.
Proof. induction a as [|c a IH]; [reflexivity|]. rewrite append_cons, IH. reflexivity. Qed.

Lemma append_assoc (a b c : string) : (a +:+ b) +:+ c = a +:+ (b +:+ c).
Proof.
  induction a as [|x a IH]; [reflexivity|].
  rewrite !append_cons, IH. reflexivity.
Qed.

Lemma length_append (a b : string) :
  String.length (a +:+ b) = (String.length a + String.length b)%nat.
Proof.
  induction a as [|x a IH]; [reflexivity|].
  rewrite append_cons. simpl. rewrite IH. reflexivity.
Qed.

Lemma toLowerCase_append (a b : string) :
  toLowerCase (a +:+ b) = toLowerCase a +:+ toLowerCase b.
Proof.
  induction a as [|x a IH]; [reflexivity|].
  rewrite append_cons. simpl. rewrite IH, append_cons. reflexivity.
Qed.

Lemma lower_char_white_space c : is_white_space c = true -> lower_char c = c.
Proof. destruct c as [[] [] [] [] [] [] [] []]; intros H; try reflexivity; discriminate H. Qed.

Lemma toLowerCase_white_space s : all_white_space s = true -> toLowerCase s = s.
Proof.
  induction s as [|c s IH]; [reflexivity|]. simpl.
  intros [Hc Hs]%andb_true_iff. rewrite (lower_char_white_space c Hc), (IH Hs). reflexivity.
Qed.

Lemma trimStart_white_space ws s :
  all_white_space ws = true -> trimStart (ws +:+ s) = trimStart s.
Proof.
  induction ws as [|c ws IH]; [reflexivity|]. simpl.
  intros [Hc Hs]%andb_true_iff. rewrite ?append_cons. simpl. rewrite Hc. auto.
Qed.

Lemma trimEnd_all_white_space ws : all_white_space ws = true -> trimEnd ws = "".
Proof.
  induction ws as [|c ws IH]; [reflexivity|]. simpl.
  intros [Hc Hs]%andb_true_iff. rewrite (IH Hs), Hc. reflexivity.
Qed.

Lemma trimEnd_white_space s ws :
  all_white_space ws = true -> trimEnd (s +:+ ws) = trimEnd s.
Proof.
  intros Hws. induction s as [|c s IH].
  - rewrite append_nil_l. apply trimEnd_all_white_space, Hws.
  - rewrite append_cons. simpl. rewrite IH. reflexivity.
Qed.

(** Surrounding white space is removed by [trim] when the text itself has
    none at either end. *)
Lemma trim_padded ws1 s ws2 :
  all_white_space ws1 = true -> all_white_space ws2 = true ->
  trimStart s = s -> trimEnd s = s ->
  trim (ws1 +:+ s +:+ ws2) = s.
Proof.
  intros H1 H2 Hs He. unfold trim.
  rewrite (trimStart_white_space ws1 _ H1).
  destruct s as [|c s].
  - rewrite append_nil_l.
    assert (Hz : trimStart ws2 = "").
    { clear -H2. induction ws2 as [|x r IH]; [reflexivity|]. simpl in *.
      apply andb_true_iff in H2 as [Hx Hr]. rewrite Hx. auto. }
    rewrite Hz. reflexivity.
  - simpl in Hs. rewrite append_cons. simpl.
    destruct (is_white_space c) eqn:Hc.
    + exfalso. clear -Hs. 
      assert (Hl : forall t, (String.length (trimStart t) <= String.length t)%nat).
      { induction t as [|x t IH]; simpl; [lia|]. destruct (is_white_space x); simpl; lia. }
      specialize (Hl s). rewrite Hs in Hl. simpl in Hl. lia.
    + rewrite <- append_cons. rewrite (trimEnd_white_space _ ws2 H2). exact He.
Qed.

Lemma is_white_space_lower c : is_white_space (lower_char c) = is_white_space c.
Proof. destruct c as [[] [] [] [] [] [] [] []]; reflexivity. Qed.

Lemma trimStart_toLowerCase s : trimStart (toLowerCase s) = toLowerCase (trimStart s).
Proof.
  induction s as [|c s IH]; [reflexivity|]. simpl.
  rewrite is_white_space_lower. destruct (is_white_space c); [exact IH | reflexivity].
Qed.

Lemma trimEnd_toLowerCase s : trimEnd (toLowerCase s) = toLowerCase (trimEnd s).
Proof.
  induction s as [|c s IH]; [reflexivity|]. simpl.
  rewrite IH, is_white_space_lower.
  destruct (trimEnd s); simpl; [destruct (is_white_space c)|]; reflexivity.
Qed.

Lemma trim_toLowerCase s : trim (toLowerCase s) = toLowerCase (trim s).
Proof. unfold trim. rewrite trimStart_toLowerCase, trimEnd_toLowerCase. reflexivity. Qed.

(** ** Decimal digits *)

Lemma digit_value_inv c d : digit_value c = Some d -> (d < 10)%N /\ c = digit_char d.
Proof.
  destruct c as [[] [] [] [] [] [] [] []]; intros H; try discriminate H;
    injection H as <-; split; reflexivity.
Qed.

Lemma digit_value_digit_char d : (d < 10)%N -> digit_value (digit_char d) = Some d.
Proof.
  intros H.
  assert (Hc : In d (map N.of_nat (seq 0 10))).
  { apply in_map_iff. exists (N.to_nat d). split; [lia|]. apply in_seq. lia. }
  simpl in Hc. repeat (destruct Hc as [<-|Hc]; [reflexivity|]). destruct Hc.
Qed.

Lemma N_digits_value fuel :
  forall n acc, (n < 2 ^ N.of_nat fuel)%N ->
  exists k, forall a, digits_value (N_digits fuel n acc) a = digits_value acc (a * k + n)%N.
Proof.
  induction fuel as [|f IH]; intros n acc Hn.
  - exists 1%N. intros a. simpl in *. f_equal. lia.
  - assert (Hr : (n mod 10 < 10)%N) by (apply N.mod_lt; discriminate).
    simpl N_digits. destruct (N.eqb_spec (n / 10) 0) as [Hq|Hq].
    + exists 10%N. intros a. simpl. rewrite (digit_value_digit_char _ Hr). f_equal.
      pose proof (N.div_mod n 10). lia.
    + destruct (IH (n / 10)%N (String (digit_char (n mod 10)) acc)) as [k Hk].
      { rewrite Nat2N.inj_succ, N.pow_succ_r' in Hn.
        apply N.Div0.div_lt_upper_bound. lia. }
      exists (k * 10)%N. intros a. rewrite Hk. simpl.
      rewrite (digit_value_digit_char _ Hr). f_equal.
      pose proof (N.div_mod n 10). lia.
Qed.

Lemma N_below_pow_log2 n : (n < 2 ^ N.of_nat (S (N.to_nat (N.log2 n))))%N.
Proof.
  rewrite Nat2N.inj_succ, N2Nat.id.
  destruct n as [|p]; [reflexivity|]. apply N.log2_spec. reflexivity.
Qed.

Lemma digits_value_N_to_string n : digits_value (N_to_string n) 0 = Some n.
Proof.
  unfold N_to_string.
  destruct (N_digits_value _ n EmptyString (N_below_pow_log2 n)) as [k Hk].
  rewrite Hk. reflexivity.
Qed.

Lemma N_digits_head fuel :
  forall n acc, n <> 0%N -> (n < 2 ^ N.of_nat fuel)%N ->
  exists c r d, N_digits fuel n acc = String c r /\ digit_value c = Some d /\ d <> 0%N.
Proof.
  induction fuel as [|f IH]; intros n acc Hn Hlt.
  - simpl in Hlt. lia.
  - assert (Hr : (n mod 10 < 10)%N) by (apply N.mod_lt; discriminate).
    simpl N_digits. destruct (N.eqb_spec (n / 10) 0) as [Hq|Hq].
    + exists (digit_char (n mod 10)), acc, (n mod 10)%N.
      split; [reflexivity|]. split; [apply digit_value_digit_char, Hr|].
      pose proof (N.div_mod n 10). lia.
    + apply IH; [exact Hq|].
      rewrite Nat2N.inj_succ, N.pow_succ_r' in Hlt.
      apply N.Div0.div_lt_upper_bound. lia.
Qed.

Lemma N_to_string_head n :
  n <> 0%N ->
  exists c r d, N_to_string n = String c r /\ digit_value c = Some d /\ d <> 0%N.
Proof. intros Hn. apply N_digits_head; [exact Hn | apply N_below_pow_log2]. Qed.

Lemma N_digits_length fuel :
  forall n acc k, (n < 10 ^ N.of_nat (S k))%N ->
  (String.length (N_digits fuel n acc) <= S k + String.length acc)%nat.
Proof.
  induction fuel as [|f IH]; intros n acc k Hn; simpl N_digits; [lia|].
  destruct (N.eqb_spec (n / 10) 0) as [Hq|Hq]; [simpl; lia|].
  destruct k as [|k].
  - exfalso. apply Hq. apply N.div_small. exact Hn.
  - specialize (IH (n / 10)%N (String (digit_char (n mod 10)) acc) k).
    simpl String.length in IH. 
    assert (Hlt : (n / 10 < 10 ^ N.of_nat (S k))%N).
    { apply N.Div0.div_lt_upper_bound. rewrite Nat2N.inj_succ, N.pow_succ_r' in Hn. lia. }
    specialize (IH Hlt). lia.
Qed.

Lemma strip_zeros_spec s : s = fst (strip_zeros s) +:+ zeros (snd (strip_zeros s)).
Proof.
  induction s as [|c s IH]; [reflexivity|]. simpl.
  destruct (strip_zeros s) as [[|x r] z]; simpl in *.
  - destruct (Ascii.eqb_spec c "0"%char) as [->|_]; simpl; rewrite IH; reflexivity.
  - rewrite IH at 1. reflexivity.
Qed.

Lemma length_zeros n : String.length (zeros n) = n.
Proof. induction n; simpl; auto. Qed.

Lemma Number_toString_nat t :
  0 <= t < 10 ^ 21 -> Number_toString t 0 = N_to_string (Z.to_N t).
Proof.
  intros [H0 H1]. unfold Number_toString.
  destruct (Z.eqb_spec t 0) as [->|Hne]; [reflexivity|].
  destruct (Z.ltb_spec t 0) as [Hneg|_]; [lia|].
  rewrite Z.abs_eq by exact H0.
  set (s := N_to_string (Z.to_N t)).
  pose proof (strip_zeros_spec s) as Hs.
  assert (Hlen : (String.length s <= 21)%nat).
  { subst s. unfold N_to_string.
    pose proof (N_digits_length (S (N.to_nat (N.log2 (Z.to_N t)))) (Z.to_N t) EmptyString 20) as Hl.
    simpl String.length in Hl. rewrite Nat.add_0_r in Hl. apply Hl.
    change (10 ^ N.of_nat 21)%N with (Z.to_N (10 ^ 21)). lia. }
  destruct (strip_zeros s) as [ds z]. simpl in Hs.
  rewrite Hs, length_append, length_zeros in Hlen.
  replace (Z.of_nat (String.length ds) + 0 + Z.of_nat z - Z.of_nat (String.length ds))
    with (Z.of_nat z) by lia.
  rewrite Nat2Z.id.
  destruct (Z.leb_spec (Z.of_nat (String.length ds)) (Z.of_nat (String.length ds) + 0 + Z.of_nat z));
    [|lia].
  destruct (Z.leb_spec (Z.of_nat (String.length ds) + 0 + Z.of_nat z) 21); [|lia].
  simpl. symmetry. exact Hs.
Qed.

(** ** The JSON automaton on numbers *)

Lemma run_append a b st :
  run (a +:+ b) st = match run a st with Some st' => run b st' | None => None end.
Proof.
  revert st. induction a as [|c a IH]; intros st; [reflexivity|].
  rewrite append_cons. simpl. destruct (step st c); [apply IH | reflexivity].
Qed.

Lemma run_int_digits stack ds : forall m m',
  digits_value ds m = Some m' ->
  run ds (stack, MNumber NInt (num0 false (Z.of_N m)))
  = Some (stack, MNumber NInt (num0 false (Z.of_N m'))).
Proof.
  induction ds as [|c ds IH]; intros m m' H; simpl in H.
  - injection H as <-. reflexivity.
  - destruct (digit_value c) as [d|] eqn:Hd; [|discriminate].
    simpl. unfold step_number. rewrite Hd. cbn [num0 n_neg n_mant n_frac n_eneg n_exp].
    replace (Z.of_N m * 10 + Z.of_N d) with (Z.of_N (m * 10 + d)) by lia.
    apply (IH _ _ H).
Qed.

Lemma step_value_digit stack d :
  (d < 10)%N -> d <> 0%N ->
  step_value false stack (digit_char d) = Some (stack, MNumber NInt (num0 false (Z.of_N d))).
Proof.
  intros H Hne.
  assert (Hc : In d (map N.of_nat (seq 0 10))).
  { apply in_map_iff. exists (N.to_nat d). split; [lia|]. apply in_seq. lia. }
  simpl in Hc. destruct Hc as [<-|Hc]; [contradiction|].
  repeat (destruct Hc as [<-|Hc]; [reflexivity|]). destruct Hc.
Qed.

(** Reading the digits of [n] where a value is expected. *)
Lemma run_N_to_string stack n :
  run (N_to_string n) (stack, MValue false)
  = Some (stack, MNumber (if (n =? 0)%N then NZero else NInt) (num0 false (Z.of_N n))).
Proof.
  destruct (N.eqb_spec n 0) as [->|Hn]; [reflexivity|].
  destruct (N_to_string_head n Hn) as (c & r & d & Hs & Hd & Hd0).
  pose proof (digits_value_N_to_string n) as Hv. rewrite Hs in *.
  simpl in Hv. rewrite Hd in Hv. simpl in Hv.
  apply digit_value_inv in Hd as [Hlt ->].
  cbn [run step]. rewrite (step_value_digit stack d Hlt Hd0).
  apply run_int_digits, Hv.
Qed.

(** ** Base64 *)

Lemma below_64 v : (v < 64)%N -> In v (map N.of_nat (seq 0 64)).
Proof.
  intros H. apply in_map_iff. exists (N.to_nat v). split; [lia|]. apply in_seq. lia.
Qed.

Lemma b64_char_facts v :
  (v < 64)%N ->
  b64_value (b64_char v) = Some v /\ ascii_ws (b64_char v) = false
  /\ Ascii.eqb (b64_char v) "="%char = false /\ Ascii.eqb (b64_char v) "."%char = false.
Proof.
  intros H. apply below_64 in H. simpl in H.
  repeat (destruct H as [<-|H]; [repeat split; reflexivity|]). destruct H.
Qed.

(** The six-bit groups that [btoa] forms from three bytes. *)
Lemma sextet_bounds a b c :
  let x := N_of_ascii a in
  let y := N_of_ascii b in
  let z := N_of_ascii c in
  (x / 4 < 64 /\ x mod 4 * 16 < 64 /\ x mod 4 * 16 + y / 16 < 64
   /\ y mod 16 * 4 < 64 /\ y mod 16 * 4 + z / 64 < 64 /\ z mod 64 < 64)%N.
Proof.
  intros x y z.
  pose proof (N_ascii_bounded a). pose proof (N_ascii_bounded b). pose proof (N_ascii_bounded c).
  assert (x / 4 < 64)%N by (apply N.Div0.div_lt_upper_bound; subst x; lia).
  assert (y / 16 < 16)%N by (apply N.Div0.div_lt_upper_bound; subst y; lia).
  assert (z / 64 < 4)%N by (apply N.Div0.div_lt_upper_bound; subst z; lia).
  pose proof (N.mod_lt x 4). pose proof (N.mod_lt y 16). pose proof (N.mod_lt z 64).
  lia.
Qed.

Lemma div_mod_small q m r :
  (r < m)%N -> ((q * m + r) / m = q /\ (q * m + r) mod m = r)%N.
Proof.
  intros H. split.
  - symmetry. apply (N.div_unique _ _ _ r); [exact H | lia].
  - symmetry. apply (N.mod_unique _ _ q); [exact H | lia].
Qed.

Lemma sextet_decode a b c :
  let x := N_of_ascii a in
  let y := N_of_ascii b in
  let z := N_of_ascii c in
  ascii_of_N (x / 4 * 4 + (x mod 4 * 16 + y / 16) / 16) = a
  /\ ascii_of_N ((x mod 4 * 16 + y / 16) mod 16 * 16 + (y mod 16 * 4 + z / 64) / 4) = b
  /\ ascii_of_N ((y mod 16 * 4 + z / 64) mod 4 * 64 + z mod 64) = c
  /\ ascii_of_N (x / 4 * 4 + (x mod 4 * 16) / 16) = a
  /\ ascii_of_N ((x mod 4 * 16 + y / 16) mod 16 * 16 + (y mod 16 * 4) / 4) = b.
Proof.
  intros x y z.
  pose proof (N_ascii_bounded b : (y < 256)%N) as Hy.
  pose proof (N_ascii_bounded c : (z < 256)%N) as Hz.
  assert (Hy16 : (y / 16 < 16)%N) by (apply N.Div0.div_lt_upper_bound; lia).
  assert (Hz64 : (z / 64 < 4)%N) by (apply N.Div0.div_lt_upper_bound; lia).
  destruct (div_mod_small (x mod 4) 16 (y / 16) Hy16) as [D1 M1].
  destruct (div_mod_small (y mod 16) 4 (z / 64) Hz64) as [D2 M2].
  destruct (div_mod_small (x mod 4) 16 0) as [D3 _]; [lia|].
  destruct (div_mod_small (y mod 16) 4 0) as [D4 _]; [lia|].
  rewrite N.add_0_r in D3, D4.
  rewrite D1, M1, D2, M2, D3, D4.
  pose proof (N.div_mod x 4). pose proof (N.div_mod y 16). pose proof (N.div_mod z 64).
  replace (x / 4 * 4 + x mod 4)%N with x by lia.
  replace (y / 16 * 16 + y mod 16)%N with y by lia.
  replace (z / 64 * 64 + z mod 64)%N with z by lia.
  subst x y z. rewrite !ascii_N_embedding. auto.
Qed.

Lemma string_three_ind (P : string -> Prop) :
  P EmptyString ->
  (forall a, P (String a EmptyString)) ->
  (forall a b, P (String a (String b EmptyString))) ->
  (forall a b c r, P r -> P (String a (String b (String c r)))) ->
  forall s, P s.
Proof.
  intros H0 H1 H2 H3 s.
  assert (H : P s /\ (forall a, P (String a s)) /\ (forall a b, P (String a (String b s)))).
  { induction s as [|c s (IHs & IH1 & IH2)]; [auto|]. auto. }
  apply H.
Qed.

Lemma bound_hi a : (N_of_ascii a / 4 < 64)%N.
Proof. apply (sextet_bounds a a a). Qed.
Lemma bound_lo_pad a : (N_of_ascii a mod 4 * 16 < 64)%N.
Proof. apply (sextet_bounds a a a). Qed.
Lemma bound_lo_hi a b : (N_of_ascii a mod 4 * 16 + N_of_ascii b / 16 < 64)%N.
Proof. apply (sextet_bounds a b b). Qed.
Lemma bound_mid_pad b : (N_of_ascii b mod 16 * 4 < 64)%N.
Proof. apply (sextet_bounds b b b). Qed.
Lemma bound_mid_hi b c : (N_of_ascii b mod 16 * 4 + N_of_ascii c / 64 < 64)%N.
Proof. apply (sextet_bounds b b c). Qed.
Lemma bound_last c : (N_of_ascii c mod 64 < 64)%N.
Proof. apply (sextet_bounds c c c). Qed.

Create HintDb sextet.
#[local] Hint Resolve bound_hi bound_lo_pad bound_lo_hi bound_mid_pad bound_mid_hi bound_last
  : sextet.

Lemma b64_value_char v : (v < 64)%N -> b64_value (b64_char v) = Some v.
Proof. intros H. apply (b64_char_facts v H). Qed.
Lemma b64_char_not_ws v : (v < 64)%N -> ascii_ws (b64_char v) = false.
Proof. intros H. apply (b64_char_facts v H). Qed.
Lemma b64_char_not_pad v : (v < 64)%N -> Ascii.eqb (b64_char v) "="%char = false.
Proof. intros H. apply (b64_char_facts v H). Qed.
Lemma b64_char_not_dot v : (v < 64)%N -> Ascii.eqb (b64_char v) "."%char = false.
Proof. intros H. apply (b64_char_facts v H). Qed.

Lemma remove_ws_btoa s : remove_ws (btoa s) = btoa s.
Proof.
  induction s as [|a|a b|a b c r IH] using string_three_ind; [reflexivity| | |];
    cbn [btoa remove_ws]; rewrite !b64_char_not_ws by auto with sextet;
    rewrite ?IH; reflexivity.
Qed.

Lemma btoa_no_dot s : contains "."%char (btoa s) = false.
Proof.
  induction s as [|a|a b|a b c r IH] using string_three_ind; [reflexivity| | |];
    cbn [btoa contains]; rewrite !b64_char_not_dot by auto with sextet;
    rewrite ?IH; reflexivity.
Qed.

Lemma btoa_length s : (String.length (btoa s) mod 4 = 0)%nat.
Proof.
  induction s as [|a|a b|a b c r IH] using string_three_ind; try reflexivity.
  cbn [btoa String.length].
  change (S (S (S (S (String.length (btoa r))))))
    with (4 + String.length (btoa r))%nat.
  rewrite Nat.add_comm. change 4%nat with (1 * 4)%nat at 1.
  rewrite Nat.Div0.mod_add. exact IH.
Qed.

Lemma btoa_length_nonempty s : s <> "" -> (4 <= String.length (btoa s))%nat.
Proof.
  destruct s as [|a [|b [|c r]]]; [contradiction| | |]; intros _; cbn [btoa String.length]; lia.
Qed.

Lemma strip_padding_cons c s :
  (2 <= String.length s)%nat -> strip_padding (String c s) = String c (strip_padding s).
Proof.
  destruct s as [|x [|y r]]; simpl String.length; intros H; try lia. reflexivity.
Qed.

Lemma btoa_one a :
  btoa (String a "") =
  String (b64_char (N_of_ascii a / 4)) (String (b64_char (N_of_ascii a mod 4 * 16)) "==").
Proof. reflexivity. Qed.

Lemma btoa_two a b :
  btoa (String a (String b "")) =
  String (b64_char (N_of_ascii a / 4))
    (String (b64_char (N_of_ascii a mod 4 * 16 + N_of_ascii b / 16))
       (String (b64_char (N_of_ascii b mod 16 * 4)) "=")).
Proof. reflexivity. Qed.

Lemma btoa_three a b c r :
  btoa (String a (String b (String c r))) =
  String (b64_char (N_of_ascii a / 4))
    (String (b64_char (N_of_ascii a mod 4 * 16 + N_of_ascii b / 16))
       (String (b64_char (N_of_ascii b mod 16 * 4 + N_of_ascii c / 64))
          (String (b64_char (N_of_ascii c mod 64)) (btoa r)))).
Proof. reflexivity. Qed.

Lemma strip_padding_two c1 c2 :
  strip_padding (String c1 (String c2 "==")) = String c1 (String c2 "").
Proof. reflexivity. Qed.

Lemma strip_padding_one c1 c2 c3 :
  Ascii.eqb c3 "="%char = false ->
  strip_padding (String c1 (String c2 (String c3 "="))) = String c1 (String c2 (String c3 "")).
Proof. intros H. simpl. rewrite H. reflexivity. Qed.

Lemma strip_padding_none c1 c2 c3 c4 :
  Ascii.eqb c4 "="%char = false ->
  strip_padding (String c1 (String c2 (String c3 (String c4 ""))))
  = String c1 (String c2 (String c3 (String c4 ""))).
Proof. intros H. simpl. rewrite H. reflexivity. Qed.

Lemma length_plus_four_mod n : ((4 + n) mod 4 = n mod 4)%nat.
Proof.
  rewrite Nat.add_comm. change 4%nat with (1 * 4)%nat at 1. apply Nat.Div0.mod_add.
Qed.

(** Decoding what [btoa] produced, after the padding is removed. *)
Lemma decode_stripped_btoa s :
  (String.length (strip_padding (btoa s)) mod 4 <> 1)%nat
  /\ exists l, sextets (strip_padding (btoa s)) = Some l /\ decode_sextets l = s.
Proof.
  induction s as [|a|a b|a b c r (IHlen & l & IHl & IHd)] using string_three_ind.
  - split; [discriminate|]. exists []. split; reflexivity.
  - destruct (sextet_decode a a a) as (_ & _ & _ & E & _). cbv zeta in E.
    rewrite btoa_one, strip_padding_two.
    split; [discriminate|]. cbn [sextets]. rewrite !b64_value_char by auto with sextet.
    eexists. split; [reflexivity|]. cbn [decode_sextets]. rewrite E. reflexivity.
  - destruct (sextet_decode a b b) as (E1 & _ & _ & _ & E2). cbv zeta in E1, E2.
    rewrite btoa_two, strip_padding_one by (apply b64_char_not_pad; auto with sextet).
    split; [discriminate|]. cbn [sextets]. rewrite !b64_value_char by auto with sextet.
    eexists. split; [reflexivity|]. cbn [decode_sextets]. rewrite E1, E2. reflexivity.
  - destruct (sextet_decode a b c) as (E1 & E2 & E3 & _). cbv zeta in E1, E2, E3.
    rewrite btoa_three.
    destruct (string_dec r "") as [->|Hr].
    + change (btoa "") with "".
      rewrite strip_padding_none by (apply b64_char_not_pad; auto with sextet).
      split; [discriminate|]. cbn [sextets]. rewrite !b64_value_char by auto with sextet.
      eexists. split; [reflexivity|]. cbn [decode_sextets]. rewrite E1, E2, E3. reflexivity.
    + pose proof (btoa_length_nonempty r Hr) as Hlen.
      rewrite !strip_padding_cons by (cbn [String.length]; lia).
      cbn [sextets String.length]. rewrite !b64_value_char by auto with sextet.
      rewrite IHl. split.
      * change (S (S (S (S (String.length (strip_padding (btoa r)))))))
          with (4 + String.length (strip_padding (btoa r)))%nat.
        rewrite length_plus_four_mod. exact IHlen.
      * eexists. split; [reflexivity|].
        cbn [decode_sextets]. rewrite E1, E2, E3, IHd. reflexivity.
Qed.

(** [atob] undoes [btoa]. *)
Lemma atob_btoa s : atob (btoa s) = Some s.
Proof.
  unfold atob. rewrite remove_ws_btoa, btoa_length. cbn [Nat.eqb].
  destruct (decode_stripped_btoa s) as (Hlen & l & Hl & Hd).
  destruct (Nat.eqb_spec (String.length (strip_padding (btoa s)) mod 4) 1) as [E|_];
    [contradiction|].
  rewrite Hl, Hd. reflexivity.
Qed.
(** ** Own properties *)

Lemma obj_get_replace k v o : has_own o k = true -> obj_get (obj_replace k v o) k = v.
Proof.
  induction o as [|[k' v'] o IH]; simpl; [discriminate|].
  destruct (String.eqb_spec k' k) as [->|Hne]; simpl.
  - intros _. rewrite String.eqb_refl. reflexivity.
  - intros H. destruct (String.eqb_spec k' k); [contradiction|]. auto.
Qed.

Lemma obj_get_insert_index i k v o :
  has_own o k = false -> obj_get (obj_insert_index i k v o) k = v.
Proof.
  induction o as [|[k' v'] o IH]; simpl.
  - intros _. rewrite String.eqb_refl. reflexivity.
  - destruct (String.eqb_spec k' k) as [->|Hne]; simpl; [discriminate|]. intros H.
    destruct (array_index k') as [j|]; [destruct (j <? i)%N|]; simpl;
      rewrite ?String.eqb_refl; try reflexivity.
    destruct (String.eqb_spec k' k); [contradiction|]. auto.
Qed.

Lemma obj_get_append k v o : has_own o k = false -> obj_get (o ++ [(k, v)]) k = v.
Proof.
  induction o as [|[k' v'] o IH]; simpl.
  - intros _. rewrite String.eqb_refl. reflexivity.
  - destruct (String.eqb_spec k' k) as [->|Hne]; simpl; [discriminate|]. auto.
Qed.

Lemma obj_get_set k v o : obj_get (obj_set k v o) k = v.
Proof.
  unfold obj_set. destruct (has_own o k) eqn:H.
  - apply obj_get_replace, H.
  - destruct (array_index k); [apply obj_get_insert_index | apply obj_get_append]; exact H.
Qed.

Lemma strict_eq_string v s : strict_eq v (VStr s) = true -> v = VStr s.
Proof.
  destruct v; simpl; try discriminate. intros H. apply String.eqb_eq in H. congruence.
Qed.

Lemma get_prop_not_nullish v k : not_nullish v = true -> get_prop v k = Normal (prop v k).
Proof.
  unfold prop. destruct v; simpl; try discriminate; intros _; try reflexivity;
    repeat (break_match; try reflexivity).
Qed.

Lemma to_string_stored_json v : to_string (JSON_stringify v) = Normal (stored_json v).
Proof. unfold JSON_stringify, stored_json. destruct (serialize v); reflexivity. Qed.

(** ** Credential lookup *)

Lemma findUser_unfold i p :
  Auth.findUser i p =
  let n := trim (toLowerCase i) in
  if (String.eqb "admin" n || String.eqb "admin@taskmanager.com" n) && String.eqb "password123" p
  then Some admin
  else if (String.eqb "user" n || String.eqb "user@taskmanager.com" n) && String.eqb "user123" p
  then Some plain_user
  else None.
Proof. reflexivity. Qed.

Lemma findUser_stored_credentials u :
  In u Auth.MOCK_USERS -> Auth.findUser (Auth.username u) (Auth.password u) = Some u.
Proof. intros [<-|[<-|[]]]; reflexivity. Qed.

(** [C2], amended: the lookup returns a directory entry exactly when the
    input, trimmed of surrounding white space, equals its username or its
    email up to the case of letters and the password is equal to the stored
    one; with the username as input, the stored password finds the entry and
    every other password finds nothing. *)
Theorem findUser_exactly (u : Auth.user) (i p : string) :
  In u Auth.MOCK_USERS ->
  (Auth.findUser i p = Some u <->
     (same_ignoring_case (trim i) (Auth.username u) \/
      same_ignoring_case (trim i) (Auth.email u)) /\ p = Auth.password u)
  /\ Auth.findUser (Auth.username u) (Auth.password u) = Some u
  /\ (forall wrong, wrong <> Auth.password u -> Auth.findUser (Auth.username u) wrong = None).
Proof.
  intros Hu. unfold same_ignoring_case. rewrite <- trim_toLowerCase.
  split; [|split].
  - rewrite findUser_unfold. cbv zeta. generalize (trim (toLowerCase i)) as n. intros n.
    destruct Hu as [<-|[<-|[]]]; cbn [Auth.username Auth.email Auth.password].
    + change (toLowerCase "admin") with "admin".
      change (toLowerCase "admin@taskmanager.com") with "admin@taskmanager.com".
      fold admin. string_cases; cbn [orb andb]; subst;
        (split; [intros H; first [discriminate H | split; [auto|reflexivity] | exfalso; congruence]
                |intros [[H|H] Hp]; first [reflexivity | congruence]]).
    + change (toLowerCase "user") with "user".
      change (toLowerCase "user@taskmanager.com") with "user@taskmanager.com".
      fold plain_user. string_cases; cbn [orb andb]; subst;
        (split; [intros H; first [discriminate H | split; [auto|reflexivity] | exfalso; congruence]
                |intros [[H|H] Hp]; first [reflexivity | congruence]]).
  - apply findUser_stored_credentials, Hu.
  - intros wrong Hw. rewrite findUser_unfold.
    destruct Hu as [<-|[<-|[]]]; cbn [Auth.username Auth.email Auth.password] in *.
    + change (trim (toLowerCase "admin")) with "admin". cbv zeta.
      string_cases; cbn [orb andb]; congruence.
    + change (trim (toLowerCase "user")) with "user". cbv zeta.
      string_cases; cbn [orb andb]; congruence.
Qed.

Lemma findUser_exactly_witness :
  In admin Auth.MOCK_USERS /\ Auth.findUser "Admin@TaskManager.com " "password123" = Some admin.
Proof.
  split; [left; reflexivity|].
  pose proof (findUser_exactly admin "Admin@TaskManager.com " "password123"
                (or_introl eq_refl)) as [H _].
  apply H. split; [right|]; reflexivity.
Defined.

(** [C2] as stated fails: with white space around the username the lookup
    finds the entry, although the input as typed is not equal to the username
    or to the email up to case. *)
Lemma findUser_not_exactly_case_insensitive :
  Auth.findUser " admin " "password123" = Some admin
  /\ ~ ((same_ignoring_case " admin " (Auth.username admin) \/
         same_ignoring_case " admin " (Auth.email admin)) /\ "password123" = Auth.password admin).
Proof.
  split; [reflexivity|]. intros [[H|H] _]; discriminate H.
Qed.

Lemma padded_neq ws1 s ws2 : ws1 +:+ ws2 <> "" -> ws1 +:+ s +:+ ws2 <> s.
Proof.
  intros Hne Heq. apply (f_equal String.length) in Heq.
  rewrite !length_append in Heq.
  destruct ws1; [|simpl in Heq; lia]. destruct ws2; [|simpl in Heq; lia]. apply Hne. reflexivity.
Qed.

Lemma normalized_padded ws1 s ws2 :
  all_white_space ws1 = true -> all_white_space ws2 = true ->
  trimStart (toLowerCase s) = toLowerCase s -> trimEnd (toLowerCase s) = toLowerCase s ->
  trim (toLowerCase (ws1 +:+ s +:+ ws2)) = toLowerCase s.
Proof.
  intros H1 H2 Hs He.
  rewrite !toLowerCase_append, (toLowerCase_white_space ws1 H1), (toLowerCase_white_space ws2 H2).
  apply trim_padded; assumption.
Qed.

(** [C10]: white space around the username or the email of a directory entry
    is ignored by the lookup, and white space around the password is not. *)
Theorem findUser_trims_input_only (u : Auth.user) (ws1 ws2 : string) :
  In u Auth.MOCK_USERS ->
  all_white_space ws1 = true -> all_white_space ws2 = true ->
  Auth.findUser (ws1 +:+ Auth.username u +:+ ws2) (Auth.password u) = Some u
  /\ Auth.findUser (ws1 +:+ Auth.email u +:+ ws2) (Auth.password u) = Some u
  /\ (ws1 +:+ ws2 <> "" ->
      Auth.findUser (Auth.username u) (ws1 +:+ Auth.password u +:+ ws2) = None
      /\ Auth.findUser (Auth.email u) (ws1 +:+ Auth.password u +:+ ws2) = None).
Proof.
  intros Hu H1 H2.
  assert (Hn : forall s, trimStart (toLowerCase s) = toLowerCase s ->
                         trimEnd (toLowerCase s) = toLowerCase s ->
                         trim (toLowerCase (ws1 +:+ s +:+ ws2)) = toLowerCase s)
    by (intros; apply normalized_padded; assumption).
  destruct Hu as [<-|[<-|[]]]; cbn [Auth.username Auth.email Auth.password].
  - split; [|split].
    + rewrite findUser_unfold, (Hn "admin"); reflexivity.
    + rewrite findUser_unfold, (Hn "admin@taskmanager.com"); reflexivity.
    + intros Hne. pose proof (padded_neq ws1 "password123" ws2 Hne) as Hp.
      split; rewrite findUser_unfold; cbv zeta.
      * change (trim (toLowerCase "admin")) with "admin".
        string_cases; cbn [orb andb]; congruence.
      * change (trim (toLowerCase "admin@taskmanager.com")) with "admin@taskmanager.com".
        string_cases; cbn [orb andb]; congruence.
  - split; [|split].
    + rewrite findUser_unfold, (Hn "user"); reflexivity.
    + rewrite findUser_unfold, (Hn "user@taskmanager.com"); reflexivity.
    + intros Hne. pose proof (padded_neq ws1 "user123" ws2 Hne) as Hp.
      split; rewrite findUser_unfold; cbv zeta.
      * change (trim (toLowerCase "user")) with "user".
        string_cases; cbn [orb andb]; congruence.
      * change (trim (toLowerCase "user@taskmanager.com")) with "user@taskmanager.com".
        string_cases; cbn [orb andb]; congruence.
Qed.

Lemma findUser_trims_input_only_witness :
  Auth.findUser (String "009"%char " " +:+ "user" +:+ "  ") "user123" = Some plain_user
  /\ Auth.findUser "user" (" " +:+ "user123" +:+ "") = None.
Proof.
  pose proof (findUser_trims_input_only plain_user (String "009"%char " ") "  "
                (or_intror (or_introl eq_refl)) eq_refl eq_refl) as [H _].
  pose proof (findUser_trims_input_only plain_user " " ""
                (or_intror (or_introl eq_refl)) eq_refl eq_refl) as [_ [_ H']].
  split; [exact H|]. apply H'. discriminate.
Defined.

(** ** Login *)

(** [C3]: when a field is empty or no directory entry matches, [login]
    returns [{success: false, error: message}] and leaves the whole state as
    it was: no session, no token, nothing written to the store; so a caller
    that was not authenticated is not authenticated afterwards. *)
Theorem login_failure_changes_nothing (w : world) (i p : string) :
  i = "" \/ p = "" \/ Auth.findUser i p = None ->
  exists msg,
    Auth.login i p w = (Normal (VObj [("success", VBool false); ("error", VStr msg)]), w)
    /\ (msg = "Username and password are required" \/ msg = "Invalid username or password")
    /\ (result Auth.isAuthenticated w = Normal false ->
        result Auth.isAuthenticated (after (Auth.login i p) w) = Normal false).
Proof.
  intros H.
  assert (Hrun : exists msg,
    Auth.login i p w = (Normal (VObj [("success", VBool false); ("error", VStr msg)]), w)
    /\ (msg = "Username and password are required" \/ msg = "Invalid username or password")).
  { unfold Auth.login, try_catch, bind, throw, ret, Auth.simulateDelay. cbn [truthy].
    destruct (String.eqb_spec i "") as [Hi|Hi]; cbn [negb orb].
    { exists "Username and password are required". split; [reflexivity | left; reflexivity]. }
    destruct (String.eqb_spec p "") as [Hp|Hp]; cbn [negb orb].
    { exists "Username and password are required". split; [reflexivity | left; reflexivity]. }
    destruct H as [H|[H|H]]; [contradiction|contradiction|]. rewrite H.
    exists "Invalid username or password". split; [reflexivity | right; reflexivity]. }
  destruct Hrun as (msg & Hrun & Hmsg). exists msg. split; [exact Hrun|]. split; [exact Hmsg|].
  unfold after. rewrite Hrun. intros Hauth. exact Hauth.
Qed.

Lemma login_failure_changes_nothing_witness :
  exists msg,
    Auth.login "admin" "wrong" (fresh_world 1700000000000 1 "/login.html")
    = (Normal (VObj [("success", VBool false); ("error", VStr msg)]),
       fresh_world 1700000000000 1 "/login.html").
Proof.
  destruct (login_failure_changes_nothing (fresh_world 1700000000000 1 "/login.html")
              "admin" "wrong" (or_intror (or_intror eq_refl))) as (msg & H & _).
  exists msg. exact H.
Defined.

(** ** Session validation *)

Lemma split_no_separator c s : contains c s = false -> split c s = [s].
Proof.
  induction s as [|x s IH]; [reflexivity|]. simpl.
  intros [Hx Hs]%orb_false_iff. rewrite Hx, (IH Hs). reflexivity.
Qed.

Lemma split_segment c a b :
  contains c a = false -> split c (a +:+ String c b) = a :: split c b.
Proof.
  induction a as [|x a IH]; intros H.
  - rewrite append_nil_l. simpl. rewrite Ascii.eqb_refl. reflexivity.
  - simpl in H. apply orb_false_iff in H as [Hx Ha].
    rewrite append_cons. simpl. rewrite Hx, (IH Ha). reflexivity.
Qed.

Lemma split_token h p s :
  contains "."%char h = false -> contains "."%char p = false -> contains "."%char s = false ->
  split "."%char (token_of h p s) = [h; p; s].
Proof.
  intros Hh Hp Hs. unfold token_of.
  change ("." +:+ p +:+ "." +:+ s) with (String "."%char (p +:+ String "."%char s)).
  rewrite (split_segment _ _ _ Hh), (split_segment _ _ _ Hp), (split_no_separator _ _ Hs).
  reflexivity.
Qed.

Lemma token_of_truthy h p s : truthy (VStr (token_of h p s)) = true.
Proof.
  unfold token_of, truthy. destruct h; reflexivity.
Qed.

(** [C4]: two tokens with the same header and payload segments and any two
    signature segments are decoded alike and validate alike: the same
    payload segment is decoded, [validateSession] returns the same answer,
    and the two final states differ at most in the token they still hold. *)
Theorem validateSession_ignores_signature (w : world) (h p s s' : string) :
  contains "."%char h = false -> contains "."%char p = false ->
  contains "."%char s = false -> contains "."%char s' = false ->
  decode_payload (token_of h p s) = decode_payload (token_of h p s')
  /\ result Auth.validateSession (with_token (Some (token_of h p s)) w)
     = result Auth.validateSession (with_token (Some (token_of h p s')) w)
  /\ with_token None (after Auth.validateSession (with_token (Some (token_of h p s)) w))
     = with_token None (after Auth.validateSession (with_token (Some (token_of h p s')) w)).
Proof.
  intros Hh Hp Hs Hs'.
  unfold decode_payload. rewrite !split_token by assumption. split; [reflexivity|].
  unfold result, after, Auth.validateSession, bind, gets, try_catch, ToString, lift, ret, throw.
  cbn [with_token set_auth w_auth currentUser authToken Auth.token_value fst snd].
  rewrite !token_of_truthy. cbn [to_string].
  rewrite !split_token by assumption. cbn [length Nat.eqb negb nth].
  destruct (truthy (currentUser (w_auth w))); cbn [andb]; [|split; reflexivity].
  unfold atob_M, JSON_parse_M, ret, throw.
  destruct (atob p) as [decoded|]; [|split; reflexivity].
  destruct (JSON_parse decoded) as [payload|]; [|split; reflexivity].
  unfold Date_now.
  destruct (get_prop payload "exp") as [exp|]; [|split; reflexivity].
  destruct (int_gt _ exp) as [[]|]; split; reflexivity.
Qed.

Lemma validateSession_ignores_signature_witness :
  result Auth.validateSession
    (with_token (Some (token_of "eyJhbGciOiJIUzI1NiIsInR5cCI6IkpXVCJ9"
                         (btoa (jsq "{'sub':'admin123','exp':1700086400000}"))
                         "dGFtcGVyZWQ")) logged_in_page)
  = result Auth.validateSession
      (with_token (Some (token_of "eyJhbGciOiJIUzI1NiIsInR5cCI6IkpXVCJ9"
                           (btoa (jsq "{'sub':'admin123','exp':1700086400000}"))
                           "bW9jay1zaWduYXR1cmUtYWRtaW4xMjM=")) logged_in_page)
  /\ result Auth.validateSession
       (with_token (Some (token_of "eyJhbGciOiJIUzI1NiIsInR5cCI6IkpXVCJ9"
                            (btoa (jsq "{'sub':'admin123','exp':1700086400000}"))
                            "dGFtcGVyZWQ")) logged_in_page)
     = Normal true.
Proof.
  destruct (validateSession_ignores_signature logged_in_page
              "eyJhbGciOiJIUzI1NiIsInR5cCI6IkpXVCJ9"
              (btoa (jsq "{'sub':'admin123','exp':1700086400000}"))
              "dGFtcGVyZWQ" "bW9jay1zaWduYXR1cmUtYWRtaW4xMjM=") as (_ & H & _);
    try (vm_compute; reflexivity).
  split; [exact H|]. vm_compute. reflexivity.
Defined.

(** ** The token codec *)

Lemma payload_text u t1 t2 :
  stored_json (payload_of u t1 t2)
  = payload_prefix u +:+ Number_toString t1 0 +:+ exp_label +:+ Number_toString t2 0 +:+ "}".
Proof.
  unfold stored_json, payload_of, payload_prefix, exp_label, VInt.
  cbn [serialize]. 
  rewrite !append_assoc. rewrite ?append_nil_l. reflexivity.
Qed.

Lemma generateMockToken_run u w :
  let iat := clock (w_browser w) (clock_reads (w_browser w)) in
  let now := clock (w_browser w) (S (clock_reads (w_browser w))) in
  Auth.generateMockToken u w =
  (Normal (token_of token_header
             (btoa (stored_json (payload_of u iat (now + session_lifetime))))
             (btoa ("mock-signature-" +:+ Auth.id u))),
   set_browser with_tick (set_browser with_tick w)).
Proof.
  intros iat now. unfold Auth.generateMockToken, Date_now, ToString.
  unfold bind, ret, lift.
  cbn [set_browser w_browser with_tick clock clock_reads]. fold iat. fold now.
  change (object_literal [("alg", VStr "HS256"); ("typ", VStr "JWT")])
    with [("alg", VStr "HS256"); ("typ", VStr "JWT")].
  change (to_string (JSON_stringify (VObj [("alg", VStr "HS256"); ("typ", VStr "JWT")])))
    with (Normal (jsq "{'alg':'HS256','typ':'JWT'}")).
  cbv iota beta.
  change (object_literal
            [("sub", VStr (Auth.id u)); ("username", VStr (Auth.username u));
             ("email", VStr (Auth.email u)); ("role", VStr (Auth.role u));
             ("iat", VInt iat); ("exp", VInt (now + 24 * 60 * 60 * 1000))])
    with [("sub", VStr (Auth.id u)); ("username", VStr (Auth.username u));
          ("email", VStr (Auth.email u)); ("role", VStr (Auth.role u));
          ("iat", VInt iat); ("exp", VInt (now + session_lifetime))].
  fold (payload_of u iat (now + session_lifetime)).
  rewrite to_string_stored_json. reflexivity.
Qed.

Ltac run_text :=
  match goal with
  | |- context [run ?s ?st] =>
      let r := eval vm_compute in (run s st) in
      replace (run s st) with r by (vm_compute; reflexivity)
  end.

Lemma parse_payload u t1 t2 :
  In u Auth.MOCK_USERS -> 0 <= t1 < 10 ^ 21 -> 0 <= t2 < 10 ^ 21 ->
  JSON_parse (stored_json (payload_of u t1 t2)) = Some (payload_of u t1 t2).
Proof.
  intros Hu H1 H2. rewrite payload_text, !Number_toString_nat by assumption.
  unfold JSON_parse.
  rewrite <- (Z2N.id t1) at 2 by lia. rewrite <- (Z2N.id t2) at 2 by lia.
  generalize (Z.to_N t1) as n1. generalize (Z.to_N t2) as n2. intros n2 n1.
  rewrite run_append.
  destruct Hu as [<-|[<-|[]]].
  - run_text. rewrite run_append, run_N_to_string, run_append.
    destruct (n1 =? 0)%N; run_text; rewrite run_append, run_N_to_string;
      destruct (n2 =? 0)%N; reflexivity.
  - run_text. rewrite run_append, run_N_to_string, run_append.
    destruct (n1 =? 0)%N; run_text; rewrite run_append, run_N_to_string;
      destruct (n2 =? 0)%N; reflexivity.
Qed.

Lemma split_generated_token p s :
  split "."%char (token_of token_header (btoa p) (btoa s)) = [token_header; btoa p; btoa s].
Proof. apply split_token; apply btoa_no_dot. Qed.

(** For every directory entry and every clock, the payload decoded from the
    generated token is the payload that was encoded: the id, username, email
    and role of the entry, the first clock reading as issue time and the
    second clock reading plus 24 hours as expiry. *)
Theorem generateMockToken_round_trip (u : Auth.user) (w : world) :
  let iat := clock (w_browser w) (clock_reads (w_browser w)) in
  let now := clock (w_browser w) (S (clock_reads (w_browser w))) in
  In u Auth.MOCK_USERS ->
  0 <= iat < 10 ^ 21 -> 0 <= now + session_lifetime < 10 ^ 21 ->
  exists token,
    result (Auth.generateMockToken u) w = Normal token
    /\ decode_payload token = Some (payload_of u iat (now + session_lifetime)).
Proof.
  intros iat now Hu Hiat Hnow. eexists. split.
  - unfold result. rewrite generateMockToken_run. reflexivity.
  - unfold decode_payload. rewrite split_generated_token. cbn [nth].
    rewrite atob_btoa. apply parse_payload; assumption.
Qed.

Lemma generateMockToken_round_trip_witness :
  decode_payload sample_token
  = Some (payload_of admin 1700000000000 (1700000000001 + session_lifetime)).
Proof.
  destruct (generateMockToken_round_trip admin (fresh_world 1700000000000 1 "/login.html"))
    as (token & Hrun & Hdec).
  - left. reflexivity.
  - vm_compute. split; [discriminate | reflexivity].
  - vm_compute. split; [discriminate | reflexivity].
  - assert (Ht : token = sample_token).
    { vm_compute in Hrun. injection Hrun as <-. reflexivity. }
    rewrite <- Ht. exact Hdec.
Defined.

Lemma saveUserSession_frame w :
  fst (Auth.saveUserSession w) = Normal tt
  /\ w_auth (snd (Auth.saveUserSession w)) = w_auth w
  /\ clock (w_browser (snd (Auth.saveUserSession w))) = clock (w_browser w).
Proof.
  unfold Auth.saveUserSession, Date_now, ToString, localStorage_setItem.
  unfold try_catch, bind, gets, ret, lift.
  repeat (break_match; cbn [fst snd]; auto);
    repeat match goal with H : (_, _) = (_, _) |- _ => injection H as ? ?; subst end;
    auto.
Qed.

Lemma logout_normal w : fst (Auth.logout w) = Normal tt.
Proof.
  unfold Auth.logout, Auth.set_currentUser, Auth.set_authToken, Auth.clearUserSession,
    Auth.announceToScreenReader, Auth.redirectToLogin, localStorage_removeItem, emit.
  unfold try_catch, bind, gets, ret, modify.
  repeat (break_match; try reflexivity).
Qed.

Lemma int_gt_integer check exp : int_gt check (VInt exp) = Normal (exp <? check).
Proof.
  unfold int_gt, VInt, to_number, cbind, fin_ltb.
  change (Z.min 0 0) with 0. change (10 ^ (0 - 0)) with 1. rewrite !Z.mul_1_r. reflexivity.
Qed.

(** Validation of a session whose token carries the payload of [u]: the
    session is kept exactly when the clock reading taken by the check is not
    past the expiry. *)
Lemma validateSession_generated u iat exp s w :
  In u Auth.MOCK_USERS -> 0 <= iat < 10 ^ 21 -> 0 <= exp < 10 ^ 21 ->
  truthy (currentUser (w_auth w)) = true ->
  authToken (w_auth w)
  = Some (token_of token_header (btoa (stored_json (payload_of u iat exp))) (btoa s)) ->
  result Auth.validateSession w
  = Normal (clock (w_browser w) (clock_reads (w_browser w)) <=? exp).
Proof.
  intros Hu Hiat Hexp Huser Htoken.
  unfold result, Auth.validateSession, Date_now, ToString, atob_M, JSON_parse_M.
  unfold try_catch, bind, gets, ret, lift, throw.
  rewrite Huser, Htoken. cbn [Auth.token_value]. rewrite token_of_truthy. cbn [andb to_string].
  rewrite split_generated_token. cbn [length Nat.eqb negb nth].
  rewrite atob_btoa, (parse_payload u iat exp Hu Hiat Hexp).
  change (get_prop (payload_of u iat exp) "exp") with (Normal (VInt exp)).
  cbv iota beta. rewrite int_gt_integer. cbv iota beta.
  destruct (Z.ltb_spec exp (clock (w_browser w) (clock_reads (w_browser w)))) as [Hlt|Hge];
    destruct (Z.leb_spec (clock (w_browser w) (clock_reads (w_browser w))) exp); try lia.
  - pose proof (logout_normal (set_browser with_tick w)) as Hl.
    destruct (Auth.logout _) as [c w']. simpl in Hl. subst c. reflexivity.
  - reflexivity.
Qed.

Ltac login_steps u Hu :=
  unfold Auth.login, Auth.simulateDelay, Auth.set_currentUser, Auth.set_authToken;
  unfold try_catch, bind at 1 2 3;
  let Hfind := fresh "Hfind" in
  let Hne := fresh "Hne" in
  assert (Hfind : Auth.findUser (Auth.username u) (Auth.password u) = Some u)
    by (apply findUser_stored_credentials, Hu);
  assert (Hne : negb (truthy (VStr (Auth.username u))) || negb (truthy (VStr (Auth.password u)))
                = false) by (destruct Hu as [<-|[<-|[]]]; reflexivity);
  rewrite Hne, Hfind; unfold ret at 1 2; cbv iota beta;
  unfold bind at 1; rewrite generateMockToken_run; cbv iota beta;
  unfold Date_now, bind, gets, modify, ret;
  match goal with |- context [Auth.saveUserSession ?x] =>
    let Hn := fresh "Hn" in
    let Ha := fresh "Ha" in
    let Hc := fresh "Hc" in
    pose proof (saveUserSession_frame x) as (Hn & Ha & Hc);
    destruct (Auth.saveUserSession x) as [c saved];
    cbn [fst snd] in Hn, Ha, Hc; subst c; cbv beta iota; cbn [snd]; rewrite ?Ha, ?Hc
  end;
  cbn [set_auth set_browser w_auth w_browser currentUser authToken with_tick clock].

Lemma login_token u w :
  In u Auth.MOCK_USERS ->
  authToken (w_auth (after (Auth.login (Auth.username u) (Auth.password u)) w))
  = Some (token_of token_header
            (btoa (stored_json
                     (payload_of u (clock (w_browser w) (clock_reads (w_browser w)))
                        (clock (w_browser w) (S (clock_reads (w_browser w)))
                         + session_lifetime))))
            (btoa ("mock-signature-" +:+ Auth.id u))).
Proof. intros Hu. unfold after. login_steps u Hu. reflexivity. Qed.

Lemma login_session u w :
  In u Auth.MOCK_USERS ->
  exists loginTime,
    currentUser (w_auth (after (Auth.login (Auth.username u) (Auth.password u)) w))
    = VObj [("id", VStr (Auth.id u)); ("username", VStr (Auth.username u));
            ("email", VStr (Auth.email u)); ("role", VStr (Auth.role u));
            ("isAuthenticated", VBool true); ("loginTime", VStr loginTime)].
Proof. intros Hu. unfold after. login_steps u Hu. eexists. reflexivity. Qed.

Lemma login_clock u w :
  In u Auth.MOCK_USERS ->
  clock (w_browser (after (Auth.login (Auth.username u) (Auth.password u)) w))
  = clock (w_browser w).
Proof. intros Hu. unfold after. login_steps u Hu. reflexivity. Qed.

(** After a login with the stored credentials the session validates exactly
    as long as the clock reading taken by the check is not past the second
    reading of the encoder plus 24 hours; in particular it validates when
    the check is made at the instant of the login. *)
Theorem login_session_expiry (u : Auth.user) (w : world) :
  let iat := clock (w_browser w) (clock_reads (w_browser w)) in
  let now := clock (w_browser w) (S (clock_reads (w_browser w))) in
  let w1 := after (Auth.login (Auth.username u) (Auth.password u)) w in
  let check := clock (w_browser w1) (clock_reads (w_browser w1)) in
  In u Auth.MOCK_USERS ->
  0 <= iat < 10 ^ 21 -> 0 <= now + session_lifetime < 10 ^ 21 ->
  result Auth.validateSession w1 = Normal (check <=? now + session_lifetime)
  /\ (check = now -> result Auth.validateSession w1 = Normal true).
Proof.
  intros iat now w1 check Hu Hiat Hnow.
  pose proof (login_token u w Hu) as Htoken.
  assert (Huser : truthy (currentUser (w_auth w1)) = true).
  { destruct (login_session u w Hu) as [t Ht]. subst w1. rewrite Ht. reflexivity. }
  fold iat now w1 in Htoken.
  pose proof (validateSession_generated u iat (now + session_lifetime) _ w1
                Hu Hiat Hnow Huser Htoken) as Hv.
  fold check in Hv. split; [exact Hv|].
  intros Heq. rewrite Hv. f_equal. apply Z.leb_le. unfold session_lifetime. lia.
Qed.

Lemma login_session_expiry_witness :
  result Auth.validateSession
    (after (Auth.login "admin" "password123") (fresh_world 1700000000000 0 "/login.html"))
  = Normal true.
Proof.
  apply (login_session_expiry admin (fresh_world 1700000000000 0 "/login.html")).
  - left. reflexivity.
  - vm_compute. split; [discriminate | reflexivity].
  - vm_compute. split; [discriminate | reflexivity].
  - vm_compute. reflexivity.
Defined.

(** [C5] fails where the clock advances between the two readings that
    [generateMockToken] takes: with a clock that advances 1 ms per reading
    the payload has [exp = iat + 24h + 1], and at [iat + 24h + 1], a time
    past the issue time plus 24 hours, the session still validates. *)
Theorem token_expiry_follows_second_clock_reading :
  result (Auth.generateMockToken admin) (fresh_world 1700000000000 1 "/login.html")
  = Normal sample_token
  /\ authToken (w_auth logged_in_page) = Some sample_token
  /\ decode_payload sample_token
     = Some (VObj [("sub", VStr "admin123"); ("username", VStr "admin");
                   ("email", VStr "admin@taskmanager.com"); ("role", VStr "admin");
                   ("iat", VInt 1700000000000);
                   ("exp", VInt (1700000000000 + 24 * 60 * 60 * 1000 + 1))])
  /\ result Auth.validateSession
       (with_clock (fun _ => 1700000000000 + 24 * 60 * 60 * 1000 + 1) logged_in_page)
     = Normal true
  /\ result Auth.validateSession
       (with_clock (fun _ => 1700000000000 + 24 * 60 * 60 * 1000 + 2) logged_in_page)
     = Normal false.
Proof. by_evaluation. Qed.

(** ** The task list *)

Lemma saveTasks_normal w :
  fst (Script.saveTasks w) = Normal tt /\ w_script (snd (Script.saveTasks w)) = w_script w
  /\ w_auth (snd (Script.saveTasks w)) = w_auth w.
Proof.
  unfold Script.saveTasks, try_catch, bind, gets, ret, ToString, lift, localStorage_setItem.
  destruct (truthy (script_currentUser (w_script w))); cbn [negb]; [|auto].
  repeat (break_match; cbn [fst snd]; auto).
Qed.

Lemma saveTasks_stores_trace w :
  trace (w_browser (snd (Script.saveTasks w))) = trace (w_browser w).
Proof.
  unfold Script.saveTasks, try_catch, bind, gets, ret, ToString, lift, localStorage_setItem.
  repeat (break_match; cbn [fst snd]; auto); congruence.
Qed.

Lemma to_string_tasks_json l :
  to_string (JSON_stringify (VArr (map VObj l))) = Normal (tasks_json l).
Proof.
  unfold JSON_stringify, tasks_json, stored_json.
  destruct (serialize (VArr (map VObj l))); reflexivity.
Qed.

Lemma saveTasks_stores w B :
  truthy (script_currentUser (w_script w)) = true ->
  get_prop (script_currentUser (w_script w)) "id" = Normal (VStr B) ->
  let text := tasks_json (tasks (w_script w)) in
  Script.saveTasks w =
  (Normal tt,
   if ls_accepts (w_browser w) ("tasks_" +:+ B) text
   then set_browser (with_items (insert ("tasks_" +:+ B) text)) w else w).
Proof.
  intros Ht Hid. unfold Script.saveTasks, try_catch, bind, gets, ret, ToString, lift,
    localStorage_setItem.
  rewrite Ht. cbn [negb]. rewrite Hid. cbn [to_string]. rewrite to_string_tasks_json.
  destruct (ls_accepts _ _ _); reflexivity.
Qed.





Lemma filter_c_records B elems :
  Forall (fun e => not_nullish e = true) elems ->
  Script.filter_c (Script.belongs_to (VStr B)) elems
  = Normal (List.filter (fun t => negb (foreign B t)) elems).
Proof.
  induction 1 as [|e elems He Hs IH]; [reflexivity|].
  simpl. rewrite IH. unfold Script.belongs_to, foreign.
  rewrite (get_prop_not_nullish e "userId" He). simpl.
  destruct (truthy (prop e "userId")); simpl; [|reflexivity].
  destruct (strict_eq (prop e "userId") (VStr B)); reflexivity.
Qed.

Lemma map_c_records B elems :
  Forall (fun e => not_nullish e = true) elems ->
  Script.map_c (Script.with_owner (VStr B)) (List.filter (fun t => negb (foreign B t)) elems)
  = Normal (map (stamp B) (List.filter (fun t => negb (foreign B t)) elems)).
Proof.
  induction 1 as [|e elems He Hs IH]; [reflexivity|].
  simpl. destruct (foreign B e) eqn:Hf; simpl; [exact IH|].
  rewrite IH. unfold Script.with_owner, stamp.
  rewrite (get_prop_not_nullish e "userId" He). simpl.
  unfold foreign in Hf. destruct (truthy (prop e "userId")); [|reflexivity].
  simpl in Hf. apply negb_false_iff, strict_eq_string in Hf. rewrite Hf. reflexivity.
Qed.

Lemma loadTasks_unfold w B :
  truthy (script_currentUser (w_script w)) = true ->
  get_prop (script_currentUser (w_script w)) "id" = Normal (VStr B) ->
  Script.loadTasks w =
  match ls_items (w_browser w) !! ("tasks_" +:+ B) with
  | Some text =>
      if truthy (VStr text) then
        match JSON_parse text with
        | Some parsed =>
            match cbind (Script.array_elements parsed) (fun elements =>
                    cbind (Script.filter_c (Script.belongs_to (VStr B)) elements)
                      (Script.map_c (Script.with_owner (VStr B)))) with
            | Normal stamped =>
                Script.saveTasks
                  (set_script (fun s => mkScript stamped (currentFilter s) (script_currentUser s)) w)
            | Throw _ =>
                (Normal tt, set_script (fun s => mkScript [] (currentFilter s) (script_currentUser s)) w)
            end
        | None =>
            (Normal tt, set_script (fun s => mkScript [] (currentFilter s) (script_currentUser s)) w)
        end
      else (Normal tt, set_script (fun s => mkScript [] (currentFilter s) (script_currentUser s)) w)
  | None => (Normal tt, set_script (fun s => mkScript [] (currentFilter s) (script_currentUser s)) w)
  end.
Proof.
  intros Ht Hid.
  unfold Script.loadTasks, localStorage_getItem, JSON_parse_M, Script.set_tasks, ToString.
  unfold try_catch, bind, gets, ret, lift, modify, throw.
  rewrite Ht. cbn [negb]. rewrite Hid. cbn [to_string]. cbv beta.
  destruct (ls_items (w_browser w) !! ("tasks_" +:+ B)) as [text|]; [|reflexivity].
  destruct (truthy (VStr text)); [|reflexivity].
  destruct (JSON_parse text) as [parsed|]; [|reflexivity].
  destruct (Script.array_elements parsed) as [elements|]; [|reflexivity]. cbn [cbind].
  destruct (Script.filter_c _ elements) as [owned|]; [|reflexivity]. cbn [cbind].
  destruct (Script.map_c _ owned) as [stamped|]; [|reflexivity].
  pose proof (saveTasks_normal
    (set_script (fun s => mkScript stamped (currentFilter s) (script_currentUser s)) w)) as [Hn _].
  destruct (Script.saveTasks _) as [c w']. simpl in Hn. subst c. reflexivity.
Qed.








(** ** Handlers of the task page *)

Lemma renderTasks_state w : snd (Script.renderTasks w) = w.
Proof.
  unfold Script.renderTasks, Script.getFilteredTasks.
  unfold bind, gets, ret, lift.
  repeat (break_match; try reflexivity); congruence.
Qed.

Lemma isAuthenticated_state w : snd (Auth.isAuthenticated w) = w.
Proof.
  unfold Auth.isAuthenticated. unfold bind, gets, ret, lift.
  repeat (break_match; try reflexivity); congruence.
Qed.

Lemma filter_none {A} (p : A -> bool) l :
  length (List.filter p l) = 0%nat -> List.filter (fun x => negb (p x)) l = l.
Proof.
  induction l as [|x l IH]; [reflexivity|]. simpl.
  destruct (p x); simpl; [discriminate|]. intros H. rewrite (IH H). reflexivity.
Qed.

Lemma filter_filter_negb {A} (p : A -> bool) l :
  List.filter p (List.filter (fun x => negb (p x)) l) = [].
Proof.
  induction l as [|x l IH]; [reflexivity|]. simpl.
  destruct (p x) eqn:E; simpl; [exact IH|]. rewrite E. exact IH.
Qed.

Lemma filter_split_length {A} (p : A -> bool) l :
  length l = (length (List.filter (fun x => negb (p x)) l) + length (List.filter p l))%nat.
Proof.
  induction l as [|x l IH]; [reflexivity|]. simpl.
  destruct (p x); simpl; lia.
Qed.

Lemma handleClearCompleted_nothing w :
  length (List.filter Script.completed (tasks (w_script w))) = 0%nat ->
  Script.handleClearCompleted w = (Normal VUndefined, w).
Proof.
  intros H. unfold Script.handleClearCompleted. unfold bind, gets.
  rewrite H. reflexivity.
Qed.

Lemma handleClearCompleted_some w :
  let n := length (List.filter Script.completed (tasks (w_script w))) in
  let rest := List.filter (fun t => negb (Script.completed t)) (tasks (w_script w)) in
  let saved := snd (Script.saveTasks
                 (set_script (fun s => mkScript rest (currentFilter s) (script_currentUser s)) w)) in
  n <> 0%nat ->
  Script.handleClearCompleted w =
  match fst (Script.renderTasks saved) with
  | Normal _ => (Normal VUndefined, set_browser (with_event (Announce (cleared_message n))) saved)
  | Throw e => (Throw e, saved)
  end.
Proof.
  intros n rest saved Hn.
  unfold Script.handleClearCompleted, Script.set_tasks, Script.updateCounts,
    Script.announceToScreenReader, emit.
  unfold bind, gets, ret, modify. fold n. fold rest.
  destruct (Nat.eqb_spec n 0%nat) as [E|_]; [contradiction|].
  pose proof (saveTasks_normal
    (set_script (fun s => mkScript rest (currentFilter s) (script_currentUser s)) w)) as [Hs _].
  fold saved. destruct (Script.saveTasks _) as [c saved'] eqn:Es.
  simpl in Hs. subst c. subst saved. cbn [snd].
  pose proof (renderTasks_state saved') as Hr.
  destruct (Script.renderTasks saved') as [c w']. simpl in Hr. subst w'. simpl.
  destruct c; [|reflexivity].
  unfold cleared_message. destruct (n =? 1)%nat; reflexivity.
Qed.

(** [C8], amended: [handleClearCompleted] removes exactly the completed
    records and writes the remaining list to the store under the key of
    the current user.  Its value is [undefined]: the number removed, which
    is the number of completed records, is only announced, and only when it
    is not zero and rendering the remaining list did not raise.  When no
    record is completed the handler changes nothing, writes nothing and
    announces nothing; after a call no completed record is left, so that a
    second call in a row is of this kind. *)
Theorem clearCompleted_count_and_idempotence (w : world) :
  let n := length (List.filter Script.completed (tasks (w_script w))) in
  let rest := List.filter (fun t => negb (Script.completed t)) (tasks (w_script w)) in
  let w1 := after Script.handleClearCompleted w in
  tasks (w_script w1) = rest
  /\ length (tasks (w_script w)) = (length rest + n)%nat
  /\ (forall v, result Script.handleClearCompleted w = Normal v -> v = VUndefined)
  /\ (n <> 0%nat -> result Script.handleClearCompleted w = Normal VUndefined ->
      trace (w_browser w1) = trace (w_browser w) ++ [Announce (cleared_message n)])
  /\ (forall e, result Script.handleClearCompleted w = Throw e ->
      trace (w_browser w1) = trace (w_browser w))
  /\ (n <> 0%nat ->
      forall B,
        truthy (script_currentUser (w_script w)) = true ->
        get_prop (script_currentUser (w_script w)) "id" = Normal (VStr B) ->
        ls_items (w_browser w1)
        = if ls_accepts (w_browser w) (tasks_key B) (tasks_json rest)
          then <[tasks_key B := tasks_json rest]> (ls_items (w_browser w))
          else ls_items (w_browser w))
  /\ (n = 0%nat -> Script.handleClearCompleted w = (Normal VUndefined, w))
  /\ length (List.filter Script.completed (tasks (w_script w1))) = 0%nat
  /\ Script.handleClearCompleted w1 = (Normal VUndefined, w1).
Proof.
  intros n rest w1.
  assert (Htasks : tasks (w_script w1) = rest).
  { subst w1. unfold after. destruct (Nat.eq_dec n 0%nat) as [E|E].
    - rewrite (handleClearCompleted_nothing w E). symmetry. apply filter_none, E.
    - rewrite (handleClearCompleted_some w E).
      destruct (fst (Script.renderTasks _)); cbn [snd set_browser w_script];
        rewrite (proj1 (proj2 (saveTasks_normal _))); reflexivity. }
  assert (Hzero : length (List.filter Script.completed (tasks (w_script w1))) = 0%nat).
  { rewrite Htasks. unfold rest. rewrite filter_filter_negb. reflexivity. }
  split; [exact Htasks|]. split; [apply filter_split_length|].
  split; [|split; [|split; [|split; [|split; [apply handleClearCompleted_nothing
                                     |split; [exact Hzero
                                             |apply handleClearCompleted_nothing, Hzero]]]]]].
  - intros v. unfold result. destruct (Nat.eq_dec n 0%nat) as [E|E].
    + rewrite (handleClearCompleted_nothing w E). intros H. injection H as <-. reflexivity.
    + rewrite (handleClearCompleted_some w E).
      destruct (fst (Script.renderTasks _)); cbn [fst]; intros H;
        [injection H as <-; reflexivity | discriminate H].
  - intros Hn Hres. subst w1 rest. unfold after, result in *.
    rewrite (handleClearCompleted_some w Hn) in *.
    pose proof (saveTasks_stores_trace
      (set_script (fun s => mkScript
         (List.filter (fun t => negb (Script.completed t)) (tasks (w_script w)))
         (currentFilter s) (script_currentUser s)) w)) as Htr.
    destruct (fst (Script.renderTasks _)); [|discriminate Hres].
    cbn [snd set_browser w_browser with_event trace]. rewrite Htr. reflexivity.
  - intros e Hres. subst w1 rest. unfold after, result in *.
    destruct (Nat.eq_dec n 0%nat) as [E|E].
    { rewrite (handleClearCompleted_nothing w E) in Hres. discriminate Hres. }
    rewrite (handleClearCompleted_some w E) in *.
    pose proof (saveTasks_stores_trace
      (set_script (fun s => mkScript
         (List.filter (fun t => negb (Script.completed t)) (tasks (w_script w)))
         (currentFilter s) (script_currentUser s)) w)) as Htr.
    destruct (fst (Script.renderTasks _)); [discriminate Hres|].
    cbn [snd]. exact Htr.
  - intros Hn B Hu Hid. subst w1 rest. unfold after.
    rewrite (handleClearCompleted_some w Hn).
    rewrite (saveTasks_stores
               (set_script (fun s => mkScript
                  (List.filter (fun t => negb (Script.completed t)) (tasks (w_script w)))
                  (currentFilter s) (script_currentUser s)) w)
               B Hu Hid).
    cbn [set_script w_script w_browser tasks snd]. unfold tasks_key.
    destruct (fst (Script.renderTasks _));
      cbn [snd]; destruct (ls_accepts _ _ _); reflexivity.
Qed.

Lemma clearCompleted_count_and_idempotence_witness :
  trace (w_browser (after Script.handleClearCompleted (task_page ∅ "" two_tasks)))
  = [Announce "1 completed task cleared"]
  /\ Script.handleClearCompleted (after Script.handleClearCompleted (task_page ∅ "" two_tasks))
     = (Normal VUndefined, after Script.handleClearCompleted (task_page ∅ "" two_tasks)).
Proof.
  destruct (clearCompleted_count_and_idempotence (task_page ∅ "" two_tasks))
    as (_ & _ & _ & Hann & _ & _ & _ & _ & Hsecond).
  split; [|exact Hsecond].
  rewrite Hann; [reflexivity | discriminate | vm_compute; reflexivity].
Defined.

(** [C8] as stated fails: a call of [handleClearCompleted] has the value
    [undefined], not the number of records removed.  With one completed
    record among two the call removes it and its value is [undefined]; the
    number is in the announcement only.  The second call has the same
    value and announces nothing, so no count of zero is reported either. *)
Lemma handleClearCompleted_returns_no_count :
  length (List.filter Script.completed two_tasks) = 1%nat
  /\ result Script.handleClearCompleted (task_page ∅ "" two_tasks) = Normal VUndefined
  /\ length (tasks (w_script (after Script.handleClearCompleted (task_page ∅ "" two_tasks))))
     = 1%nat
  /\ trace (w_browser (after Script.handleClearCompleted (task_page ∅ "" two_tasks)))
     = [Announce "1 completed task cleared"]
  /\ result Script.handleClearCompleted
       (after Script.handleClearCompleted (task_page ∅ "" two_tasks))
     = Normal VUndefined
  /\ trace (w_browser (after Script.handleClearCompleted
                         (after Script.handleClearCompleted (task_page ∅ "" two_tasks))))
     = [Announce "1 completed task cleared"].
Proof. by_evaluation. Qed.

Lemma add_task_literal a b c d e :
  object_literal [("id", a); ("text", b); ("completed", c); ("createdAt", d); ("userId", e)]
  = [("id", a); ("text", b); ("completed", c); ("createdAt", d); ("userId", e)].
Proof. reflexivity. Qed.

Lemma handleAddTask_empty w :
  trim (taskInput_value (w_browser w)) = "" ->
  Script.handleAddTask w = (Normal tt, set_browser (with_event (Focus "taskInput")) w).
Proof.
  intros H. unfold Script.handleAddTask. unfold bind, gets. rewrite H. reflexivity.
Qed.

Lemma handleAddTask_not_authenticated w :
  trim (taskInput_value (w_browser w)) <> "" ->
  result Auth.isAuthenticated w = Normal false ->
  Script.handleAddTask w = Auth.redirectToLogin w.
Proof.
  intros H Ha. unfold Script.handleAddTask. unfold bind at 1. unfold gets at 1.
  destruct (String.eqb_spec (trim (taskInput_value (w_browser w))) "") as [E|_]; [contradiction|].
  unfold bind at 1. unfold result in Ha. pose proof (isAuthenticated_state w) as Hs.
  destruct (Auth.isAuthenticated w) as [c w']. simpl in Ha, Hs. subst c w'. reflexivity.
Qed.

Lemma handleAddTask_appends w :
  trim (taskInput_value (w_browser w)) <> "" ->
  result Auth.isAuthenticated w = Normal true ->
  not_nullish (script_currentUser (w_script w)) = true ->
  tasks (w_script (after Script.handleAddTask w))
  = tasks (w_script w) ++
    [ [("id", VInt (clock (w_browser w) (clock_reads (w_browser w))));
       ("text", VStr (trim (taskInput_value (w_browser w))));
       ("completed", VBool false);
       ("createdAt", VStr (Date_toISOString
                             (clock (w_browser w) (S (clock_reads (w_browser w))))));
       ("userId", prop (script_currentUser (w_script w)) "id")] ].
Proof.
  intros H Ha Hu. unfold after, Script.handleAddTask. unfold bind at 1. unfold gets at 1.
  destruct (String.eqb_spec (trim (taskInput_value (w_browser w))) "") as [E|_]; [contradiction|].
  unfold bind at 1. unfold result in Ha. pose proof (isAuthenticated_state w) as Hs.
  destruct (Auth.isAuthenticated w) as [c w']. simpl in Ha, Hs. subst c w'. cbn [negb].
  unfold Date_now, Script.set_tasks, Script.updateCounts, Script.announceToScreenReader, emit.
  unfold bind, gets, modify, ret, lift.
  cbn [set_browser w_browser w_script with_tick clock clock_reads].
  rewrite (get_prop_not_nullish _ "id" Hu), add_task_literal.
  match goal with |- context [Script.saveTasks ?x] =>
    pose proof (saveTasks_normal x) as (Hn & Hsc & _);
    destruct (Script.saveTasks x) as [c saved] end.
  simpl in Hn, Hsc. subst c.
  pose proof (renderTasks_state saved) as Hr.
  destruct (Script.renderTasks saved) as [c w']. simpl in Hr. subst w'.
  destruct c; cbn [snd set_browser w_script]; rewrite Hsc; reflexivity.
Qed.

Lemma handleAddTask_no_owner w :
  trim (taskInput_value (w_browser w)) <> "" ->
  result Auth.isAuthenticated w = Normal true ->
  not_nullish (script_currentUser (w_script w)) = false ->
  Script.handleAddTask w = (Throw TypeError, tick (tick w)).
Proof.
  intros H Ha Hu. unfold Script.handleAddTask. unfold bind at 1. unfold gets at 1.
  destruct (String.eqb_spec (trim (taskInput_value (w_browser w))) "") as [E|_]; [contradiction|].
  unfold bind at 1. unfold result in Ha. pose proof (isAuthenticated_state w) as Hs.
  destruct (Auth.isAuthenticated w) as [c w']. simpl in Ha, Hs. subst c w'. cbn [negb].
  unfold Date_now. unfold bind, gets, modify, ret, lift.
  cbn [set_browser w_browser w_script with_tick clock clock_reads].
  destruct (script_currentUser (w_script w)); try discriminate Hu; reflexivity.
Qed.

Lemma redirectToLogin_run w :
  Auth.redirectToLogin w
  = (Normal tt,
     if on_login_page w then w else set_browser (with_event (Navigate "login.html")) w).
Proof.
  unfold Auth.redirectToLogin, on_login_page. unfold bind, gets, emit, modify, ret.
  destruct (includes _ _); reflexivity.
Qed.

(** [C7], amended: when the trimmed input is empty the handler only moves
    the focus to the input field: the task list and the store stay as they
    were.  When the trimmed input is not empty and the user is still
    authenticated, exactly one record is appended, with the trimmed text,
    [completed = false] and the id of the current user of the page; without
    such a user ([currentUser] of script.js is [null]) the handler raises a
    TypeError instead and appends and stores nothing.  When the session is
    no longer authenticated, nothing is appended or stored and the browser
    is sent to the login page, unless the path of the page holds
    [login.html] already. *)
Theorem handleAddTask_cases (w : world) :
  let text := trim (taskInput_value (w_browser w)) in
  let w' := after Script.handleAddTask w in
  (text = "" ->
     result Script.handleAddTask w = Normal tt
     /\ tasks (w_script w') = tasks (w_script w)
     /\ ls_items (w_browser w') = ls_items (w_browser w)
     /\ trace (w_browser w') = trace (w_browser w) ++ [Focus "taskInput"])
  /\ (text <> "" -> result Auth.isAuthenticated w = Normal true ->
      (not_nullish (script_currentUser (w_script w)) = true ->
       exists task,
         tasks (w_script w') = tasks (w_script w) ++ [task]
         /\ obj_get task "text" = VStr text
         /\ obj_get task "completed" = VBool false
         /\ obj_get task "userId" = prop (script_currentUser (w_script w)) "id")
      /\ (not_nullish (script_currentUser (w_script w)) = false ->
          result Script.handleAddTask w = Throw TypeError
          /\ tasks (w_script w') = tasks (w_script w)
          /\ ls_items (w_browser w') = ls_items (w_browser w)
          /\ trace (w_browser w') = trace (w_browser w)))
  /\ (text <> "" -> result Auth.isAuthenticated w = Normal false ->
      result Script.handleAddTask w = Normal tt
      /\ tasks (w_script w') = tasks (w_script w)
      /\ ls_items (w_browser w') = ls_items (w_browser w)
      /\ trace (w_browser w') = trace (w_browser w) ++ redirect_events w
      /\ (on_login_page w = true -> w' = w)).
Proof.
  intros text w'. subst text w'. split; [|split].
  - intros H. unfold result, after. rewrite (handleAddTask_empty w H). auto.
  - intros H Ha. split.
    + intros Hu. eexists. split; [apply (handleAddTask_appends w H Ha Hu)|].
      repeat split; reflexivity.
    + intros Hu. unfold result, after. rewrite (handleAddTask_no_owner w H Ha Hu). auto.
  - intros H Ha. unfold result, after.
    rewrite (handleAddTask_not_authenticated w H Ha), redirectToLogin_run.
    unfold redirect_events. destruct (on_login_page w); cbn [fst snd].
    + rewrite app_nil_r. auto.
    + repeat split; auto. discriminate.
Qed.

Lemma handleAddTask_cases_witness :
  exists task,
    tasks (w_script (after Script.handleAddTask (task_page ∅ " Buy milk " two_tasks)))
    = two_tasks ++ [task]
    /\ obj_get task "text" = VStr "Buy milk".
Proof.
  destruct (handleAddTask_cases (task_page ∅ " Buy milk " two_tasks)) as (_ & H & _).
  destruct H as (H & _).
  - discriminate.
  - vm_compute. reflexivity.
  - destruct H as (task & Ht & Htext & _); [reflexivity|].
    exists task. split; [exact Ht | exact Htext].
Defined.

(** [C7] as stated fails: the trimmed text is not empty, yet no record is
    appended and nothing is stored, because the session is no longer
    authenticated; the handler redirects to the login page instead. *)
Lemma handleAddTask_needs_authentication :
  trim (taskInput_value (w_browser (logged_out_page "Buy milk"))) = "Buy milk"
  /\ tasks (w_script (after Script.handleAddTask (logged_out_page "Buy milk"))) = []
  /\ ls_items (w_browser (after Script.handleAddTask (logged_out_page "Buy milk"))) = ∅
  /\ trace (w_browser (after Script.handleAddTask (logged_out_page "Buy milk")))
     = [Navigate "login.html"].
Proof. by_evaluation. Qed.

(** ** The storage adapter *)

Lemma JSON_parse_undefined : JSON_parse "undefined" = None.
Proof. reflexivity. Qed.

(** [getItem] on an available medium, case by case.  It never raises and
    never changes the state. *)
Lemma getItem_cases w key d :
  isAvailable (w_storage w) = true ->
  Storage.getItem key d w =
  (Normal
     match ls_items (w_browser w) !! key with
     | None => default_parameter d VNull
     | Some text =>
         match JSON_parse text with
         | None => default_parameter d VNull
         | Some parsed =>
             match hasOwnProperty parsed "value" with
             | Throw _ => default_parameter d VNull
             | Normal true => prop parsed "value"
             | Normal false => parsed
             end
         end
     end, w).
Proof.
  intros Ha. unfold Storage.getItem, localStorage_getItem, JSON_parse_M.
  unfold try_catch, bind, gets, ret, lift, throw. rewrite Ha. cbn [negb].
  destruct (ls_items (w_browser w) !! key) as [text|]; [|reflexivity].
  destruct (JSON_parse text) as [parsed|] eqn:Hp; [|reflexivity].
  destruct (hasOwnProperty parsed "value") as [[]|] eqn:Hh; cbn [negb]; [| |reflexivity].
  - assert (Hn : not_nullish parsed = true) by (destruct parsed; try reflexivity; discriminate Hh).
    rewrite (get_prop_not_nullish _ _ Hn). reflexivity.
  - destruct (String.eqb_spec text "undefined") as [->|_].
    + rewrite JSON_parse_undefined in Hp. discriminate.
    + reflexivity.
Qed.

Lemma get_prop_truthy v k : truthy v = true -> get_prop v k = Normal (prop v k).
Proof. intros H. apply get_prop_not_nullish. destruct v; try reflexivity; discriminate H. Qed.

(** [getItem] without a usable medium: the in-memory fallback, case by
    case.  It never raises and never changes the state. *)
Lemma getItem_memory w key d :
  isAvailable (w_storage w) = false ->
  Storage.getItem key d w
  = (Normal
       (if String.eqb key "__proto__" then
          match inMemoryProto (w_storage w) with
          | Some (value, _) => value
          | None => VUndefined
          end
        else
          match inMemoryStorage (w_storage w) !! key with
          | Some (value, _) => value
          | None =>
              match inMemoryProto (w_storage w) with
              | Some (value, timestamp) =>
                  if String.eqb key "value" then
                    if truthy value then prop value "value" else default_parameter d VNull
                  else if String.eqb key "timestamp" then
                    if timestamp =? 0 then default_parameter d VNull else VUndefined
                  else if inherited_name key then VUndefined else default_parameter d VNull
              | None => if inherited_name key then VUndefined else default_parameter d VNull
              end
          end), w).
Proof.
  intros Ha. unfold Storage.getItem, Storage.getInMemory. unfold bind, gets, ret, lift.
  rewrite Ha. cbn [negb].
  assert (Hd : default_parameter (default_parameter d VNull) VNull = default_parameter d VNull)
    by (destruct d; reflexivity).
  rewrite Hd.
  destruct (String.eqb key "__proto__"); [destruct (inMemoryProto _) as [[v t]|]; reflexivity|].
  destruct (inMemoryStorage (w_storage w) !! key) as [[v t]|]; [reflexivity|].
  destruct (inMemoryProto _) as [[v t]|]; [|destruct (inherited_name key); reflexivity].
  destruct (String.eqb key "value").
  { destruct (truthy v) eqn:Hv; [rewrite (get_prop_truthy v _ Hv)|]; reflexivity. }
  destruct (String.eqb key "timestamp"); [destruct (t =? 0); reflexivity|].
  destruct (inherited_name key); reflexivity.
Qed.

Lemma getItem_total w key d : exists v, Storage.getItem key d w = (Normal v, w).
Proof.
  destruct (isAvailable (w_storage w)) eqn:Ha.
  - eexists. apply getItem_cases, Ha.
  - eexists. apply getItem_memory, Ha.
Qed.

(** [C9] holds except for one shape of entry, which the code misses: a
    stored object that has a member named [hasOwnProperty].  The membership
    test then calls the member, which is data, and the resulting TypeError
    makes [getItem] return the default: for a legacy entry instead of the
    parsed object, for an envelope instead of its value.  Without that member
    the same entries are returned as [C9] says. *)
Theorem getItem_shadowed_hasOwnProperty :
  JSON_parse (jsq "{'hasOwnProperty':1,'theme':'dark'}")
  = Some (VObj [("hasOwnProperty", VInt 1); ("theme", VStr "dark")])
  /\ read_settings "{'hasOwnProperty':1,'theme':'dark'}" = Normal (VStr "default")
  /\ read_settings "{'theme':'dark'}" = Normal (VObj [("theme", VStr "dark")])
  /\ read_settings "{'value':5,'timestamp':1,'type':'number','hasOwnProperty':true}"
     = Normal (VStr "default")
  /\ read_settings "{'value':5,'timestamp':1,'type':'number'}" = Normal (VInt 5).
Proof. by_evaluation. Qed.

(** ** Persistence *)

Lemma envelope_literal value now :
  object_literal [("value", value); ("timestamp", VInt now); ("type", VStr (typeof value))]
  = [("value", value); ("timestamp", VInt now); ("type", VStr (typeof value))].
Proof. reflexivity. Qed.

Lemma setItem_envelope w key value :
  isAvailable (w_storage w) = true ->
  let now := clock (w_browser w) (clock_reads (w_browser w)) in
  let text := stored_json (envelope value now) in
  Storage.setItem key value w =
  if ls_accepts (w_browser w) key text
  then (Normal true, set_browser (with_items (insert key text)) (set_browser with_tick w))
  else (Normal false, set_browser with_tick w).
Proof.
  intros Ha now text. unfold Storage.setItem, Date_now, ToString, localStorage_setItem.
  unfold try_catch, bind, gets, ret, lift. rewrite Ha. cbn [negb].
  rewrite envelope_literal. fold now. fold (envelope value now).
  assert (Hs : to_string (JSON_stringify (envelope value now)) = Normal text).
  { subst text. unfold JSON_stringify, stored_json, envelope.
    destruct (serialize (VObj _)) eqn:E; [reflexivity | discriminate E]. }
  rewrite Hs. cbn [set_browser w_browser with_tick ls_accepts].
  destruct (ls_accepts (w_browser w) key text); reflexivity.
Qed.

Lemma saveUserSession_raw w :
  (forall k v, ls_accepts (w_browser w) k v = true) ->
  let token := match authToken (w_auth w) with Some t => t | None => "null" end in
  let now := clock (w_browser w) (clock_reads (w_browser w)) in
  ls_items (w_browser (after Auth.saveUserSession w))
  = <[Auth.STORAGE_KEYS.LOGIN_TIME := Date_toISOString now]>
      (<[Auth.STORAGE_KEYS.USER_SESSION := stored_json (currentUser (w_auth w))]>
         (<[Auth.STORAGE_KEYS.AUTH_TOKEN := token]> (ls_items (w_browser w)))).
Proof.
  intros Hacc token now. unfold after, Auth.saveUserSession, Date_now, ToString,
    localStorage_setItem.
  unfold try_catch, bind, gets, ret, lift.
  assert (Ht : to_string (Auth.token_value (authToken (w_auth w))) = Normal token).
  { subst token. destruct (authToken (w_auth w)); reflexivity. }
  rewrite Ht, Hacc. cbn [set_browser w_browser w_auth with_items ls_accepts].
  rewrite to_string_stored_json, Hacc.
  cbn [set_browser w_browser with_items with_tick ls_accepts ls_items clock clock_reads].
  rewrite Hacc. reflexivity.
Qed.

(** [C6], amended: the adapter's [setItem] stores the serialization of the
    envelope [{value, timestamp, type}] around the value.  The session, the
    token and the task lists are not written through the adapter:
    [saveUserSession] stores the token as it is and the JSON text of the
    session object, and [saveTasks] stores the JSON text of the task array
    under [tasks_<id>], each without envelope. *)
Theorem envelope_only_through_adapter (w : world) :
  (forall k v, ls_accepts (w_browser w) k v = true) ->
  let now := clock (w_browser w) (clock_reads (w_browser w)) in
  (forall key value,
     isAvailable (w_storage w) = true ->
     result (Storage.setItem key value) w = Normal true
     /\ ls_items (w_browser (after (Storage.setItem key value) w))
        = <[key := stored_json (envelope value now)]> (ls_items (w_browser w)))
  /\ (forall token,
        authToken (w_auth w) = Some token ->
        ls_items (w_browser (after Auth.saveUserSession w))
        = <[Auth.STORAGE_KEYS.LOGIN_TIME := Date_toISOString now]>
            (<[Auth.STORAGE_KEYS.USER_SESSION := stored_json (currentUser (w_auth w))]>
               (<[Auth.STORAGE_KEYS.AUTH_TOKEN := token]> (ls_items (w_browser w)))))
  /\ (forall B,
        truthy (script_currentUser (w_script w)) = true ->
        get_prop (script_currentUser (w_script w)) "id" = Normal (VStr B) ->
        ls_items (w_browser (after Script.saveTasks w))
        = <["tasks_" +:+ B := stored_json (VArr (map VObj (tasks (w_script w))))]>
            (ls_items (w_browser w))).
Proof.
  intros Hacc now. split; [|split].
  - intros key value Ha. unfold result, after.
    rewrite (setItem_envelope w key value Ha), Hacc. split; reflexivity.
  - intros token Ht. rewrite (saveUserSession_raw w Hacc), Ht. reflexivity.
  - intros B Hu Hid. unfold after. rewrite (saveTasks_stores w B Hu Hid), Hacc. reflexivity.
Qed.

Lemma envelope_only_through_adapter_witness :
  ls_items (w_browser (after (Storage.setItem "k" (VStr "v")) (task_page ∅ "" two_tasks)))
  = {[ "k" := jsq "{'value':'v','timestamp':1700000000000,'type':'string'}" ]}
  /\ ls_items (w_browser (after Script.saveTasks (task_page ∅ "" two_tasks)))
     = {[ "tasks_admin123" := jsq "[{'id':1,'text':'mine','completed':false,'userId':'admin123'},{'id':2,'text':'legacy','completed':true,'userId':'admin123'}]" ]}.
Proof.
  destruct (envelope_only_through_adapter (task_page ∅ "" two_tasks) (fun _ _ => eq_refl))
    as (Hset & _ & Hsave).
  destruct (Hset "k" (VStr "v") eq_refl) as [_ Hk].
  rewrite Hk, (Hsave "admin123" eq_refl eq_refl). split; reflexivity.
Defined.

(** [C6] as stated fails: after a login and after saving a task list, none
    of the three stored values is an envelope; the token is not even JSON. *)
Lemma session_and_tasks_stored_without_envelope :
  envelope_shaped <$> (ls_items (w_browser logged_in_page) !! Auth.STORAGE_KEYS.AUTH_TOKEN)
  = Some false
  /\ JSON_parse <$> (ls_items (w_browser logged_in_page) !! Auth.STORAGE_KEYS.AUTH_TOKEN)
     = Some None
  /\ envelope_shaped <$> (ls_items (w_browser logged_in_page) !! Auth.STORAGE_KEYS.USER_SESSION)
     = Some false
  /\ JSON_parse <$> (ls_items (w_browser logged_in_page) !! Auth.STORAGE_KEYS.USER_SESSION)
     = Some (Some (VObj [("id", VStr "admin123"); ("username", VStr "admin");
                         ("email", VStr "admin@taskmanager.com"); ("role", VStr "admin");
                         ("isAuthenticated", VBool true);
                         ("loginTime", VStr "2023-11-14T22:13:20.002Z")]))
  /\ envelope_shaped <$>
       (ls_items (w_browser (after Script.saveTasks (task_page ∅ "" two_tasks)))
          !! "tasks_admin123") = Some false.
Proof. by_evaluation. Qed.


(** ** Reading back what JSON.stringify wrote *)

Lemma step_escape_char stack key acc c :
  run (escape_char c) (stack, MString key acc) = Some (stack, MString key (push_string acc c)).
Proof.
  destruct c as [[] [] [] [] [] [] [] []]; reflexivity.
Qed.

Lemma push_string_append acc c s : push_string acc c +:+ s = acc +:+ String c s.
Proof. unfold push_string. rewrite append_assoc. reflexivity. Qed.

Lemma run_escape stack key s : forall acc,
  run (escape s) (stack, MString key acc) = Some (stack, MString key (acc +:+ s)).
Proof.
  induction s as [|c s IH]; intros acc.
  - rewrite append_nil_r. reflexivity.
  - cbn [escape]. rewrite run_append, step_escape_char, IH, push_string_append. reflexivity.
Qed.

Lemma Number_toString_int m :
  Z.abs m < 10 ^ 21 ->
  Number_toString m 0 = (if m <? 0 then "-" else "") +:+ N_to_string (Z.to_N (Z.abs m)).
Proof.
  intros H1. unfold Number_toString.
  destruct (Z.eqb_spec m 0) as [->|Hne]; [reflexivity|].
  set (t := Z.abs m) in *.
  assert (H0 : 0 < t) by (subst t; lia).
  set (s := N_to_string (Z.to_N t)).
  pose proof (strip_zeros_spec s) as Hs.
  assert (Hlen : (String.length s <= 21)%nat).
  { subst s. unfold N_to_string.
    pose proof (N_digits_length (S (N.to_nat (N.log2 (Z.to_N t)))) (Z.to_N t) EmptyString 20) as Hl.
    simpl String.length in Hl. rewrite Nat.add_0_r in Hl. apply Hl.
    change (10 ^ N.of_nat 21)%N with (Z.to_N (10 ^ 21)). lia. }
  destruct (strip_zeros s) as [ds z]. simpl in Hs.
  rewrite Hs, length_append, length_zeros in Hlen.
  replace (Z.of_nat (String.length ds) + 0 + Z.of_nat z - Z.of_nat (String.length ds))
    with (Z.of_nat z) by lia.
  rewrite Nat2Z.id.
  destruct (Z.leb_spec (Z.of_nat (String.length ds)) (Z.of_nat (String.length ds) + 0 + Z.of_nat z));
    [|lia].
  destruct (Z.leb_spec (Z.of_nat (String.length ds) + 0 + Z.of_nat z) 21); [|lia].
  cbn [andb]. rewrite <- Hs. reflexivity.
Qed.

Lemma run_digits neg stack ds : forall m m',
  digits_value ds m = Some m' ->
  run ds (stack, MNumber NInt (num0 neg (Z.of_N m)))
  = Some (stack, MNumber NInt (num0 neg (Z.of_N m'))).
Proof.
  induction ds as [|c ds IH]; intros m m' H; simpl in H.
  - injection H as <-. reflexivity.
  - destruct (digit_value c) as [d|] eqn:Hd; [|discriminate].
    simpl. unfold step_number. rewrite Hd. cbn [num0 n_neg n_mant n_frac n_eneg n_exp].
    replace (Z.of_N m * 10 + Z.of_N d) with (Z.of_N (m * 10 + d)) by lia.
    apply (IH _ _ H).
Qed.

Lemma step_value_nonzero_digit first stack d :
  (d < 10)%N -> d <> 0%N ->
  step_value first stack (digit_char d) = Some (stack, MNumber NInt (num0 false (Z.of_N d))).
Proof.
  intros H Hne.
  assert (Hc : In d (map N.of_nat (seq 0 10))).
  { apply in_map_iff. exists (N.to_nat d). split; [lia|]. apply in_seq. lia. }
  simpl in Hc. destruct Hc as [<-|Hc]; [contradiction|].
  repeat (destruct Hc as [<-|Hc]; [reflexivity|]). destruct Hc.
Qed.

Lemma step_minus_digit stack d :
  (d < 10)%N -> d <> 0%N ->
  step_number NMinus (num0 true 0) stack (digit_char d)
  = Some (stack, MNumber NInt (num0 true (Z.of_N d))).
Proof.
  intros H Hne.
  assert (Hc : In d (map N.of_nat (seq 0 10))).
  { apply in_map_iff. exists (N.to_nat d). split; [lia|]. apply in_seq. lia. }
  simpl in Hc. destruct Hc as [<-|Hc]; [contradiction|].
  repeat (destruct Hc as [<-|Hc]; [reflexivity|]). destruct Hc.
Qed.

(** Reading the text of an integer where a value is expected leaves the
    automaton in a number state that holds the integer. *)
Lemma run_integer first stack m :
  Z.abs m < 10 ^ 21 ->
  exists s, run (Number_toString m 0) (stack, MValue first)
            = Some (stack, MNumber s (num0 (m <? 0) (Z.abs m)))
            /\ (s = NZero \/ s = NInt).
Proof.
  intros Hm. rewrite Number_toString_int by exact Hm.
  destruct (Z.eqb_spec m 0) as [->|Hne].
  { exists NZero. split; [destruct first; reflexivity | left; reflexivity]. }
  exists NInt. split; [|right; reflexivity].
  assert (Hn : Z.to_N (Z.abs m) <> 0%N) by lia.
  destruct (N_to_string_head _ Hn) as (c & r & d & Hs & Hd & Hd0).
  pose proof (digits_value_N_to_string (Z.to_N (Z.abs m))) as Hv. rewrite Hs in *.
  simpl in Hv. rewrite Hd in Hv. simpl in Hv.
  apply digit_value_inv in Hd as [Hlt ->].
  rewrite <- (Z2N.id (Z.abs m)) by lia.
  destruct (Z.ltb_spec m 0) as [Hneg|Hpos].
  - change ("-" +:+ String (digit_char d) r) with (String "-"%char (String (digit_char d) r)).
    cbn [run]. 
    assert (Hminus : step (stack, MValue first) "-"%char
                     = Some (stack, MNumber NMinus (num0 true 0))) by (destruct first; reflexivity).
    rewrite Hminus. cbn [step]. rewrite (step_minus_digit stack d Hlt Hd0).
    apply run_digits, Hv.
  - rewrite append_nil_l. cbn [run step].
    rewrite (step_value_nonzero_digit first stack d Hlt Hd0).
    apply run_digits, Hv.
Qed.

Lemma jsval_induction (P : jsval -> Prop) :
  P VUndefined -> P VNull -> (forall b, P (VBool b)) -> (forall m e, P (VNum m e)) ->
  (forall s, P (VStr s)) ->
  (forall l, Forall P l -> P (VArr l)) ->
  (forall o, Forall (fun kv => P (snd kv)) o -> P (VObj o)) ->
  forall v, P v.
Proof.
  intros Hu Hn Hb Hnum Hs Ha Ho.
  fix IH 1. intros [| |b|m e|s|l|o].
  - exact Hu.
  - exact Hn.
  - apply Hb.
  - apply Hnum.
  - apply Hs.
  - apply Ha. induction l as [|x r IHl]; constructor; [apply IH | exact IHl].
  - apply Ho. induction o as [|[k x] r IHo]; constructor; [apply IH | exact IHo].
Qed.

Lemma jsval_eqb_eq a : forall b, jsval_eqb a b = true -> a = b.
Proof.
  induction a as [| |x|m e|s|l IH|o IH] using jsval_induction; intros [| |y|m' e'|s'|l'|o'] H;
    try discriminate H; try reflexivity.
  - apply Bool.eqb_prop in H. congruence.
  - simpl in H. apply andb_prop in H as [H1 H2].
    apply Z.eqb_eq in H1. apply Z.eqb_eq in H2. congruence.
  - apply String.eqb_eq in H. congruence.
  - f_equal. cbn [jsval_eqb] in H. revert l' H.
    induction IH as [|x r Hx _ IHr]; intros [|y r'] H; try discriminate H; [reflexivity|].
    apply andb_prop in H as [H1 H2]. f_equal; [apply Hx, H1 | apply IHr, H2].
  - f_equal. cbn [jsval_eqb] in H. revert o' H.
    induction IH as [|[k x] r Hx _ IHr]; intros [|[k' y] r'] H; try discriminate H; [reflexivity|].
    apply andb_prop in H as [H1 H2]. apply andb_prop in H1 as [H0 H1].
    apply String.eqb_eq in H0. cbn [snd] in Hx. f_equal; [f_equal; [exact H0 | apply Hx, H1] | apply IHr, H2].
Qed.

Lemma serialize_array l : serialize (VArr l) = Some ("[" +:+ items_text l +:+ "]").
Proof. reflexivity. Qed.

Lemma serialize_object o : serialize (VObj o) = Some ("{" +:+ members_text true o +:+ "}").
Proof. reflexivity. Qed.

Lemma json_faithful_serialize v : json_faithful v = true -> serialize v = Some (stored_json v).
Proof. unfold stored_json. destruct v; try reflexivity. discriminate. Qed.

(** A state that holds the complete value continues as after the value. *)
Lemma completed_value v stack st :
  complete v stack = Some st ->
  (forall c, step st c = after_value v stack c) /\ (stack = [] -> finish st = Some v).
Proof.
  intros H. unfold after_value. rewrite H.
  destruct stack as [|[done|done [k|]] r]; simpl in H; try discriminate H;
    injection H as <-; split; try reflexivity; intros E; try discriminate E; reflexivity.
Qed.

Lemma complete_value_position v stack :
  value_position stack = true -> exists st, complete v stack = Some st.
Proof.
  destruct stack as [|[done|done [k|]] r]; intros H; try discriminate H; eexists; reflexivity.
Qed.

Lemma reads_completed text v :
  (forall stack first, value_position stack = true ->
     run text (stack, MValue first) = complete v stack) ->
  reads_as text v.
Proof.
  intros H stack first Hp. destruct (complete_value_position v stack Hp) as [st Hst].
  exists st. rewrite H, Hst by exact Hp. split; [reflexivity|].
  destruct (completed_value v stack st Hst) as [Hs Hf]. split; [intros c _; apply Hs | exact Hf].
Qed.

Lemma reads_literal v :
  match v with VNull | VBool _ => True | _ => False end -> reads_as (stored_json v) v.
Proof.
  intros Hv. apply reads_completed. intros stack first Hp.
  destruct v as [| |[]| | | |]; try destruct Hv;
    destruct stack as [|[done|done [k|]] r]; try discriminate Hp; destruct first; reflexivity.
Qed.

Lemma run_quote_value s stack first :
  run (quote s) (stack, MValue first) = complete (VStr s) stack.
Proof.
  unfold quote. cbn [run].
  replace (step (stack, MValue first) dquote) with (Some (stack, MString false EmptyString))
    by (destruct first; reflexivity).
  rewrite run_append, run_escape, append_nil_l. cbn [run step].
  change (Ascii.eqb dquote dquote) with true. cbv iota. unfold complete_string.
  destruct (complete (VStr s) stack); reflexivity.
Qed.

Lemma run_quote_key k done stack first :
  run (quote k) (FObj done None :: stack, MKey first)
  = Some (FObj done (Some k) :: stack, MColon).
Proof.
  unfold quote. cbn [run].
  replace (step (FObj done None :: stack, MKey first) dquote)
    with (Some (FObj done None :: stack, MString true EmptyString)) by reflexivity.
  rewrite run_append, run_escape, append_nil_l. reflexivity.
Qed.

Lemma reads_string s : reads_as (stored_json (VStr s)) (VStr s).
Proof. apply reads_completed. intros stack first _. apply run_quote_value. Qed.

Lemma delimiter_number c : delimiter c = true ->
  digit_value c = None /\ Ascii.eqb c "."%char = false
  /\ Ascii.eqb c "e"%char || Ascii.eqb c "E"%char = false.
Proof.
  unfold delimiter. intros H.
  destruct (Ascii.eqb c ","%char) eqn:E1; [apply Ascii.eqb_eq in E1; subst c; repeat split|].
  destruct (Ascii.eqb c "]"%char) eqn:E2; [apply Ascii.eqb_eq in E2; subst c; repeat split|].
  destruct (Ascii.eqb c "}"%char) eqn:E3; [apply Ascii.eqb_eq in E3; subst c; repeat split|].
  discriminate H.
Qed.

Lemma reads_integer m : Z.abs m < 10 ^ 21 -> reads_as (stored_json (VInt m)) (VInt m).
Proof.
  intros Hm stack first Hp. change (stored_json (VInt m)) with (Number_toString m 0).
  destruct (run_integer first stack m Hm) as (s & Hrun & Hs).
  eexists. split; [exact Hrun|].
  assert (Hv : num_value (num0 (m <? 0) (Z.abs m)) = VInt m).
  { unfold num_value, num0, VInt. cbn [n_neg n_mant n_eneg n_exp n_frac].
    destruct (Z.ltb_spec m 0); f_equal; lia. }
  split.
  - intros c Hc. destruct (delimiter_number c Hc) as (Hd & Hdot & He).
    unfold after_value. rewrite <- Hv.
    destruct Hs as [-> | ->]; cbn [step]; unfold step_number, finish_number;
      rewrite ?Hd, Hdot, He; reflexivity.
  - intros ->. cbn [finish]. rewrite Hv. destruct Hs as [-> | ->]; reflexivity.
Qed.

Lemma run_one c st : run (String c EmptyString) st = step st c.
Proof. simpl. destruct (step st c); reflexivity. Qed.

Lemma run_resume st st' c rest :
  delimiter c = true -> (forall c, delimiter c = true -> step st c = step st' c) ->
  run (String c rest) st = run (String c rest) st'.
Proof. intros Hc H. cbn [run]. rewrite (H c Hc). reflexivity. Qed.

Lemma json_faithful_text x : json_faithful x = true ->
  match serialize x with Some t => t | None => "null" end = stored_json x.
Proof. intros H. rewrite (json_faithful_serialize x H). reflexivity. Qed.

Lemma items_run l :
  Forall (fun x => json_faithful x = true -> reads_as (stored_json x) x) l ->
  forallb json_faithful l = true -> l <> [] ->
  forall done stack first,
    run (items_text l +:+ "]") (FArr done :: stack, MValue first)
    = complete (VArr (rev done ++ l)) stack.
Proof.
  induction 1 as [|x r Hx _ IH]; intros Hall Hne done stack first; [contradiction|].
  cbn [forallb] in Hall. apply andb_prop in Hall as [Hfx Hfr].
  destruct (Hx Hfx (FArr done :: stack) first eq_refl) as (st & Hrun & Hstep & _).
  cbn [items_text]. rewrite (json_faithful_text x Hfx).
  destruct r as [|y r'].
  - rewrite run_append, Hrun, run_one, Hstep by reflexivity. reflexivity.
  - rewrite !append_assoc, run_append, Hrun.
    change ("," +:+ items_text (y :: r') +:+ "]")
      with (String ","%char (items_text (y :: r') +:+ "]")).
    cbn [run]. rewrite Hstep by reflexivity.
    change (after_value x (FArr done :: stack) ","%char)
      with (Some (FArr (x :: done) :: stack, MValue false)).
    cbv iota beta.
    rewrite (IH Hfr ltac:(discriminate) (x :: done) stack false).
    cbn [rev]. rewrite <- app_assoc. reflexivity.
Qed.

Lemma members_delimiter r :
  exists c rest, members_text false r +:+ "}" = String c rest /\ delimiter c = true.
Proof.
  induction r as [|[k x] r IH]; [exists "}"%char, EmptyString; split; reflexivity|].
  cbn [members_text]. destruct (serialize x); [|exact IH].
  eexists ","%char, _. split; reflexivity.
Qed.

Lemma member_run k x r done stack first :
  reads_as (stored_json x) x ->
  run (quote k +:+ ":" +:+ stored_json x +:+ members_text false r +:+ "}")
      (FObj done None :: stack, MKey first)
  = run (members_text false r +:+ "}") (FObj (obj_set k x done) None :: stack, MAfter).
Proof.
  intros Hx. rewrite run_append, run_quote_key.
  change (":" +:+ stored_json x +:+ members_text false r +:+ "}")
    with (String ":"%char (stored_json x +:+ members_text false r +:+ "}")).
  cbn [run]. 
  change (step (FObj done (Some k) :: stack, MColon) ":"%char)
    with (Some (FObj done (Some k) :: stack, MValue false)).
  destruct (Hx (FObj done (Some k) :: stack) false eq_refl) as (st & Hrun & Hstep & _).
  rewrite run_append, Hrun.
  destruct (members_delimiter r) as (c & rest & -> & Hc).
  apply run_resume; [exact Hc|]. intros c' Hc'. rewrite (Hstep c' Hc'). reflexivity.
Qed.

Lemma members_run o :
  Forall (fun kv => json_faithful (snd kv) = true -> reads_as (stored_json (snd kv)) (snd kv)) o ->
  forallb (fun kv => json_faithful (snd kv)) o = true ->
  forall done stack,
    run (members_text false o +:+ "}") (FObj done None :: stack, MAfter)
    = complete (VObj (define_all o done)) stack.
Proof.
  induction 1 as [|[k x] r Hx _ IH]; intros Hall done stack.
  - apply run_one.
  - cbn [forallb snd] in Hall, Hx. apply andb_prop in Hall as [Hfx Hfr].
    cbn [members_text]. rewrite (json_faithful_serialize x Hfx).
    rewrite !append_assoc.
    change ("," +:+ quote k +:+ ":" +:+ stored_json x +:+ members_text false r +:+ "}")
      with (String ","%char
              (quote k +:+ ":" +:+ stored_json x +:+ members_text false r +:+ "}")).
    cbn [run].
    change (step (FObj done None :: stack, MAfter) ","%char)
      with (Some (FObj done None :: stack, MKey false)).
    cbv iota beta.
    rewrite (member_run k x r done stack false (Hx Hfx)).
    apply (IH Hfr).
Qed.

(** The automaton reads back every faithful value from its JSON text. *)
Lemma reads_stringified v : json_faithful v = true -> reads_as (stored_json v) v.
Proof.
  induction v as [| |b|m e|s|l IH|o IH] using jsval_induction; intros Hf.
  - discriminate Hf.
  - apply reads_literal. exact I.
  - apply reads_literal. exact I.
  - cbn [json_faithful] in Hf. apply andb_prop in Hf as [He Hm].
    apply Z.eqb_eq in He. subst e. apply reads_integer. apply Z.ltb_lt, Hm.
  - apply reads_string.
  - apply reads_completed. intros stack first Hp.
    change (stored_json (VArr l)) with ("[" +:+ items_text l +:+ "]").
    change ("[" +:+ items_text l +:+ "]") with (String "["%char (items_text l +:+ "]")).
    cbn [run].
    replace (step (stack, MValue first) "["%char) with (Some (FArr [] :: stack, MValue true))
      by (destruct first; reflexivity).
    destruct l as [|x r].
    + rewrite append_nil_l, run_one. reflexivity.
    + apply (items_run (x :: r) IH Hf ltac:(discriminate) [] stack true).
  - cbn [json_faithful] in Hf. apply andb_prop in Hf as [Hall Horder].
    apply jsval_eqb_eq in Horder. injection Horder as Horder.
    apply reads_completed. intros stack first Hp.
    change (stored_json (VObj o)) with ("{" +:+ members_text true o +:+ "}").
    change ("{" +:+ members_text true o +:+ "}")
      with (String "{"%char (members_text true o +:+ "}")).
    cbn [run].
    replace (step (stack, MValue first) "{"%char) with (Some (FObj [] None :: stack, MKey true))
      by (destruct first; reflexivity).
    rewrite <- Horder at 2. unfold object_literal. fold (define_all o []).
    destruct o as [|[k x] r].
    + rewrite append_nil_l, run_one. reflexivity.
    + inversion IH as [|? ? Hx Hr]; subst.
      cbn [forallb snd] in Hall, Hx. apply andb_prop in Hall as [Hfx Hfr].
      cbn [members_text]. rewrite (json_faithful_serialize x Hfx).
      rewrite append_nil_l, !append_assoc.
      rewrite (member_run k x r [] stack true (Hx Hfx)).
      apply (members_run r Hr Hfr).
Qed.

Lemma JSON_parse_stringified v :
  json_faithful v = true -> JSON_parse (stored_json v) = Some v.
Proof.
  intros Hf. unfold JSON_parse.
  destruct (reads_stringified v Hf [] false eq_refl) as (st & -> & _ & Hfin).
  apply Hfin. reflexivity.
Qed.

(** ** Deleting, toggling and filtering *)

(** The common tail of the handlers that change the list: the new list is
    stored, then rendered; a failure to render ends the handler. *)
Lemma store_and_render {A} l (k : M A) w :
  (Script.set_tasks l ;;; Script.saveTasks ;;; Script.renderTasks ;;; Script.updateCounts ;;; k) w
  = match fst (Script.renderTasks (saved_with l w)) with
    | Normal _ => k (saved_with l w)
    | Throw e => (Throw e, saved_with l w)
    end.
Proof.
  unfold saved_with, after, with_tasks, Script.set_tasks, Script.updateCounts.
  unfold bind at 1. unfold modify at 1. unfold bind at 1.
  pose proof (saveTasks_normal
    (set_script (fun s => mkScript l (currentFilter s) (script_currentUser s)) w)) as [Hs _].
  destruct (Script.saveTasks _) as [c saved]. simpl in Hs. subst c. cbn [snd].
  unfold bind at 1. pose proof (renderTasks_state saved) as Hr.
  destruct (Script.renderTasks saved) as [c w']. simpl in Hr. subst w'. cbn [fst].
  destruct c; reflexivity.
Qed.

Lemma saved_with_script l w : w_script (saved_with l w) = w_script (with_tasks l w).
Proof. unfold saved_with, after. apply saveTasks_normal. Qed.

Lemma saved_with_auth l w : w_auth (saved_with l w) = w_auth w.
Proof. unfold saved_with, after. rewrite (proj2 (proj2 (saveTasks_normal _))). reflexivity. Qed.

Lemma saved_with_trace l w : trace (w_browser (saved_with l w)) = trace (w_browser w).
Proof. unfold saved_with, after. rewrite saveTasks_stores_trace. reflexivity. Qed.

Lemma saved_with_items l w B :
  truthy (script_currentUser (w_script w)) = true ->
  get_prop (script_currentUser (w_script w)) "id" = Normal (VStr B) ->
  ls_items (w_browser (saved_with l w))
  = if ls_accepts (w_browser w) (tasks_key B) (tasks_json l)
    then <[tasks_key B := tasks_json l]> (ls_items (w_browser w))
    else ls_items (w_browser w).
Proof.
  intros Ht Hid. unfold saved_with, after.
  rewrite (saveTasks_stores (with_tasks l w) B Ht Hid).
  cbn [snd with_tasks set_script w_browser w_script tasks]. unfold tasks_key.
  destruct (ls_accepts _ _ _); reflexivity.
Qed.

Lemma handleDeleteTask_unfold taskId w :
  let list := tasks (w_script w) in
  let rest := List.filter (fun t => negb (Script.has_id taskId t)) list in
  let taskText := match List.find (Script.has_id taskId) list with
                  | Some t => obj_get t "text"
                  | None => VStr ""
                  end in
  Script.handleDeleteTask taskId w
  = match fst (Script.renderTasks (saved_with rest w)) with
    | Normal _ =>
        match to_string taskText with
        | Normal text =>
            (Normal tt,
             set_browser (with_event (Announce (deleted_message text))) (saved_with rest w))
        | Throw e => (Throw e, saved_with rest w)
        end
    | Throw e => (Throw e, saved_with rest w)
    end.
Proof.
  intros list rest taskText. unfold Script.handleDeleteTask.
  unfold bind at 1. unfold gets at 1. fold list. fold rest. fold taskText.
  rewrite store_and_render.
  destruct (fst (Script.renderTasks _)); [|reflexivity].
  unfold bind, ToString, lift, Script.announceToScreenReader, emit, modify.
  destruct (to_string taskText); reflexivity.
Qed.

Lemma filter_idempotent {A} (p : A -> bool) l : List.filter p (List.filter p l) = List.filter p l.
Proof.
  induction l as [|x l IH]; [reflexivity|]. simpl.
  destruct (p x) eqn:E; simpl; [rewrite E, IH|]; auto.
Qed.

Lemma handleDeleteTask_tasks taskId w :
  tasks (w_script (after (Script.handleDeleteTask taskId) w))
  = List.filter (fun t => negb (Script.has_id taskId t)) (tasks (w_script w)).
Proof.
  unfold after. rewrite handleDeleteTask_unfold.
  repeat break_match; cbn [snd set_browser w_script]; rewrite saved_with_script; reflexivity.
Qed.

Lemma filter_all_false {A} (p : A -> bool) l :
  existsb p l = false -> List.filter (fun x => negb (p x)) l = l.
Proof.
  induction l as [|x l IH]; [reflexivity|]. simpl.
  destruct (p x); simpl; [discriminate|]. intros H. rewrite (IH H). reflexivity.
Qed.

Lemma find_none_existsb {A} (p : A -> bool) l : List.find p l = None -> existsb p l = false.
Proof.
  induction l as [|x l IH]; [reflexivity|]. simpl. destruct (p x); [discriminate | exact IH].
Qed.

(** X1.  [handleDeleteTask(taskId)] removes every record whose id is
    [taskId] and keeps the others in their order; it asks for no
    confirmation and does not look at the session.  The remaining list is
    written under the key of the current user.  When no record has the id
    the list stays as it is, yet the list is written and a deletion is
    announced, with an empty text.  A second call with the same id removes
    nothing more. *)
Theorem handleDeleteTask_removes (w : world) (taskId : jsval) (B : string) :
  let w' := after (Script.handleDeleteTask taskId) w in
  let rest := List.filter (fun t => negb (Script.has_id taskId t)) (tasks (w_script w)) in
  truthy (script_currentUser (w_script w)) = true ->
  get_prop (script_currentUser (w_script w)) "id" = Normal (VStr B) ->
  tasks (w_script w') = rest
  /\ Forall (fun t => Script.has_id taskId t = false) (tasks (w_script w'))
  /\ w_auth w' = w_auth w
  /\ (ls_accepts (w_browser w) (tasks_key B) (tasks_json rest) = true ->
      ls_items (w_browser w') = <[tasks_key B := tasks_json rest]> (ls_items (w_browser w)))
  /\ (List.find (Script.has_id taskId) (tasks (w_script w)) = None ->
      tasks (w_script w') = tasks (w_script w)
      /\ (result (Script.handleDeleteTask taskId) w = Normal tt ->
          trace (w_browser w') = trace (w_browser w) ++ [Announce (deleted_message "")]))
  /\ tasks (w_script (after (Script.handleDeleteTask taskId) w')) = tasks (w_script w').
Proof.
  intros w' rest Ht Hid.
  assert (Htasks : tasks (w_script w') = rest) by apply handleDeleteTask_tasks.
  split; [exact Htasks|]. split.
  { rewrite Htasks. apply List.Forall_forall. intros t Hin. apply filter_In in Hin as [_ Hn].
    apply negb_true_iff, Hn. }
  split.
  { subst w'. unfold after. rewrite handleDeleteTask_unfold.
    repeat break_match; cbn [snd set_browser w_auth]; apply saved_with_auth. }
  split.
  { intros Hacc. subst w'. unfold after. rewrite handleDeleteTask_unfold.
    pose proof (saved_with_items rest w B Ht Hid) as Hi. fold rest. rewrite Hacc in Hi.
    repeat break_match; cbn [snd set_browser w_browser with_event ls_items]; exact Hi. }
  split.
  { intros Hnone. split.
    - rewrite Htasks. apply filter_all_false, find_none_existsb, Hnone.
    - subst w'. unfold result, after. rewrite handleDeleteTask_unfold, Hnone. fold rest.
      cbn [to_string].
      destruct (fst (Script.renderTasks _)); [|discriminate]. intros _.
      cbn [snd set_browser w_browser with_event trace]. rewrite saved_with_trace. reflexivity. }
  rewrite handleDeleteTask_tasks, Htasks. apply filter_idempotent.
Qed.

Lemma handleDeleteTask_removes_witness :
  tasks (w_script (after (Script.handleDeleteTask (VInt 2)) (task_page ∅ "" two_tasks)))
  = [ [("id", VInt 1); ("text", VStr "mine"); ("completed", VBool false);
       ("userId", VStr "admin123")] ].
Proof.
  destruct (handleDeleteTask_removes (task_page ∅ "" two_tasks) (VInt 2) "admin123")
    as (H & _); [reflexivity | reflexivity | exact H].
Defined.

Lemma obj_get_replace_other k k' v o : k <> k' -> obj_get (obj_replace k v o) k' = obj_get o k'.
Proof.
  intros Hne. induction o as [|[k0 v0] o IH]; [reflexivity|]. simpl.
  destruct (String.eqb_spec k0 k) as [->|H0]; simpl.
  - destruct (String.eqb_spec k k'); [contradiction | reflexivity].
  - rewrite IH. reflexivity.
Qed.

Lemma obj_get_insert_index_other i k k' v o :
  k <> k' -> obj_get (obj_insert_index i k v o) k' = obj_get o k'.
Proof.
  intros Hne. induction o as [|[k0 v0] o IH]; simpl.
  - destruct (String.eqb_spec k k'); [contradiction | reflexivity].
  - destruct (array_index k0) as [j|]; [destruct (j <? i)%N|]; simpl;
      try rewrite IH; try reflexivity;
      destruct (String.eqb_spec k k'); try contradiction; reflexivity.
Qed.

Lemma obj_get_append_other k k' v o : k <> k' -> obj_get (o ++ [(k, v)]) k' = obj_get o k'.
Proof.
  intros Hne. induction o as [|[k0 v0] o IH]; simpl.
  - destruct (String.eqb_spec k k'); [contradiction | reflexivity].
  - rewrite IH. reflexivity.
Qed.

(** Assigning a property leaves the other properties as they are. *)
Lemma obj_get_set_other k k' v o : k <> k' -> obj_get (obj_set k v o) k' = obj_get o k'.
Proof.
  intros Hne. unfold obj_set. destruct (has_own o k).
  - apply obj_get_replace_other, Hne.
  - destruct (array_index k);
      [apply obj_get_insert_index_other | apply obj_get_append_other]; exact Hne.
Qed.

Lemma obj_get_has_own o k : obj_get o k <> VUndefined -> has_own o k = true.
Proof.
  induction o as [|[k0 v0] o IH]; simpl; [congruence|].
  destruct (String.eqb k0 k); [reflexivity | exact IH].
Qed.

Lemma has_own_replace k v o : has_own (obj_replace k v o) k = has_own o k.
Proof.
  induction o as [|[k0 v0] o IH]; [reflexivity|]. simpl.
  destruct (String.eqb_spec k0 k) as [->|H0]; simpl.
  - rewrite String.eqb_refl. reflexivity.
  - destruct (String.eqb_spec k0 k); [contradiction | exact IH].
Qed.

Lemma obj_replace_replace k v v' o : obj_replace k v (obj_replace k v' o) = obj_replace k v o.
Proof.
  induction o as [|[k0 v0] o IH]; [reflexivity|]. simpl.
  destruct (String.eqb_spec k0 k) as [->|H0]; simpl.
  - rewrite String.eqb_refl. reflexivity.
  - destruct (String.eqb_spec k0 k); [contradiction|]. rewrite IH. reflexivity.
Qed.

Lemma obj_replace_same k o : obj_replace k (obj_get o k) o = o.
Proof.
  induction o as [|[k0 v0] o IH]; [reflexivity|]. simpl.
  destruct (String.eqb_spec k0 k) as [->|H0]; [reflexivity|]. rewrite IH. reflexivity.
Qed.

(** Assigning a property its own value changes nothing. *)
Lemma obj_set_same k v o : has_own o k = true -> obj_get o k = v -> obj_set k v o = o.
Proof.
  intros H <-. unfold obj_set. rewrite H. apply obj_replace_same.
Qed.

Lemma completed_toggle task : Script.completed (Script.toggle task) = negb (Script.completed task).
Proof.
  unfold Script.completed, Script.toggle. rewrite obj_get_set. reflexivity.
Qed.

Lemma toggle_other task k : k <> "completed" -> obj_get (Script.toggle task) k = obj_get task k.
Proof. intros H. unfold Script.toggle. apply obj_get_set_other. congruence. Qed.

Lemma has_id_toggle taskId task : Script.has_id taskId (Script.toggle task) = Script.has_id taskId task.
Proof. unfold Script.has_id. rewrite toggle_other by discriminate. reflexivity. Qed.

Lemma toggle_toggle task b :
  obj_get task "completed" = VBool b -> Script.toggle (Script.toggle task) = task.
Proof.
  intros Hb. assert (Hown : has_own task "completed" = true).
  { apply obj_get_has_own. rewrite Hb. discriminate. }
  unfold Script.toggle. rewrite obj_get_set, Hb. cbn [truthy]. rewrite negb_involutive.
  unfold obj_set. rewrite Hown, has_own_replace, Hown, obj_replace_replace, <- Hb.
  apply obj_replace_same.
Qed.

Lemma update_first_split (p : obj -> bool) f l x :
  List.find p l = Some x ->
  exists before after,
    l = before ++ x :: after
    /\ Forall (fun y => p y = false) before
    /\ Script.update_first p f l = before ++ f x :: after.
Proof.
  induction l as [|y l IH]; [discriminate|]. simpl.
  destruct (p y) eqn:E.
  - intros H. injection H as <-. exists [], l. repeat split. constructor.
  - intros H. destruct (IH H) as (b & a & -> & Hb & Hu).
    exists (y :: b), a. rewrite Hu. repeat split. constructor; assumption.
Qed.

Lemma handleToggleTask_absent taskId w :
  List.find (Script.has_id taskId) (tasks (w_script w)) = None ->
  Script.handleToggleTask taskId w = (Normal tt, w).
Proof.
  intros H. unfold Script.handleToggleTask. unfold bind at 1. unfold gets at 1.
  rewrite H. reflexivity.
Qed.

Lemma handleToggleTask_present taskId task w :
  List.find (Script.has_id taskId) (tasks (w_script w)) = Some task ->
  let list := Script.update_first (Script.has_id taskId) Script.toggle (tasks (w_script w)) in
  Script.handleToggleTask taskId w
  = match fst (Script.renderTasks (saved_with list w)) with
    | Normal _ =>
        match to_string (obj_get task "text") with
        | Normal text =>
            (Normal tt,
             set_browser (with_event
               (Announce (toggled_message text (negb (Script.completed task)))))
               (saved_with list w))
        | Throw e => (Throw e, saved_with list w)
        end
    | Throw e => (Throw e, saved_with list w)
    end.
Proof.
  intros H list. unfold Script.handleToggleTask. unfold bind at 1. unfold gets at 1.
  rewrite H. rewrite store_and_render. fold list.
  destruct (fst (Script.renderTasks _)); [|reflexivity].
  unfold bind, ToString, lift, Script.announceToScreenReader, emit, modify.
  rewrite toggle_other by discriminate. rewrite completed_toggle.
  destruct (to_string (obj_get task "text")); reflexivity.
Qed.

Lemma handleToggleTask_tasks taskId task w :
  List.find (Script.has_id taskId) (tasks (w_script w)) = Some task ->
  tasks (w_script (after (Script.handleToggleTask taskId) w))
  = Script.update_first (Script.has_id taskId) Script.toggle (tasks (w_script w)).
Proof.
  intros H. unfold after. rewrite (handleToggleTask_present taskId task w H).
  repeat break_match; cbn [snd set_browser w_script]; rewrite saved_with_script; reflexivity.
Qed.

Lemma find_app_first (p : obj -> bool) before x rest :
  Forall (fun y => p y = false) before -> p x = true ->
  List.find p (before ++ x :: rest) = Some x.
Proof.
  induction 1 as [|y b Hy _ IH]; intros Hx; simpl; [rewrite Hx; reflexivity|].
  rewrite Hy. apply IH, Hx.
Qed.

Lemma update_first_app (p : obj -> bool) f before x rest :
  Forall (fun y => p y = false) before -> p x = true ->
  Script.update_first p f (before ++ x :: rest) = before ++ f x :: rest.
Proof.
  induction 1 as [|y b Hy _ IH]; intros Hx; simpl; [rewrite Hx; reflexivity|].
  rewrite Hy, IH by exact Hx. reflexivity.
Qed.

(** X2.  [handleToggleTask(taskId)] does nothing at all when no record has
    the id.  Otherwise it negates the [completed] flag of the first record
    with the id, and of that record only: its other properties, the records
    before and after it (also later records with the same id) and their
    order stay; the record keeps its place.  The session is not consulted.
    A second call brings the flag back; a record whose flag was a boolean
    is then exactly as before. *)
Theorem handleToggleTask_first_match (w : world) (taskId : jsval) :
  let w' := after (Script.handleToggleTask taskId) w in
  (List.find (Script.has_id taskId) (tasks (w_script w)) = None ->
   Script.handleToggleTask taskId w = (Normal tt, w))
  /\ (forall task, List.find (Script.has_id taskId) (tasks (w_script w)) = Some task ->
      exists before rest,
        tasks (w_script w) = before ++ task :: rest
        /\ Forall (fun t => Script.has_id taskId t = false) before
        /\ tasks (w_script w') = before ++ Script.toggle task :: rest
        /\ Script.completed (Script.toggle task) = negb (Script.completed task)
        /\ (forall k, k <> "completed" -> obj_get (Script.toggle task) k = obj_get task k)
        /\ w_auth w' = w_auth w
        /\ tasks (w_script (after (Script.handleToggleTask taskId) w'))
           = before ++ Script.toggle (Script.toggle task) :: rest
        /\ (forall b, obj_get task "completed" = VBool b ->
            tasks (w_script (after (Script.handleToggleTask taskId) w')) = tasks (w_script w))).
Proof.
  intros w'. split; [apply handleToggleTask_absent|].
  intros task Hfind.
  destruct (update_first_split _ Script.toggle _ _ Hfind) as (before & rest & Hl & Hb & Hu).
  assert (Hid : Script.has_id taskId task = true).
  { apply find_some in Hfind. apply Hfind. }
  assert (Htasks : tasks (w_script w') = before ++ Script.toggle task :: rest).
  { subst w'. rewrite (handleToggleTask_tasks taskId task w Hfind). exact Hu. }
  assert (Hfind' : List.find (Script.has_id taskId) (tasks (w_script w'))
                   = Some (Script.toggle task)).
  { rewrite Htasks. apply find_app_first; [exact Hb|]. rewrite has_id_toggle. exact Hid. }
  assert (Htwice : tasks (w_script (after (Script.handleToggleTask taskId) w'))
                   = before ++ Script.toggle (Script.toggle task) :: rest).
  { rewrite (handleToggleTask_tasks taskId _ w' Hfind'), Htasks.
    apply update_first_app; [exact Hb|]. rewrite has_id_toggle. exact Hid. }
  exists before, rest. split; [exact Hl|]. split; [exact Hb|]. split; [exact Htasks|].
  split; [apply completed_toggle|]. split; [intros k Hk; apply toggle_other, Hk|].
  split.
  { subst w'. unfold after. rewrite (handleToggleTask_present taskId task w Hfind).
    repeat break_match; cbn [snd set_browser w_auth]; apply saved_with_auth. }
  split; [exact Htwice|].
  intros b Hflag. rewrite Htwice, (toggle_toggle task b Hflag). symmetry. exact Hl.
Qed.

Lemma handleToggleTask_first_match_witness :
  tasks (w_script (after (Script.handleToggleTask (VInt 1)) (task_page ∅ "" two_tasks)))
  = [ [("id", VInt 1); ("text", VStr "mine"); ("completed", VBool true);
       ("userId", VStr "admin123")];
      [("id", VInt 2); ("text", VStr "legacy"); ("completed", VBool true);
       ("userId", VStr "admin123")] ].
Proof.
  destruct (handleToggleTask_first_match (task_page ∅ "" two_tasks) (VInt 1)) as [_ H].
  destruct (H (nth 0 two_tasks []) eq_refl) as (before & rest & Hl & Hb & Ht & _).
  rewrite Ht. destruct before as [|x before].
  - injection Hl as Hr. rewrite <- Hr. reflexivity.
  - exfalso. injection Hl as Hx _. apply Forall_cons_iff in Hb as [Hid _].
    rewrite <- Hx in Hid. discriminate Hid.
Defined.

(** ** Logging out *)

Ltac project_state :=
  cbv beta iota zeta delta
    [set_auth set_browser set_script set_storage with_items with_event with_tick with_input
     w_browser w_auth w_script w_storage ls_items ls_accepts clock clock_reads pathname
     taskInput_value trace currentUser authToken tasks currentFilter script_currentUser
     fst snd].

Lemma logout_unfold w : Auth.logout w = (Normal tt, logged_out w).
Proof.
  destruct w as [[items accepts clk reads path input tr] a s st].
  unfold Auth.logout, Auth.set_currentUser, Auth.set_authToken, Auth.clearUserSession,
    Auth.announceToScreenReader, Auth.redirectToLogin, localStorage_removeItem, emit.
  unfold try_catch, bind, gets, ret, modify, logged_out, logout_events, without_session.
  project_state.
  destruct (includes path "login.html") eqn:E; cbn [negb]; project_state;
    rewrite ?E; cbn [negb]; project_state; rewrite <- ?app_assoc; reflexivity.
Qed.

Lemma without_session_lookup items k :
  without_session items !! k = if bool_decide (k ∈ session_keys) then None else items !! k.
Proof.
  unfold without_session, session_keys.
  destruct (decide (k = Auth.STORAGE_KEYS.LOGIN_TIME)) as [->|H3].
  { rewrite lookup_delete_eq. reflexivity. }
  rewrite lookup_delete_ne by congruence.
  destruct (decide (k = Auth.STORAGE_KEYS.USER_SESSION)) as [->|H2].
  { rewrite lookup_delete_eq. reflexivity. }
  rewrite lookup_delete_ne by congruence.
  destruct (decide (k = Auth.STORAGE_KEYS.AUTH_TOKEN)) as [->|H1].
  { rewrite lookup_delete_eq. reflexivity. }
  rewrite lookup_delete_ne by congruence.
  rewrite bool_decide_eq_false_2; [reflexivity|].
  rewrite !elem_of_cons, elem_of_nil. tauto.
Qed.

(** X3.  [logout] always completes.  Afterwards nobody is authenticated and
    the session cannot be validated; the three session entries are gone
    from the store while every other entry, the stored task lists among
    them, is as before; the variables of script.js (its copy of the user
    and the loaded tasks) are not reset.  The logout is announced once, and
    the browser is sent to the login page unless it is there already. *)
Theorem logout_clears_session_only (w : world) :
  let w' := after Auth.logout w in
  result Auth.logout w = Normal tt
  /\ result Auth.isAuthenticated w' = Normal false
  /\ Auth.validateSession w' = (Normal false, w')
  /\ (forall k, ls_items (w_browser w') !! k
               = if bool_decide (k ∈ session_keys) then None else ls_items (w_browser w) !! k)
  /\ w_script w' = w_script w
  /\ trace (w_browser w')
     = trace (w_browser w) ++ logout_events (pathname (w_browser w)).
Proof.
  intros w'. subst w'. unfold result, after. rewrite logout_unfold. cbn [fst snd].
  split; [reflexivity|]. split; [reflexivity|]. split; [reflexivity|].
  split; [|split; reflexivity].
  intros k. apply without_session_lookup.
Qed.

(** ** Session validation, case by case *)


Lemma validateSession_unfold w t :
  truthy (currentUser (w_auth w)) = true -> authToken (w_auth w) = Some t -> t <> "" ->
  Auth.validateSession w =
  match split "."%char t with
  | [_; p; _] =>
      match atob p with
      | Some text =>
          match JSON_parse text with
          | Some payload =>
              match cbind (get_prop payload "exp")
                      (int_gt (clock (w_browser w) (clock_reads (w_browser w)))) with
              | Normal false => (Normal true, tick w)
              | _ => (Normal false, logged_out (tick w))
              end
          | None => (Normal false, logged_out w)
          end
      | None => (Normal false, logged_out w)
      end
  | _ => (Normal false, logged_out w)
  end.
Proof.
  intros Hu Ht Hne.
  unfold Auth.validateSession, Date_now, ToString, atob_M, JSON_parse_M.
  unfold try_catch, bind, gets, ret, lift, throw.
  rewrite Hu, Ht. cbn [Auth.token_value truthy to_string].
  destruct (String.eqb_spec t "") as [E|_]; [contradiction|]. cbn [negb andb].
  destruct (split "."%char t) as [|h [|p [|s [|x l]]]]; cbn [length Nat.eqb negb nth];
    try (rewrite logout_unfold; reflexivity).
  destruct (atob p) as [text|]; [|rewrite logout_unfold; reflexivity].
  destruct (JSON_parse text) as [payload|]; [|rewrite logout_unfold; reflexivity].
  destruct (get_prop payload "exp") as [exp|]; cbn [cbind];
    [|rewrite logout_unfold; reflexivity].
  destruct (int_gt _ exp) as [[]|]; try (rewrite logout_unfold; reflexivity).
  reflexivity.
Qed.

Lemma logged_out_facts w :
  result Auth.isAuthenticated (logged_out w) = Normal false
  /\ (forall k, k ∈ session_keys -> ls_items (w_browser (logged_out w)) !! k = None).
Proof.
  split; [reflexivity|]. intros k Hk. cbn [logged_out w_browser ls_items].
  rewrite without_session_lookup, bool_decide_eq_true_2 by exact Hk. reflexivity.
Qed.




(** X5.  A token whose payload has no usable [exp] never expires: when the
    payload decodes to a value other than [null] whose [exp] member does not
    convert to a number (it is missing, or is a text that is no numeral),
    [validateSession] answers true at every reading of the clock. *)
Theorem validateSession_without_expiry (w : world) (t : string) (payload : jsval) :
  truthy (currentUser (w_auth w)) = true ->
  authToken (w_auth w) = Some t ->
  length (split "."%char t) = 3%nat ->
  decode_payload t = Some payload ->
  not_nullish payload = true ->
  to_number (prop payload "exp") = Normal NaN ->
  forall f, Auth.validateSession (with_clock f w) = (Normal true, tick (with_clock f w)).
Proof.
  intros Hu Ht Hlen Hdec Hnn Hnan f.
  assert (Hne : t <> "") by (intros ->; discriminate Hlen).
  rewrite (validateSession_unfold (with_clock f w) t Hu Ht Hne).
  unfold decode_payload in Hdec.
  destruct (split "."%char t) as [|h [|p [|s [|x l]]]]; try discriminate Hlen.
  cbn [nth] in Hdec. destruct (atob p) as [text|]; [|discriminate Hdec].
  rewrite Hdec, (get_prop_not_nullish _ _ Hnn). cbn [cbind]. unfold int_gt.
  rewrite Hnan. reflexivity.
Qed.

Lemma validateSession_without_expiry_witness :
  Auth.validateSession (with_clock (fun _ => 99999999999999) (task_page ∅ "" []))
  = (Normal true, tick (with_clock (fun _ => 99999999999999) (task_page ∅ "" []))).
Proof.
  apply (validateSession_without_expiry (task_page ∅ "" []) "e30=.e30=.c2ln" (VObj []));
    reflexivity.
Defined.

(** ** Restoring the session *)

Lemma jsval_eqb_refl v : jsval_eqb v v = true.
Proof.
  induction v as [| |b|m e|s|l IH|o IH] using jsval_induction; try reflexivity.
  - destruct b; reflexivity.
  - simpl. rewrite !Z.eqb_refl. reflexivity.
  - apply String.eqb_refl.
  - cbn [jsval_eqb]. induction IH as [|x r Hx _ IHr]; [reflexivity|]. rewrite Hx. exact IHr.
  - cbn [jsval_eqb]. induction IH as [|[k x] r Hx _ IHr]; [reflexivity|].
    cbn [snd] in Hx. rewrite String.eqb_refl, Hx. exact IHr.
Qed.

Lemma session_of_faithful u t : json_faithful (session_of u t) = true.
Proof.
  unfold session_of. cbn [json_faithful forallb snd andb].
  change (object_literal
            [("id", VStr (Auth.id u)); ("username", VStr (Auth.username u));
             ("email", VStr (Auth.email u)); ("role", VStr (Auth.role u));
             ("isAuthenticated", VBool true); ("loginTime", VStr t)])
    with [("id", VStr (Auth.id u)); ("username", VStr (Auth.username u));
          ("email", VStr (Auth.email u)); ("role", VStr (Auth.role u));
          ("isAuthenticated", VBool true); ("loginTime", VStr t)].
  apply jsval_eqb_refl.
Qed.

Lemma stored_json_object_nonempty o : stored_json (VObj o) <> "".
Proof. discriminate. Qed.

Lemma loadUserSession_unfold w :
  Auth.loadUserSession w =
  (Normal tt,
   match ls_items (w_browser w) !! Auth.STORAGE_KEYS.AUTH_TOKEN,
         ls_items (w_browser w) !! Auth.STORAGE_KEYS.USER_SESSION with
   | Some token, Some user =>
       if negb (String.eqb token "") && negb (String.eqb user "") then
         match JSON_parse user with
         | Some parsed => with_auth (mkAuth parsed (Some token)) w
         | None =>
             set_browser (with_items without_session)
               (with_auth (mkAuth (currentUser (w_auth w)) (Some token)) w)
         end
       else w
   | _, _ => w
   end).
Proof.
  destruct w as [[items accepts clk reads path input tr] [user token] s st].
  unfold Auth.loadUserSession, Auth.clearUserSession, Auth.set_currentUser, Auth.set_authToken,
    localStorage_getItem, localStorage_removeItem, JSON_parse_M.
  unfold try_catch, bind, gets, ret, modify, throw, with_auth, without_session.
  project_state.
  destruct (items !! Auth.STORAGE_KEYS.AUTH_TOKEN) as [t|];
    [|destruct (items !! Auth.STORAGE_KEYS.USER_SESSION); reflexivity].
  destruct (items !! Auth.STORAGE_KEYS.USER_SESSION) as [x|]; [|reflexivity].
  cbn [truthy]. destruct (negb (String.eqb t "") && negb (String.eqb x "")); [|reflexivity].
  project_state. destruct (JSON_parse x); reflexivity.
Qed.

Lemma saveUserSession_state w token :
  (forall k v, ls_accepts (w_browser w) k v = true) ->
  authToken (w_auth w) = Some token ->
  let b := w_browser w in
  Auth.saveUserSession w =
  (Normal tt,
   mkWorld
     (mkBrowser
        (<[Auth.STORAGE_KEYS.LOGIN_TIME := Date_toISOString (clock b (clock_reads b))]>
           (<[Auth.STORAGE_KEYS.USER_SESSION := stored_json (currentUser (w_auth w))]>
              (<[Auth.STORAGE_KEYS.AUTH_TOKEN := token]> (ls_items b))))
        (ls_accepts b) (clock b) (S (clock_reads b)) (pathname b) (taskInput_value b) (trace b))
     (w_auth w) (w_script w) (w_storage w)).
Proof.
  destruct w as [[items accepts clk reads path input tr] [user tok] s st].
  cbn [w_browser w_auth authToken ls_accepts]. intros Hacc ->. cbv zeta.
  unfold Auth.saveUserSession, Date_now, ToString, localStorage_setItem.
  unfold try_catch, bind, gets, ret, lift. project_state.
  cbn [Auth.token_value to_string]. rewrite Hacc. project_state.
  rewrite to_string_stored_json, Hacc. project_state. rewrite Hacc. reflexivity.
Qed.

(** The state after a login with the stored credentials, on a medium that
    takes every write. *)
Lemma login_state u w :
  In u Auth.MOCK_USERS ->
  (forall k v, ls_accepts (w_browser w) k v = true) ->
  let b := w_browser w in
  let r := clock_reads b in
  let token := token_for u (clock b r) (clock b (S r)) in
  let session := session_of u (Date_toISOString (clock b (S (S r)))) in
  Auth.login (Auth.username u) (Auth.password u) w =
  (Normal (VObj [("success", VBool true); ("user", session); ("token", VStr token)]),
   mkWorld
     (mkBrowser
        (<[Auth.STORAGE_KEYS.LOGIN_TIME := Date_toISOString (clock b (S (S (S r))))]>
           (<[Auth.STORAGE_KEYS.USER_SESSION := stored_json session]>
              (<[Auth.STORAGE_KEYS.AUTH_TOKEN := token]> (ls_items b))))
        (ls_accepts b) (clock b) (S (S (S (S r)))) (pathname b) (taskInput_value b) (trace b))
     (mkAuth session (Some token)) (w_script w) (w_storage w)).
Proof.
  intros Hu Hacc b r token session.
  unfold Auth.login, Auth.simulateDelay, Auth.set_currentUser, Auth.set_authToken.
  unfold try_catch, bind at 1 2 3.
  assert (Hfind : Auth.findUser (Auth.username u) (Auth.password u) = Some u)
    by (apply findUser_stored_credentials, Hu).
  assert (Hne : negb (truthy (VStr (Auth.username u))) || negb (truthy (VStr (Auth.password u)))
                = false) by (destruct Hu as [<-|[<-|[]]]; reflexivity).
  rewrite Hne, Hfind. unfold ret at 1 2. cbv iota beta.
  unfold bind at 1. rewrite generateMockToken_run. cbv iota beta.
  fold b. fold r. fold (token_for u (clock b r) (clock b (S r))). fold token.
  unfold Date_now, bind, gets, modify, ret.
  subst b r. destruct w as [[items accepts clk reads path input tr] [user tok] s st].
  project_state. cbn [w_browser ls_accepts] in Hacc.
  change (object_literal
            [("id", VStr (Auth.id u)); ("username", VStr (Auth.username u));
             ("email", VStr (Auth.email u)); ("role", VStr (Auth.role u));
             ("isAuthenticated", VBool true);
             ("loginTime", VStr (Date_toISOString (clk (S (S reads)))))])
    with [("id", VStr (Auth.id u)); ("username", VStr (Auth.username u));
          ("email", VStr (Auth.email u)); ("role", VStr (Auth.role u));
          ("isAuthenticated", VBool true);
          ("loginTime", VStr (Date_toISOString (clk (S (S reads)))))].
  fold (session_of u (Date_toISOString (clk (S (S reads))))).
  match goal with |- context [Auth.saveUserSession ?x] =>
    rewrite (saveUserSession_state x token Hacc eq_refl) end.
  project_state.
  reflexivity.
Qed.

Lemma validateSession_issued u iat now w :
  In u Auth.MOCK_USERS -> 0 <= iat < 10 ^ 21 -> 0 <= now + session_lifetime < 10 ^ 21 ->
  truthy (currentUser (w_auth w)) = true ->
  authToken (w_auth w) = Some (token_for u iat now) ->
  Auth.validateSession w =
  if clock (w_browser w) (clock_reads (w_browser w)) <=? now + session_lifetime
  then (Normal true, tick w)
  else (Normal false, logged_out (tick w)).
Proof.
  intros Hu Hiat Hexp Huser Htoken.
  assert (Hne : token_for u iat now <> "").
  { intros E. pose proof (token_of_truthy token_header
      (btoa (stored_json (payload_of u iat (now + session_lifetime))))
      (btoa ("mock-signature-" +:+ Auth.id u))) as Ht.
    fold (token_for u iat now) in Ht. rewrite E in Ht. discriminate Ht. }
  rewrite (validateSession_unfold w _ Huser Htoken Hne). unfold token_for.
  rewrite split_generated_token, atob_btoa, (parse_payload u iat _ Hu Hiat Hexp).
  change (get_prop (payload_of u iat (now + session_lifetime)) "exp")
    with (Normal (VInt (now + session_lifetime))).
  cbn [cbind]. rewrite int_gt_integer.
  destruct (Z.ltb_spec (now + session_lifetime) (clock (w_browser w) (clock_reads (w_browser w))));
    destruct (Z.leb_spec (clock (w_browser w) (clock_reads (w_browser w))) (now + session_lifetime));
    try lia; reflexivity.
Qed.

Lemma session_lookups (items : gmap string string) token session time :
  let stored := <[Auth.STORAGE_KEYS.LOGIN_TIME := time]>
                  (<[Auth.STORAGE_KEYS.USER_SESSION := session]>
                     (<[Auth.STORAGE_KEYS.AUTH_TOKEN := token]> items)) in
  stored !! Auth.STORAGE_KEYS.AUTH_TOKEN = Some token
  /\ stored !! Auth.STORAGE_KEYS.USER_SESSION = Some session.
Proof.
  cbv zeta. split.
  - rewrite lookup_insert_ne by discriminate. rewrite lookup_insert_ne by discriminate.
    apply lookup_insert_eq.
  - rewrite lookup_insert_ne by discriminate. apply lookup_insert_eq.
Qed.

(** What [initializeAuth] finds on a page opened after a login. *)
Lemma initializeAuth_after_login u w path :
  In u Auth.MOCK_USERS ->
  (forall k v, ls_accepts (w_browser w) k v = true) ->
  let b := w_browser w in
  let r := clock_reads b in
  0 <= clock b r < 10 ^ 21 -> 0 <= clock b (S r) + session_lifetime < 10 ^ 21 ->
  let w1 := after (Auth.login (Auth.username u) (Auth.password u)) w in
  let restored := with_auth (w_auth w1) (open_page path w1) in
  Auth.initializeAuth (open_page path w1) =
  (Normal tt,
   if clock b (S (S (S (S r)))) <=? clock b (S r) + session_lifetime
   then tick restored else logged_out (tick restored)).
Proof.
  intros Hu Hacc b r Hiat Hexp w1 restored.
  assert (Hw1 : w1 = snd (Auth.login (Auth.username u) (Auth.password u) w)) by reflexivity.
  rewrite (login_state u w Hu Hacc) in Hw1. cbn [snd] in Hw1. fold b r in Hw1.
  unfold Auth.initializeAuth. unfold bind at 1.
  rewrite loadUserSession_unfold.
  assert (Hrestored : restored
    = with_auth (mkAuth (session_of u (Date_toISOString (clock b (S (S r)))))
                   (Some (token_for u (clock b r) (clock b (S r))))) (open_page path w1)).
  { subst restored. rewrite Hw1. reflexivity. }
  assert (Hitems : ls_items (w_browser (open_page path w1))
    = <[Auth.STORAGE_KEYS.LOGIN_TIME := Date_toISOString (clock b (S (S (S r))))]>
        (<[Auth.STORAGE_KEYS.USER_SESSION
           := stored_json (session_of u (Date_toISOString (clock b (S (S r)))))]>
           (<[Auth.STORAGE_KEYS.AUTH_TOKEN := token_for u (clock b r) (clock b (S r))]>
              (ls_items b)))).
  { rewrite Hw1. reflexivity. }
  rewrite Hitems.
  destruct (session_lookups (ls_items b) (token_for u (clock b r) (clock b (S r)))
              (stored_json (session_of u (Date_toISOString (clock b (S (S r))))))
              (Date_toISOString (clock b (S (S (S r)))))) as [-> ->].
  assert (Htok : String.eqb (token_for u (clock b r) (clock b (S r))) "" = false).
  { pose proof (token_of_truthy token_header
      (btoa (stored_json (payload_of u (clock b r) (clock b (S r) + session_lifetime))))
      (btoa ("mock-signature-" +:+ Auth.id u))) as Ht.
    cbn [truthy] in Ht. apply negb_true_iff in Ht. exact Ht. }
  rewrite Htok. change (String.eqb (stored_json (session_of _ _)) "") with false.
  cbn [negb andb]. rewrite JSON_parse_stringified by apply session_of_faithful.
  rewrite <- Hrestored. cbv iota beta.
  unfold bind. 
  assert (Hclock : clock (w_browser restored) = clock b /\ clock_reads (w_browser restored)
                   = S (S (S (S r)))).
  { rewrite Hrestored, Hw1. split; reflexivity. }
  destruct Hclock as [Hc Hr].
  rewrite (validateSession_issued u (clock b r) (clock b (S r)) restored Hu Hiat Hexp).
  - rewrite Hc, Hr. destruct (_ <=? _); reflexivity.
  - rewrite Hrestored. reflexivity.
  - rewrite Hrestored. reflexivity.
Qed.

(** X6.  A session outlives the page: after a login with the stored
    credentials on a medium that takes every write, [initializeAuth] on a
    page opened later in the same browser restores the session object and
    the token from the store, and the user is authenticated, provided the
    clock reading of the check is not past the expiry of the token.  When
    it is past the expiry the page logs out: nobody is authenticated, the
    session entries are removed and the logout is announced. *)
Theorem session_survives_reload (u : Auth.user) (w : world) (path : string) :
  let b := w_browser w in
  let r := clock_reads b in
  let exp := clock b (S r) + session_lifetime in
  let check := clock b (S (S (S (S r)))) in
  let w1 := after (Auth.login (Auth.username u) (Auth.password u)) w in
  let w2 := after Auth.initializeAuth (open_page path w1) in
  In u Auth.MOCK_USERS ->
  (forall k v, ls_accepts b k v = true) ->
  0 <= clock b r < 10 ^ 21 -> 0 <= exp < 10 ^ 21 ->
  result Auth.initializeAuth (open_page path w1) = Normal tt
  /\ (check <= exp ->
      w_auth w2 = w_auth w1
      /\ result Auth.isAuthenticated w2 = Normal true
      /\ ls_items (w_browser w2) = ls_items (w_browser w1))
  /\ (exp < check ->
      result Auth.isAuthenticated w2 = Normal false
      /\ (forall k, k ∈ session_keys -> ls_items (w_browser w2) !! k = None)
      /\ trace (w_browser w2) = trace b ++ logout_events path).
Proof.
  intros b r exp check w1 w2 Hu Hacc Hiat Hexp.
  pose proof (initializeAuth_after_login u w path Hu Hacc Hiat Hexp) as Hinit.
  fold b r w1 in Hinit. fold exp check in Hinit.
  assert (Hw1 : w1 = snd (Auth.login (Auth.username u) (Auth.password u) w)) by reflexivity.
  rewrite (login_state u w Hu Hacc) in Hw1. cbn [snd] in Hw1. fold b r in Hw1.
  assert (Hw2 : w2 = snd (Auth.initializeAuth (open_page path w1))) by reflexivity.
  rewrite Hinit in Hw2. cbn [snd] in Hw2.
  split; [unfold result; rewrite Hinit; reflexivity|]. split.
  - intros Hle. destruct (Z.leb_spec check exp); [|lia].
    rewrite Hw2, Hw1. repeat split; reflexivity.
  - intros Hlt. destruct (Z.leb_spec check exp); [lia|]. rewrite Hw2.
    split; [apply logged_out_facts|]. split; [apply logged_out_facts|].
    rewrite Hw1. reflexivity.
Qed.

Lemma session_survives_reload_witness :
  result Auth.isAuthenticated
    (after Auth.initializeAuth
       (open_page "/index.html"
          (after (Auth.login "admin" "password123")
             (fresh_world 1700000000000 1 "/login.html"))))
  = Normal true.
Proof.
  destruct (session_survives_reload admin (fresh_world 1700000000000 1 "/login.html")
              "/index.html") as (_ & H & _).
  - left. reflexivity.
  - reflexivity.
  - vm_compute. split; [discriminate | reflexivity].
  - vm_compute. split; [discriminate | reflexivity].
  - apply H. vm_compute. discriminate.
Defined.



(** ** The task list across page loads *)

Lemma owned_not_foreign B t : obj_get t "userId" = VStr B -> foreign B (VObj t) = false.
Proof.
  intros H. unfold foreign, prop. cbn [get_prop]. rewrite H. cbn [strict_eq].
  rewrite String.eqb_refl. apply andb_false_r.
Qed.

Lemma owned_stamp B t : obj_get t "userId" = VStr B -> stamp B (VObj t) = t.
Proof.
  intros H. unfold stamp. cbn [spread]. apply obj_set_same; [|exact H].
  apply obj_get_has_own. rewrite H. discriminate.
Qed.

Lemma filter_owned B l :
  Forall (fun t => obj_get t "userId" = VStr B) l ->
  List.filter (fun t => negb (foreign B t)) (map VObj l) = map VObj l.
Proof.
  induction 1 as [|t l Ht _ IH]; [reflexivity|]. cbn [map List.filter].
  rewrite (owned_not_foreign B t Ht), IH. reflexivity.
Qed.

Lemma stamp_owned B l :
  Forall (fun t => obj_get t "userId" = VStr B) l -> map (stamp B) (map VObj l) = l.
Proof.
  induction 1 as [|t l Ht _ IH]; [reflexivity|]. cbn [map].
  rewrite (owned_stamp B t Ht), IH. reflexivity.
Qed.

Lemma tasks_faithful l :
  Forall (fun t => json_faithful (VObj t) = true) l -> json_faithful (VArr (map VObj l)) = true.
Proof.
  intros H. cbn [json_faithful]. induction H as [|t l Ht _ IH]; [reflexivity|].
  cbn [map forallb]. rewrite Ht, IH. reflexivity.
Qed.

Lemma records_not_nullish l : Forall (fun e => not_nullish e = true) (map VObj l).
Proof. induction l; constructor; [reflexivity | assumption]. Qed.

(** Loading a stored list of faithful records of the current user. *)
Lemma loadTasks_stored w B l :
  truthy (script_currentUser (w_script w)) = true ->
  get_prop (script_currentUser (w_script w)) "id" = Normal (VStr B) ->
  ls_items (w_browser w) !! tasks_key B = Some (tasks_json l) ->
  Forall (fun t => json_faithful (VObj t) = true) l ->
  Forall (fun t => obj_get t "userId" = VStr B) l ->
  Script.loadTasks w = Script.saveTasks (with_tasks l w).
Proof.
  intros Ht Hid Hstored Hf Ho. rewrite (loadTasks_unfold w B Ht Hid).
  unfold tasks_key in Hstored. rewrite Hstored.
  change (truthy (VStr (tasks_json l))) with true. cbv iota.
  unfold tasks_json at 1. rewrite (JSON_parse_stringified _ (tasks_faithful l Hf)).
  cbn [Script.array_elements cbind].
  rewrite (filter_c_records B _ (records_not_nullish l)). cbn [cbind].
  rewrite (map_c_records B _ (records_not_nullish l)).
  rewrite (filter_owned B l Ho), (stamp_owned B l Ho). reflexivity.
Qed.

(** X8.  What [saveTasks] wrote, [loadTasks] reads back: for a user with
    id [B] whose records are faithful JSON data and carry the id [B], and a
    medium that takes the write, loading after saving gives exactly the
    saved list, in order, whatever list was in memory in between, and
    leaves the store as the save left it. *)
Theorem saved_tasks_load_back (w : world) (B : string) (l' : list obj) :
  let l := tasks (w_script w) in
  let w1 := after Script.saveTasks w in
  let w2 := after Script.loadTasks (with_tasks l' w1) in
  truthy (script_currentUser (w_script w)) = true ->
  get_prop (script_currentUser (w_script w)) "id" = Normal (VStr B) ->
  ls_accepts (w_browser w) (tasks_key B) (tasks_json l) = true ->
  Forall (fun t => json_faithful (VObj t) = true) l ->
  Forall (fun t => obj_get t "userId" = VStr B) l ->
  result Script.loadTasks (with_tasks l' w1) = Normal tt
  /\ tasks (w_script w2) = l
  /\ ls_items (w_browser w2) = ls_items (w_browser w1)
  /\ ls_items (w_browser w1) !! tasks_key B = Some (tasks_json l).
Proof.
  destruct w as [[items accepts clk reads path input tr] a [ts f user] st].
  cbv zeta. cbn [w_script w_browser tasks script_currentUser ls_accepts].
  intros Ht Hid Hacc Hf Ho.
  set (w1 := after Script.saveTasks _).
  assert (Hw1 : w1 = mkWorld (mkBrowser (<[tasks_key B := tasks_json ts]> items) accepts clk
                                reads path input tr) a (mkScript ts f user) st).
  { subst w1. unfold after.
    match goal with |- context [Script.saveTasks ?x] =>
      rewrite (saveTasks_stores x B Ht Hid) end.
    cbn [w_script w_browser tasks ls_accepts]. fold (tasks_key B). rewrite Hacc. reflexivity. }
  assert (Hload : Script.loadTasks (with_tasks l' w1) = (Normal tt, with_tasks ts w1)).
  { rewrite Hw1. unfold with_tasks. project_state.
    match goal with |- context [Script.loadTasks ?x] =>
      rewrite (loadTasks_stored x B ts Ht Hid); [|apply lookup_insert_eq|exact Hf|exact Ho] end.
    unfold with_tasks. project_state.
    match goal with |- context [Script.saveTasks ?x] =>
      rewrite (saveTasks_stores x B Ht Hid) end.
    project_state. fold (tasks_key B).
    rewrite Hacc, insert_insert_eq. reflexivity. }
  unfold result, after at 1 2. rewrite Hload. cbn [fst snd].
  split; [reflexivity|]. split; [rewrite Hw1; reflexivity|]. split; [reflexivity|].
  rewrite Hw1. apply lookup_insert_eq.
Qed.

Lemma saved_tasks_load_back_witness :
  tasks (w_script (after Script.loadTasks
                     (with_tasks [] (after Script.saveTasks (task_page ∅ "" two_tasks)))))
  = two_tasks.
Proof.
  destruct (saved_tasks_load_back (task_page ∅ "" two_tasks) "admin123" []) as (_ & H & _);
    [reflexivity | reflexivity | reflexivity | repeat constructor | repeat constructor
    | exact H].
Defined.

Lemma isAuthenticated_run w : Auth.isAuthenticated w = (result Auth.isAuthenticated w, w).
Proof.
  unfold result. pose proof (isAuthenticated_state w) as H.
  destruct (Auth.isAuthenticated w) as [c w']. simpl in *. subst. reflexivity.
Qed.

(** The run of [handleAddTask] that appends a record. *)
Lemma handleAddTask_state w B :
  let b := w_browser w in
  let text := trim (taskInput_value b) in
  let task := new_task (clock b (clock_reads b)) text
                (Date_toISOString (clock b (S (clock_reads b)))) (VStr B) in
  let stored := saved_with (tasks (w_script w) ++ [task]) (tick (tick w)) in
  text <> "" ->
  result Auth.isAuthenticated w = Normal true ->
  get_prop (script_currentUser (w_script w)) "id" = Normal (VStr B) ->
  Script.handleAddTask w =
  match fst (Script.renderTasks stored) with
  | Normal _ =>
      (Normal tt,
       set_browser (with_event (Announce (added_message text)))
         (set_browser (with_event (Focus "taskInput")) (set_browser (with_input "") stored)))
  | Throw e => (Throw e, stored)
  end.
Proof.
  intros b text task stored Hne Hauth Hid.
  unfold Script.handleAddTask. unfold bind at 1. unfold gets at 1. fold b. fold text.
  destruct (String.eqb_spec text "") as [E|_]; [contradiction|].
  unfold bind at 1. rewrite isAuthenticated_run, Hauth. cbn [negb].
  unfold Date_now. unfold bind at 1 2 3 4. unfold gets at 1. unfold lift at 1.
  cbn [set_browser w_browser w_script with_tick clock clock_reads].
  rewrite Hid. unfold bind at 1. unfold gets at 1.
  cbn [set_browser w_script]. rewrite add_task_literal.
  fold b. fold (new_task (clock b (clock_reads b)) text
                  (Date_toISOString (clock b (S (clock_reads b)))) (VStr B)). fold task.
  rewrite store_and_render. fold (tick w). fold (tick (tick w)). fold stored.
  destruct (fst (Script.renderTasks stored)); [|reflexivity].
  reflexivity.
Qed.

(** X9.  A record that could not be stored is still reported as added:
    when the medium refuses the write of the task list, [handleAddTask]
    keeps the new record in memory, clears the input field and announces
    the success, while the store is as before, so the record is lost with
    the page. *)
Theorem handleAddTask_reports_success_unsaved (w : world) (B : string) :
  let b := w_browser w in
  let text := trim (taskInput_value b) in
  let task := new_task (clock b (clock_reads b)) text
                (Date_toISOString (clock b (S (clock_reads b)))) (VStr B) in
  let l := tasks (w_script w) ++ [task] in
  let w' := after Script.handleAddTask w in
  text <> "" ->
  result Auth.isAuthenticated w = Normal true ->
  truthy (script_currentUser (w_script w)) = true ->
  get_prop (script_currentUser (w_script w)) "id" = Normal (VStr B) ->
  ls_accepts b (tasks_key B) (tasks_json l) = false ->
  result Script.handleAddTask w = Normal tt ->
  tasks (w_script w') = l
  /\ ls_items (w_browser w') = ls_items b
  /\ taskInput_value (w_browser w') = ""
  /\ trace (w_browser w') = trace b ++ [Focus "taskInput"; Announce (added_message text)].
Proof.
  intros b text task l w' Hne Hauth Ht Hid Hfull Hres.
  pose proof (handleAddTask_state w B Hne Hauth Hid) as Hrun.
  fold b text task l in Hrun.
  assert (Hw' : w' = snd (Script.handleAddTask w)) by reflexivity.
  unfold result in Hres. rewrite Hrun in Hres, Hw'.
  destruct (fst (Script.renderTasks _)); [|discriminate Hres].
  cbn [snd] in Hw'. rewrite Hw'.
  cbn [set_browser w_browser w_script with_event with_input ls_items taskInput_value trace].
  split; [rewrite saved_with_script; reflexivity|]. split.
  { rewrite (saved_with_items l (tick (tick w)) B Ht Hid).
    cbn [tick set_browser w_browser with_tick ls_accepts ls_items]. fold b.
    rewrite Hfull. reflexivity. }
  split; [reflexivity|].
  rewrite saved_with_trace. cbn [tick set_browser w_browser with_tick trace]. fold b.
  rewrite <- app_assoc. reflexivity.
Qed.

Lemma handleAddTask_reports_success_unsaved_witness :
  ls_items (w_browser (after Script.handleAddTask (full_medium (task_page ∅ "Buy milk" []))))
  = ∅
  /\ trace (w_browser (after Script.handleAddTask (full_medium (task_page ∅ "Buy milk" []))))
     = [Focus "taskInput"; Announce (added_message "Buy milk")].
Proof.
  destruct (handleAddTask_reports_success_unsaved
              (full_medium (task_page ∅ "Buy milk" [])) "admin123")
    as (_ & Hitems & _ & Htrace);
    [discriminate | reflexivity | reflexivity | reflexivity | reflexivity
    | vm_compute; reflexivity |].
  split; [exact Hitems | exact Htrace].
Defined.

Lemma token_for_nonempty u iat now : String.eqb (token_for u iat now) "" = false.
Proof.
  pose proof (token_of_truthy token_header
    (btoa (stored_json (payload_of u iat (now + session_lifetime))))
    (btoa ("mock-signature-" +:+ Auth.id u))) as Ht.
  cbn [truthy] in Ht. apply negb_true_iff in Ht. exact Ht.
Qed.

(** [initializeAuth] on a page that finds in the store the token and the
    session object of an earlier login. *)
Lemma initializeAuth_restores w u iat now loginTime :
  In u Auth.MOCK_USERS -> 0 <= iat < 10 ^ 21 -> 0 <= now + session_lifetime < 10 ^ 21 ->
  ls_items (w_browser w) !! Auth.STORAGE_KEYS.AUTH_TOKEN = Some (token_for u iat now) ->
  ls_items (w_browser w) !! Auth.STORAGE_KEYS.USER_SESSION
  = Some (stored_json (session_of u loginTime)) ->
  let restored := with_auth (mkAuth (session_of u loginTime) (Some (token_for u iat now))) w in
  Auth.initializeAuth w =
  (Normal tt,
   if clock (w_browser w) (clock_reads (w_browser w)) <=? now + session_lifetime
   then tick restored else logged_out (tick restored)).
Proof.
  intros Hu Hiat Hexp Htok Hses restored.
  unfold Auth.initializeAuth. unfold bind at 1. rewrite loadUserSession_unfold, Htok, Hses.
  rewrite token_for_nonempty.
  change (String.eqb (stored_json (session_of u loginTime)) "") with false.
  cbn [negb andb]. rewrite JSON_parse_stringified by apply session_of_faithful.
  fold restored. cbv iota beta. unfold bind.
  rewrite (validateSession_issued u iat now restored Hu Hiat Hexp eq_refl eq_refl).
  change (clock (w_browser restored)) with (clock (w_browser w)).
  change (clock_reads (w_browser restored)) with (clock_reads (w_browser w)).
  destruct (_ <=? _); reflexivity.
Qed.

Lemma tasks_key_not_session B : tasks_key B ∉ session_keys.
Proof.
  unfold session_keys, tasks_key. rewrite !elem_of_cons, elem_of_nil.
  intros [H|[H|[H|[]]]]; discriminate H.
Qed.

(** A record that the markup of the list can be written for. *)
Lemma createTaskHTML_new_task id text created user :
  Script.createTaskHTML (new_task id text created user) = Normal tt.
Proof. reflexivity. Qed.

Lemma for_each_renderable l :
  Forall (fun t => Script.createTaskHTML t = Normal tt) l ->
  Script.for_each Script.createTaskHTML l = Normal tt.
Proof. induction 1 as [|t l Ht _ IH]; [reflexivity|]. simpl. rewrite Ht. exact IH. Qed.

Lemma renderTasks_all w :
  currentFilter (w_script w) = "all" ->
  Forall (fun t => Script.createTaskHTML t = Normal tt) (tasks (w_script w)) ->
  Script.renderTasks w = (Normal tt, w).
Proof.
  intros Hf Hr. unfold Script.renderTasks, Script.getFilteredTasks. unfold bind, gets, ret, lift.
  rewrite Hf. cbn [String.eqb Ascii.eqb Bool.eqb].
  destruct (length (tasks (w_script w)) =? 0)%nat; [reflexivity|].
  rewrite (for_each_renderable _ Hr). reflexivity.
Qed.

(** The task page after it has loaded in a browser that holds the session
    of [u] and the task list [l] of [u] (or no list, for [l = []]). *)
Lemma page_load_state w u iat now loginTime l :
  let b := w_browser w in
  let session := session_of u loginTime in
  In u Auth.MOCK_USERS -> 0 <= iat < 10 ^ 21 -> 0 <= now + session_lifetime < 10 ^ 21 ->
  w_auth w = mkAuth VNull None -> w_script w = mkScript [] "all" VNull ->
  ls_items b !! Auth.STORAGE_KEYS.AUTH_TOKEN = Some (token_for u iat now) ->
  ls_items b !! Auth.STORAGE_KEYS.USER_SESSION = Some (stored_json session) ->
  clock b (clock_reads b) <= now + session_lifetime ->
  (ls_items b !! tasks_key (Auth.id u) = None /\ l = []
   \/ ls_items b !! tasks_key (Auth.id u) = Some (tasks_json l)
      /\ Forall (fun t => json_faithful (VObj t) = true) l
      /\ Forall (fun t => obj_get t "userId" = VStr (Auth.id u)) l
      /\ Forall (fun t => Script.createTaskHTML t = Normal tt) l
      /\ ls_accepts b (tasks_key (Auth.id u)) (tasks_json l) = true) ->
  page_load w =
  (Normal tt,
   mkWorld (with_tick b) (mkAuth session (Some (token_for u iat now)))
     (mkScript l "all" session) (w_storage w)).
Proof.
  intros b session Hu Hiat Hexp Hauth Hscript Htok Hses Hle Htasks. subst session.
  unfold page_load. unfold bind at 1.
  rewrite (initializeAuth_restores w u iat now loginTime Hu Hiat Hexp Htok Hses).
  fold b. destruct (Z.leb_spec (clock b (clock_reads b)) (now + session_lifetime)); [|lia].
  subst b. destruct w as [[items accepts clk reads path input tr] a s st].
  cbn [w_auth w_script w_browser ls_items ls_accepts] in *. subst a s.
  unfold tick, with_auth. project_state.
  unfold Script.init, Auth.getCurrentUser, Script.set_currentUser.
  unfold bind at 1 2. unfold gets at 1. unfold modify at 1. project_state.
  change (truthy (session_of u loginTime)) with true. cbn [negb].
  match goal with |- bind _ _ ?x = _ => set (w0 := x) end.
  assert (Ht : truthy (script_currentUser (w_script w0)) = true) by reflexivity.
  assert (Hid : get_prop (script_currentUser (w_script w0)) "id" = Normal (VStr (Auth.id u)))
    by reflexivity.
  unfold bind at 1.
  destruct Htasks as [[Hnone ->] | (Hsome & Hf & Ho & Hr & Hacc)].
  - rewrite (loadTasks_unfold w0 (Auth.id u) Ht Hid).
    change (ls_items (w_browser w0)) with items. unfold tasks_key in Hnone. rewrite Hnone.
    subst w0. project_state.
    unfold bind. rewrite renderTasks_all by (try reflexivity; constructor). reflexivity.
  - rewrite (loadTasks_stored w0 (Auth.id u) l Ht Hid Hsome Hf Ho).
    rewrite (saveTasks_stores (with_tasks l w0) (Auth.id u) Ht Hid).
    subst w0. unfold with_tasks. project_state. fold (tasks_key (Auth.id u)). rewrite Hacc.
    rewrite (insert_id items _ _ Hsome).
    unfold bind. rewrite renderTasks_all by (try reflexivity; exact Hr). reflexivity.
Qed.

Lemma new_task_faithful id text created B :
  Z.abs id < 10 ^ 21 -> json_faithful (VObj (new_task id text created (VStr B))) = true.
Proof.
  intros Hid. unfold new_task. cbn [json_faithful forallb snd VInt].
  rewrite add_task_literal.
  rewrite (proj2 (Z.ltb_lt _ _) Hid). cbn [Z.eqb andb].
  apply (jsval_eqb_refl (VObj _)).
Qed.

Lemma session_key_lookups (items : gmap string string) key tasks_text token session time :
  key ∉ session_keys ->
  let stored := <[key := tasks_text]>
                  (<[Auth.STORAGE_KEYS.LOGIN_TIME := time]>
                     (<[Auth.STORAGE_KEYS.USER_SESSION := session]>
                        (<[Auth.STORAGE_KEYS.AUTH_TOKEN := token]> items))) in
  stored !! Auth.STORAGE_KEYS.AUTH_TOKEN = Some token
  /\ stored !! Auth.STORAGE_KEYS.USER_SESSION = Some session.
Proof.
  intros Hk. cbv zeta. unfold session_keys in Hk.
  rewrite !elem_of_cons, elem_of_nil in Hk.
  rewrite !(lookup_insert_ne _ key) by tauto. apply session_lookups.
Qed.

(** X10.  A record added by a logged-in user is there after the page is
    loaded again.  A user of the directory logs in, opens the task page,
    types a text that is not blank and submits it, then loads the page
    anew.  On a medium that takes every write, with a clock that stays
    within the time values and does not pass the expiry of the token, and
    with no task list stored for the user before: the user is still
    authenticated on the reloaded page and the task list is exactly the one
    record, with the trimmed text, not completed, owned by the user, its id
    the clock reading taken when it was added. *)
Theorem added_task_survives_reload (u : Auth.user) (w : world) (text path : string) :
  let b := w_browser w in
  let r := clock_reads b in
  let w1 := after (Auth.login (Auth.username u) (Auth.password u)) w in
  let w2 := after page_load (open_page path w1) in
  let w3 := after Script.handleAddTask (typed text w2) in
  let w4 := after page_load (open_page path w3) in
  let task := new_task (clock b (S (S (S (S (S r)))))) (trim text)
                (Date_toISOString (clock b (S (S (S (S (S (S r)))))))) (VStr (Auth.id u)) in
  In u Auth.MOCK_USERS ->
  (forall k v, ls_accepts b k v = true) ->
  (forall n, 0 <= clock b n <= 8640000000000000) ->
  (forall n, clock b n <= clock b (S r) + session_lifetime) ->
  ls_items b !! tasks_key (Auth.id u) = None ->
  trim text <> "" ->
  tasks (w_script w3) = [task]
  /\ result Script.handleAddTask (typed text w2) = Normal tt
  /\ result Auth.isAuthenticated w4 = Normal true
  /\ currentUser (w_auth w4) = currentUser (w_auth w1)
  /\ tasks (w_script w4) = [task].
Proof.
  intros b r w1 w2 w3 w4 task Hu Hacc Hclock Hexpiry Hnone Htext.
  assert (Hbig : 8640000000000000 + session_lifetime < 10 ^ 21) by reflexivity.
  assert (Hiat : 0 <= clock b r < 10 ^ 21) by (pose proof (Hclock r); lia).
  assert (Hexp : 0 <= clock b (S r) + session_lifetime < 10 ^ 21).
  { pose proof (Hclock (S r)). unfold session_lifetime in *. lia. }
  set (token := token_for u (clock b r) (clock b (S r))).
  set (session := session_of u (Date_toISOString (clock b (S (S r))))).
  set (B := Auth.id u) in *.
  (* the login *)
  assert (Hw1 : w1 = snd (Auth.login (Auth.username u) (Auth.password u) w)) by reflexivity.
  rewrite (login_state u w Hu Hacc) in Hw1. cbn [snd] in Hw1. fold b r token session in Hw1.
  set (items1 := <[Auth.STORAGE_KEYS.LOGIN_TIME := Date_toISOString (clock b (S (S (S r))))]>
                   (<[Auth.STORAGE_KEYS.USER_SESSION := stored_json session]>
                      (<[Auth.STORAGE_KEYS.AUTH_TOKEN := token]> (ls_items b)))) in *.
  assert (Hnone1 : items1 !! tasks_key B = None).
  { subst items1. rewrite !lookup_insert_ne by (unfold tasks_key; discriminate). exact Hnone. }
  (* the task page opens *)
  assert (Hw2 : w2 = mkWorld
                       (mkBrowser items1 (ls_accepts b) (clock b) (S (S (S (S (S r))))) path ""
                          (trace b))
                       (mkAuth session (Some token)) (mkScript [] "all" session) (w_storage w)).
  { unfold w2, after.
    rewrite (page_load_state (open_page path w1) u (clock b r) (clock b (S r))
               (Date_toISOString (clock b (S (S r)))) []); try assumption; try reflexivity.
    - rewrite Hw1. reflexivity.
    - rewrite Hw1. apply session_lookups.
    - rewrite Hw1. apply session_lookups.
    - rewrite Hw1. apply Hexpiry.
    - left. rewrite Hw1. split; [exact Hnone1 | reflexivity]. }
  (* the record is added *)
  assert (Hadd : Script.handleAddTask (typed text w2)
    = (Normal tt,
       mkWorld
         (mkBrowser (<[tasks_key B := tasks_json [task]]> items1) (ls_accepts b) (clock b)
            (S (S (S (S (S (S (S r))))))) path ""
            (trace b ++ [Focus "taskInput"; Announce (added_message (trim text))]))
         (mkAuth session (Some token)) (mkScript [task] "all" session) (w_storage w))).
  { rewrite (handleAddTask_state (typed text w2) B);
      try (rewrite Hw2; first [exact Htext | reflexivity]).
    rewrite Hw2. unfold typed, tick, saved_with, after, with_tasks. project_state.
    fold task.
    match goal with |- context [Script.saveTasks ?x] =>
      rewrite (saveTasks_stores x B eq_refl eq_refl) end.
    project_state. rewrite Hacc. fold (tasks_key B). project_state.
    rewrite renderTasks_all by (try reflexivity; repeat constructor).
    cbn [fst]. rewrite <- app_assoc. reflexivity. }
  assert (Hw3 : w3 = snd (Script.handleAddTask (typed text w2))) by reflexivity.
  rewrite Hadd in Hw3. cbn [snd] in Hw3.
  (* the page is loaded again *)
  assert (Hw4 : w4 = mkWorld
                       (mkBrowser (<[tasks_key B := tasks_json [task]]> items1) (ls_accepts b)
                          (clock b) (S (S (S (S (S (S (S (S r)))))))) path ""
                          (trace b ++ [Focus "taskInput"; Announce (added_message (trim text))]))
                       (mkAuth session (Some token)) (mkScript [task] "all" session)
                       (w_storage w)).
  { unfold w4, after.
    rewrite (page_load_state (open_page path w3) u (clock b r) (clock b (S r))
               (Date_toISOString (clock b (S (S r)))) [task]); try assumption; try reflexivity.
    - rewrite Hw3. reflexivity.
    - rewrite Hw3. apply session_key_lookups, tasks_key_not_session.
    - rewrite Hw3. apply session_key_lookups, tasks_key_not_session.
    - rewrite Hw3. apply Hexpiry.
    - right. rewrite Hw3. cbn [open_page w_browser ls_items ls_accepts].
      split; [apply lookup_insert_eq|].
      split; [repeat constructor; apply new_task_faithful;
              pose proof (Hclock (S (S (S (S (S r)))))); lia|].
      split; [repeat constructor|]. split; [repeat constructor | apply Hacc]. }
  split; [rewrite Hw3; reflexivity|].
  split; [unfold result; rewrite Hadd; reflexivity|].
  rewrite Hw4, Hw1. repeat split; reflexivity.
Qed.

Lemma added_task_survives_reload_witness :
  tasks (w_script
    (after page_load (open_page "/index.html"
       (after Script.handleAddTask (typed " Buy milk "
          (after page_load (open_page "/index.html"
             (after (Auth.login "admin" "password123")
                (fresh_world 1700000000000 0 "/login.html")))))))))
  = [new_task 1700000000000 "Buy milk" "2023-11-14T22:13:20.000Z" (VStr "admin123")].
Proof.
  destruct (added_task_survives_reload admin (fresh_world 1700000000000 0 "/login.html")
              " Buy milk " "/index.html") as (_ & _ & _ & _ & H).
  - left. reflexivity.
  - reflexivity.
  - intros n. cbn [fresh_world fresh_browser w_browser clock]. lia.
  - intros n. cbn [fresh_world fresh_browser w_browser clock]. unfold session_lifetime. lia.
  - reflexivity.
  - discriminate.
  - exact H.
Defined.

(** ** Handlers that do not look at the session *)

Lemma blind_ret {A} (x : A) : session_blind (ret x).
Proof. intros a w. reflexivity. Qed.

Lemma blind_lift {A} (c : completion A) : session_blind (lift c).
Proof. intros a w. reflexivity. Qed.

Lemma blind_throw {A} e : session_blind (@throw A e).
Proof. intros a w. reflexivity. Qed.

Lemma blind_bind {A B} (m : M A) (k : A -> M B) :
  session_blind m -> (forall x, session_blind (k x)) -> session_blind (bind m k).
Proof.
  intros Hm Hk a w. unfold bind. rewrite Hm.
  destruct (m w) as [[x|e] w']; cbn [fst snd]; [apply Hk | reflexivity].
Qed.

Lemma blind_try_catch {A} (m : M A) h :
  session_blind m -> (forall e, session_blind (h e)) -> session_blind (try_catch m h).
Proof.
  intros Hm Hh a w. unfold try_catch. rewrite Hm.
  destruct (m w) as [[x|e] w']; cbn [fst snd]; [reflexivity | apply Hh].
Qed.

Lemma blind_gets {A} (f : world -> A) :
  (forall a w, f (with_auth a w) = f w) -> session_blind (gets f).
Proof. intros Hf a w. unfold gets. rewrite Hf. reflexivity. Qed.

Lemma blind_modify (f : world -> world) :
  (forall a w, f (with_auth a w) = with_auth a (f w)) -> session_blind (modify f).
Proof. intros Hf a w. unfold modify. rewrite Hf. reflexivity. Qed.

Lemma blind_if {A} (c : bool) (m1 m2 : M A) :
  session_blind m1 -> session_blind m2 -> session_blind (if c then m1 else m2).
Proof. destruct c; auto. Qed.

Lemma blind_setItem k v : session_blind (localStorage_setItem k v).
Proof.
  intros a w. unfold localStorage_setItem.
  change (ls_accepts (w_browser (with_auth a w))) with (ls_accepts (w_browser w)).
  destruct (ls_accepts (w_browser w) k v); reflexivity.
Qed.

Lemma blind_ToString v : session_blind (ToString v).
Proof. apply blind_lift. Qed.

Lemma blind_emit e : session_blind (emit e).
Proof. intros a w. reflexivity. Qed.

Create HintDb blind.
#[local] Hint Resolve blind_ret blind_lift blind_throw blind_setItem blind_ToString blind_emit
  : blind.

Ltac blind :=
  repeat first
    [ progress cbv zeta
    | apply blind_bind; [|intros ?]
    | apply blind_try_catch; [|intros ?]
    | apply blind_if
    | apply blind_gets; intros ? ?; reflexivity
    | apply blind_modify; intros ? ?; reflexivity
    | solve [auto with blind]
    | match goal with |- session_blind (match ?x with _ => _ end) => destruct x end ].

Lemma blind_saveTasks : session_blind Script.saveTasks.
Proof. unfold Script.saveTasks. blind. Qed.

Lemma blind_renderTasks : session_blind Script.renderTasks.
Proof. unfold Script.renderTasks, Script.getFilteredTasks. blind. Qed.

#[local] Hint Resolve blind_saveTasks blind_renderTasks : blind.

(** X11.  The handlers that delete, toggle and clear records and the one
    that changes the filter never look at the session: whatever the
    variables of auth.js hold, also after a logout, they complete alike,
    change the task list and the store alike, and leave those variables as
    they are.  The handler that adds a record is not of this kind. *)
Theorem task_handlers_ignore_session (taskId : jsval) (filterValue : string) :
  session_blind (Script.handleDeleteTask taskId)
  /\ session_blind (Script.handleToggleTask taskId)
  /\ session_blind Script.handleClearCompleted
  /\ session_blind (Script.handleFilterChange filterValue)
  /\ ~ session_blind Script.handleAddTask.
Proof.
  split; [|split; [|split; [|split]]].
  - unfold Script.handleDeleteTask, Script.set_tasks, Script.updateCounts,
      Script.announceToScreenReader. blind.
  - unfold Script.handleToggleTask, Script.set_tasks, Script.updateCounts,
      Script.announceToScreenReader. blind.
  - unfold Script.handleClearCompleted, Script.set_tasks, Script.updateCounts,
      Script.announceToScreenReader. blind.
  - unfold Script.handleFilterChange, Script.set_currentFilter. blind.
  - intros H. specialize (H (mkAuth VNull None) (task_page ∅ "Buy milk" [])).
    apply (f_equal (fun r => tasks (w_script (snd r)))) in H. vm_compute in H. discriminate H.
Qed.

Lemma has_id_int n task : obj_get task "id" = VInt n -> Script.has_id (VInt n) task = true.
Proof.
  intros H. unfold Script.has_id. rewrite H. unfold VInt, strict_eq, num_eqb.
  apply Z.eqb_refl.
Qed.

(** X12.  The id of a new record is the clock reading, and ids are not
    kept apart: deleting by the id of the record just added removes that
    record and with it every older record that has the same id.  So adding
    and then deleting gives back the old list exactly when no older record
    has that id. *)
Theorem add_then_delete (w : world) (B : string) :
  let b := w_browser w in
  let now := clock b (clock_reads b) in
  let w1 := after Script.handleAddTask w in
  let w2 := after (Script.handleDeleteTask (VInt now)) w1 in
  trim (taskInput_value b) <> "" ->
  result Auth.isAuthenticated w = Normal true ->
  get_prop (script_currentUser (w_script w)) "id" = Normal (VStr B) ->
  (exists task, tasks (w_script w1) = tasks (w_script w) ++ [task]
                /\ obj_get task "id" = VInt now)
  /\ tasks (w_script w2)
     = List.filter (fun t => negb (Script.has_id (VInt now) t)) (tasks (w_script w))
  /\ (existsb (Script.has_id (VInt now)) (tasks (w_script w)) = false ->
      tasks (w_script w2) = tasks (w_script w))
  /\ (forall old, In old (tasks (w_script w)) -> obj_get old "id" = VInt now ->
      ~ In old (tasks (w_script w2))).
Proof.
  intros b now w1 w2 Hne Hauth Hid.
  assert (Hnn : not_nullish (script_currentUser (w_script w)) = true).
  { destruct (script_currentUser (w_script w)); try reflexivity; discriminate Hid. }
  pose proof (handleAddTask_appends w Hne Hauth Hnn) as Hadd. fold b now w1 in Hadd.
  assert (Hdel : tasks (w_script w2)
                 = List.filter (fun t => negb (Script.has_id (VInt now) t)) (tasks (w_script w))).
  { unfold w2. rewrite handleDeleteTask_tasks, Hadd, List.filter_app. cbn [List.filter].
    rewrite has_id_int by reflexivity. cbn [negb]. apply app_nil_r. }
  split; [eexists; split; [exact Hadd | reflexivity]|].
  split; [exact Hdel|]. split.
  - intros Hnone. rewrite Hdel. apply filter_all_false, Hnone.
  - intros old Hin Hold Hin'. rewrite Hdel in Hin'. apply filter_In in Hin' as [_ Hn].
    rewrite (has_id_int now old Hold) in Hn. discriminate Hn.
Qed.

Lemma add_then_delete_witness :
  tasks (w_script
    (after (Script.handleDeleteTask (VInt 1700000000000))
       (after Script.handleAddTask (task_page ∅ "Buy milk" two_tasks))))
  = two_tasks.
Proof.
  destruct (add_then_delete (task_page ∅ "Buy milk" two_tasks) "admin123")
    as (_ & _ & H & _); [discriminate | reflexivity | reflexivity |].
  apply H. reflexivity.
Defined.

(** ** The storage adapter, writing and reading back *)

Lemma envelope_faithful value now :
  json_faithful value = true -> Z.abs now < 10 ^ 21 ->
  json_faithful (envelope value now) = true.
Proof.
  intros Hv Hn. unfold envelope. cbn [json_faithful forallb snd VInt].
  rewrite Hv, envelope_literal, (proj2 (Z.ltb_lt _ _) Hn). cbn [Z.eqb andb].
  apply (jsval_eqb_refl (VObj _)).
Qed.

Lemma setItem_state w key value :
  isAvailable (w_storage w) = true ->
  let now := clock (w_browser w) (clock_reads (w_browser w)) in
  let text := stored_json (envelope value now) in
  ls_accepts (w_browser w) key text = true ->
  Storage.setItem key value w
  = (Normal true, set_browser (with_items (insert key text)) (tick w)).
Proof.
  intros Ha now text Hacc. rewrite (setItem_envelope w key value Ha).
  fold now. fold text. rewrite Hacc. reflexivity.
Qed.

(** X13.  What the adapter's [setItem] stored, its [getItem] returns: on an
    available medium that takes the write, for a value that is faithful JSON
    data and a clock reading within the range of integers written without
    exponent, [setItem] answers true and a following [getItem] of the key
    returns the value itself, not the envelope and not the default, and
    changes nothing. *)
Theorem setItem_getItem_round_trip (w : world) (key : string) (value d : jsval) :
  let now := clock (w_browser w) (clock_reads (w_browser w)) in
  let w1 := after (Storage.setItem key value) w in
  isAvailable (w_storage w) = true ->
  ls_accepts (w_browser w) key (stored_json (envelope value now)) = true ->
  json_faithful value = true ->
  Z.abs now < 10 ^ 21 ->
  result (Storage.setItem key value) w = Normal true
  /\ ls_items (w_browser w1) !! key = Some (stored_json (envelope value now))
  /\ Storage.getItem key d w1 = (Normal value, w1).
Proof.
  intros now w1 Ha Hacc Hf Hn.
  pose proof (setItem_state w key value Ha Hacc) as Hset. fold now in Hset.
  assert (Hw1 : w1 = set_browser
                       (with_items (insert key (stored_json (envelope value now)))) (tick w)).
  { unfold w1, after. rewrite Hset. reflexivity. }
  assert (Hlook : ls_items (w_browser w1) !! key = Some (stored_json (envelope value now))).
  { rewrite Hw1. cbn [set_browser w_browser with_items ls_items]. apply lookup_insert_eq. }
  split; [unfold result; rewrite Hset; reflexivity|]. split; [exact Hlook|].
  rewrite (getItem_cases w1 key d) by (rewrite Hw1; exact Ha).
  rewrite Hlook, (JSON_parse_stringified _ (envelope_faithful value now Hf Hn)).
  reflexivity.
Qed.

Lemma setItem_getItem_round_trip_witness :
  result (Storage.getItem "settings" VNull)
    (after (Storage.setItem "settings" (VObj [("theme", VStr "dark"); ("size", VInt 12)]))
       (task_page ∅ "" []))
  = Normal (VObj [("theme", VStr "dark"); ("size", VInt 12)]).
Proof.
  destruct (setItem_getItem_round_trip (task_page ∅ "" []) "settings"
              (VObj [("theme", VStr "dark"); ("size", VInt 12)]) VNull) as (_ & _ & H);
    [reflexivity | reflexivity | reflexivity | reflexivity |].
  unfold result. rewrite H. reflexivity.
Defined.

(** X14.  [undefined] does not come back: [JSON.stringify] leaves the
    member [value] out of the envelope, so after [setItem(key, undefined)]
    the entry is taken for a legacy value and [getItem] returns what is left
    of the envelope, an object with the members [timestamp] and [type],
    instead of [undefined] or the default. *)
Theorem setItem_undefined_reads_envelope (w : world) (key : string) (d : jsval) :
  let now := clock (w_browser w) (clock_reads (w_browser w)) in
  let w1 := after (Storage.setItem key VUndefined) w in
  let rest := VObj [("timestamp", VInt now); ("type", VStr "undefined")] in
  isAvailable (w_storage w) = true ->
  ls_accepts (w_browser w) key (stored_json rest) = true ->
  Z.abs now < 10 ^ 21 ->
  result (Storage.setItem key VUndefined) w = Normal true
  /\ Storage.getItem key d w1 = (Normal rest, w1).
Proof.
  intros now w1 rest Ha Hacc Hn.
  assert (Htext : stored_json (envelope VUndefined now) = stored_json rest) by reflexivity.
  assert (Hf : json_faithful rest = true).
  { unfold rest. cbn [json_faithful forallb snd VInt].
    rewrite (proj2 (Z.ltb_lt _ _) Hn). cbn [Z.eqb andb].
    change (object_literal [("timestamp", VNum now 0); ("type", VStr "undefined")])
      with [("timestamp", VNum now 0); ("type", VStr "undefined")].
    apply (jsval_eqb_refl (VObj _)). }
  pose proof (setItem_state w key VUndefined Ha) as Hset. cbv zeta in Hset. fold now in Hset.
  rewrite Htext in Hset. specialize (Hset Hacc).
  assert (Hw1 : w1 = set_browser (with_items (insert key (stored_json rest))) (tick w)).
  { unfold w1, after. rewrite Hset. reflexivity. }
  split; [unfold result; rewrite Hset; reflexivity|].
  rewrite (getItem_cases w1 key d) by (rewrite Hw1; exact Ha).
  assert (Hlook : ls_items (w_browser w1) !! key = Some (stored_json rest)).
  { rewrite Hw1. cbn [set_browser w_browser with_items ls_items]. apply lookup_insert_eq. }
  rewrite Hlook, (JSON_parse_stringified _ Hf). reflexivity.
Qed.

Lemma setItem_undefined_reads_envelope_witness :
  result (Storage.getItem "k" (VStr "default"))
    (after (Storage.setItem "k" VUndefined) (task_page ∅ "" []))
  = Normal (VObj [("timestamp", VInt 1700000000000); ("type", VStr "undefined")]).
Proof.
  destruct (setItem_undefined_reads_envelope (task_page ∅ "" []) "k" (VStr "default"))
    as (_ & H); [reflexivity | reflexivity | reflexivity |].
  unfold result. rewrite H. reflexivity.
Defined.

(** X15.  Without a usable medium the adapter keeps values in memory, as
    they are: when [isAvailable] is false, [setItem] answers true, writes
    nothing to the store, and a following [getItem] of the key returns the
    value itself, [undefined] included. *)
Theorem fallback_round_trip (w : world) (key : string) (value d : jsval) :
  let w1 := after (Storage.setItem key value) w in
  isAvailable (w_storage w) = false ->
  result (Storage.setItem key value) w = Normal true
  /\ Storage.getItem key d w1 = (Normal value, w1)
  /\ ls_items (w_browser w1) = ls_items (w_browser w).
Proof.
  intros w1 Ha.
  set (now := clock (w_browser w) (clock_reads (w_browser w))).
  assert (Hset : Storage.setItem key value w
    = (Normal true,
       set_storage (fun s =>
         if String.eqb key "__proto__"
         then mkStorageManager (isAvailable s) (inMemoryStorage s) (Some (value, now))
         else mkStorageManager (isAvailable s) (<[key := (value, now)]> (inMemoryStorage s))
                (inMemoryProto s)) (tick w))).
  { unfold Storage.setItem, Storage.setInMemory, Date_now. unfold bind, gets, modify, ret.
    rewrite Ha. reflexivity. }
  assert (Hw1 : w1 = snd (Storage.setItem key value w)) by reflexivity.
  rewrite Hset in Hw1. cbn [snd] in Hw1.
  assert (Ha1 : isAvailable (w_storage w1) = false).
  { rewrite Hw1. cbn [set_storage tick set_browser w_storage].
    destruct (String.eqb key "__proto__"); exact Ha. }
  split; [unfold result; rewrite Hset; reflexivity|]. split; [|rewrite Hw1; reflexivity].
  rewrite (getItem_memory w1 key d Ha1).
  f_equal. rewrite Hw1.
  cbn [set_storage tick set_browser w_storage].
  destruct (String.eqb key "__proto__"); cbn [inMemoryStorage inMemoryProto]; [reflexivity|].
  rewrite lookup_insert_eq. reflexivity.
Qed.

Lemma fallback_round_trip_witness :
  result (Storage.getItem "k" (VStr "default"))
    (after (Storage.setItem "k" VUndefined)
       (after Storage.new_StorageManager (full_medium (task_page ∅ "" []))))
  = Normal VUndefined.
Proof.
  destruct (fallback_round_trip
              (after Storage.new_StorageManager (full_medium (task_page ∅ "" [])))
              "k" VUndefined (VStr "default")) as (_ & H & _); [reflexivity|].
  unfold result. rewrite H. reflexivity.
Defined.

(** X16.  A refused write fails quietly and keeps the old entry: when the
    medium does not take the text of the envelope, [setItem] answers false
    without raising, the store is as before, and [getItem] returns what it
    returned before the call. *)
Theorem setItem_refused_keeps_old (w : world) (key : string) (value d : jsval) :
  let now := clock (w_browser w) (clock_reads (w_browser w)) in
  let w1 := after (Storage.setItem key value) w in
  isAvailable (w_storage w) = true ->
  ls_accepts (w_browser w) key (stored_json (envelope value now)) = false ->
  result (Storage.setItem key value) w = Normal false
  /\ ls_items (w_browser w1) = ls_items (w_browser w)
  /\ result (Storage.getItem key d) w1 = result (Storage.getItem key d) w.
Proof.
  intros now w1 Ha Hacc.
  pose proof (setItem_envelope w key value Ha) as Hset. cbv zeta in Hset. fold now in Hset.
  rewrite Hacc in Hset.
  assert (Hw1 : w1 = tick w) by (unfold w1, after; rewrite Hset; reflexivity).
  split; [unfold result; rewrite Hset; reflexivity|]. split; [rewrite Hw1; reflexivity|].
  unfold result. rewrite (getItem_cases w1 key d) by (rewrite Hw1; exact Ha).
  rewrite (getItem_cases w key d Ha), Hw1. reflexivity.
Qed.

Lemma setItem_refused_keeps_old_witness :
  result (Storage.setItem "k" (VInt 2)) (full_medium (task_page {[ "k" := "1" ]} "" []))
  = Normal false
  /\ result (Storage.getItem "k" VNull)
       (after (Storage.setItem "k" (VInt 2)) (full_medium (task_page {[ "k" := "1" ]} "" [])))
     = Normal (VInt 1).
Proof.
  destruct (setItem_refused_keeps_old (full_medium (task_page {[ "k" := "1" ]} "" []))
              "k" (VInt 2) VNull) as (H1 & _ & H2); [reflexivity | reflexivity |].
  split; [exact H1|]. rewrite H2. reflexivity.
Defined.

Lemma removeItem_state w key :
  isAvailable (w_storage w) = true ->
  Storage.removeItem key w = (Normal true, set_browser (with_items (delete key)) w).
Proof.
  intros Ha. unfold Storage.removeItem, localStorage_removeItem.
  unfold try_catch, bind, gets, modify, ret. rewrite Ha. reflexivity.
Qed.

(** X17.  After [removeItem] the key reads as absent: on an available
    medium [removeItem] answers true, and a following [getItem] of the key
    returns the default: the second argument, or [null] when that is left
    out or is [undefined].  Every other entry is as before. *)
Theorem removeItem_then_default (w : world) (key : string) (d : jsval) :
  let w1 := after (Storage.removeItem key) w in
  isAvailable (w_storage w) = true ->
  result (Storage.removeItem key) w = Normal true
  /\ Storage.getItem key d w1 = (Normal (if strict_eq d VUndefined then VNull else d), w1)
  /\ (forall k, k <> key -> ls_items (w_browser w1) !! k = ls_items (w_browser w) !! k).
Proof.
  intros w1 Ha.
  assert (Hw1 : w1 = set_browser (with_items (delete key)) w).
  { unfold w1, after. rewrite (removeItem_state w key Ha). reflexivity. }
  split; [unfold result; rewrite (removeItem_state w key Ha); reflexivity|]. split.
  - rewrite (getItem_cases w1 key d) by (rewrite Hw1; exact Ha).
    rewrite Hw1. cbn [set_browser w_browser with_items ls_items].
    rewrite lookup_delete_eq. destruct d; reflexivity.
  - intros k Hk. rewrite Hw1. cbn [set_browser w_browser with_items ls_items].
    apply lookup_delete_ne. congruence.
Qed.

Lemma removeItem_then_default_witness :
  result (Storage.getItem "k" VUndefined)
    (after (Storage.removeItem "k") (task_page {[ "k" := "1" ]} "" []))
  = Normal VNull.
Proof.
  destruct (removeItem_then_default (task_page {[ "k" := "1" ]} "" []) "k" VUndefined)
    as (_ & H & _); [reflexivity|].
  unfold result. rewrite H. reflexivity.
Defined.

(** ** The adapter for the session *)

Lemma clearAuthData_state w :
  isAvailable (w_storage w) = true ->
  Storage.AuthStorage.clearAuthData w
  = (Normal true, set_browser (with_items without_session) w).
Proof.
  destruct w as [[items accepts clk reads path input tr] a s [available memory]].
  cbn [w_storage isAvailable]. intros ->.
  unfold Storage.AuthStorage.clearAuthData, Storage.AuthStorage.clearAuthToken,
    Storage.AuthStorage.clearUserSession, Storage.removeItem, localStorage_removeItem.
  unfold try_catch, bind, gets, modify, ret. project_state. reflexivity.
Qed.

Lemma setUserSession_refused w userData :
  isAvailable (w_storage w) = true ->
  ls_accepts (w_browser w) Storage.STORAGE_KEYS.USER_SESSION
    (stored_json (envelope userData (clock (w_browser w) (clock_reads (w_browser w))))) = false ->
  Storage.AuthStorage.setUserSession userData w = (Normal false, tick w).
Proof.
  intros Ha Hacc. unfold Storage.AuthStorage.setUserSession. unfold bind at 1.
  rewrite (setItem_envelope w _ userData Ha), Hacc. reflexivity.
Qed.

Lemma setUserSession_state w userData :
  isAvailable (w_storage w) = true ->
  (forall k v, ls_accepts (w_browser w) k v = true) ->
  let b := w_browser w in
  let r := clock_reads b in
  Storage.AuthStorage.setUserSession userData w
  = (Normal true,
     mkWorld
       (mkBrowser
          (<[Storage.STORAGE_KEYS.LOGIN_TIME
             := stored_json (envelope (VStr (Date_toISOString (clock b (S r))))
                               (clock b (S (S r))))]>
             (<[Storage.STORAGE_KEYS.USER_SESSION
                := stored_json (envelope userData (clock b r))]> (ls_items b)))
          (ls_accepts b) (clock b) (S (S (S r))) (pathname b) (taskInput_value b) (trace b))
       (w_auth w) (w_script w) (w_storage w)).
Proof.
  intros Ha Hacc b r. unfold Storage.AuthStorage.setUserSession. unfold bind at 1.
  rewrite (setItem_state w _ userData Ha (Hacc _ _)). cbv iota beta.
  subst b r. destruct w as [[items accepts clk reads path input tr] a s st].
  cbn [w_storage w_browser ls_accepts] in Ha, Hacc.
  unfold tick, Date_now. unfold bind at 1 2 3. project_state.
  match goal with |- context [Storage.setItem ?k ?v ?x] =>
    rewrite (setItem_state x k v Ha (Hacc _ _)) end.
  unfold tick. project_state. reflexivity.
Qed.

(** X18.  The adapter for the session, a life cycle.  On an available
    medium: when the write of the session is refused, [setUserSession]
    answers false and writes nothing, no login time either.  When the
    medium takes every write, it answers true, [getUserSession] then
    returns the session data (faithful JSON data) unchanged, and the login
    time stored is the time read after the session was written.
    [clearAuthData] answers true and removes the three session entries and
    nothing else, after which [getUserSession] and [getAuthToken] return
    [null]. *)
Theorem authStorage_session_life_cycle (w : world) (userData : jsval) :
  let b := w_browser w in
  let r := clock_reads b in
  let w1 := after (Storage.AuthStorage.setUserSession userData) w in
  let w2 := after Storage.AuthStorage.clearAuthData w in
  isAvailable (w_storage w) = true ->
  (ls_accepts b Storage.STORAGE_KEYS.USER_SESSION
     (stored_json (envelope userData (clock b r))) = false ->
   Storage.AuthStorage.setUserSession userData w = (Normal false, tick w))
  /\ ((forall k v, ls_accepts b k v = true) ->
      json_faithful userData = true ->
      Z.abs (clock b r) < 10 ^ 21 -> Z.abs (clock b (S (S r))) < 10 ^ 21 ->
      result (Storage.AuthStorage.setUserSession userData) w = Normal true
      /\ result Storage.AuthStorage.getUserSession w1 = Normal userData
      /\ result (Storage.getItem Storage.STORAGE_KEYS.LOGIN_TIME VNull) w1
         = Normal (VStr (Date_toISOString (clock b (S r)))))
  /\ result Storage.AuthStorage.clearAuthData w = Normal true
  /\ (forall k, ls_items (w_browser w2) !! k
               = if bool_decide (k ∈ session_keys) then None else ls_items b !! k)
  /\ result Storage.AuthStorage.getUserSession w2 = Normal VNull
  /\ result Storage.AuthStorage.getAuthToken w2 = Normal VNull.
Proof.
  intros b r w1 w2 Ha. split; [apply setUserSession_refused, Ha|]. split.
  - intros Hacc Hf Hn Hn2.
    pose proof (setUserSession_state w userData Ha Hacc) as Hset. cbv zeta in Hset.
    fold b r in Hset.
    assert (Hw1 : w1 = snd (Storage.AuthStorage.setUserSession userData w)) by reflexivity.
    rewrite Hset in Hw1. cbn [snd] in Hw1.
    split; [unfold result; rewrite Hset; reflexivity|].
    unfold result, Storage.AuthStorage.getUserSession.
    rewrite !(getItem_cases w1) by (rewrite Hw1; exact Ha).
    rewrite Hw1. cbn [w_browser ls_items fst]. split.
    + rewrite lookup_insert_ne by discriminate. rewrite lookup_insert_eq.
      rewrite (JSON_parse_stringified _ (envelope_faithful userData _ Hf Hn)). reflexivity.
    + rewrite lookup_insert_eq.
      rewrite (JSON_parse_stringified _ (envelope_faithful (VStr _) _ eq_refl Hn2)).
      reflexivity.
  - assert (Hw2 : w2 = set_browser (with_items without_session) w).
    { unfold w2, after. rewrite (clearAuthData_state w Ha). reflexivity. }
    split; [unfold result; rewrite (clearAuthData_state w Ha); reflexivity|].
    assert (Hlook : forall k, ls_items (w_browser w2) !! k
                              = if bool_decide (k ∈ session_keys) then None else ls_items b !! k).
    { intros k. rewrite Hw2. cbn [set_browser w_browser with_items ls_items].
      apply without_session_lookup. }
    split; [exact Hlook|].
    unfold result, Storage.AuthStorage.getUserSession, Storage.AuthStorage.getAuthToken.
    rewrite !(getItem_cases w2) by (rewrite Hw2; exact Ha).
    rewrite !Hlook. split; reflexivity.
Qed.

Lemma authStorage_session_life_cycle_witness :
  result Storage.AuthStorage.getUserSession
    (after (Storage.AuthStorage.setUserSession admin_session) (task_page ∅ "" []))
  = Normal admin_session.
Proof.
  destruct (authStorage_session_life_cycle (task_page ∅ "" []) admin_session eq_refl)
    as (_ & H & _).
  destruct H as (_ & H & _); [reflexivity | reflexivity | reflexivity | reflexivity |].
  exact H.
Defined.

Lemma JSON_parse_token u iat now : JSON_parse (token_for u iat now) = None.
Proof.
  unfold token_for, token_of.
  change token_header with ("e" +:+ "yJhbGciOiJIUzI1NiIsInR5cCI6IkpXVCJ9").
  rewrite append_assoc. reflexivity.
Qed.

(** X19.  The adapter does not read the token that [login] stored.  After a
    login with the stored credentials, the store holds the token as plain
    text under the key that the adapter also uses; the text is not JSON, so
    [AuthStorage.getAuthToken] returns the default [null].  The session
    object, which [login] stored as JSON without envelope, is returned by
    [AuthStorage.getUserSession] as a legacy value. *)
Theorem adapter_misses_login_token (u : Auth.user) (w : world) :
  let b := w_browser w in
  let r := clock_reads b in
  let w1 := after (Auth.login (Auth.username u) (Auth.password u)) w in
  In u Auth.MOCK_USERS ->
  (forall k v, ls_accepts b k v = true) ->
  isAvailable (w_storage w) = true ->
  ls_items (w_browser w1) !! Storage.STORAGE_KEYS.AUTH_TOKEN
  = Some (token_for u (clock b r) (clock b (S r)))
  /\ result Storage.AuthStorage.getAuthToken w1 = Normal VNull
  /\ result Storage.AuthStorage.getUserSession w1 = Normal (currentUser (w_auth w1)).
Proof.
  intros b r w1 Hu Hacc Ha.
  assert (Hw1 : w1 = snd (Auth.login (Auth.username u) (Auth.password u) w)) by reflexivity.
  rewrite (login_state u w Hu Hacc) in Hw1. cbn [snd] in Hw1. fold b r in Hw1.
  destruct (session_lookups (ls_items b) (token_for u (clock b r) (clock b (S r)))
              (stored_json (session_of u (Date_toISOString (clock b (S (S r))))))
              (Date_toISOString (clock b (S (S (S r)))))) as [Htok Hses].
  unfold result, Storage.AuthStorage.getAuthToken, Storage.AuthStorage.getUserSession.
  rewrite !(getItem_cases w1) by (rewrite Hw1; exact Ha).
  rewrite Hw1. cbn [w_browser w_auth ls_items currentUser fst].
  change Storage.STORAGE_KEYS.AUTH_TOKEN with Auth.STORAGE_KEYS.AUTH_TOKEN.
  change Storage.STORAGE_KEYS.USER_SESSION with Auth.STORAGE_KEYS.USER_SESSION.
  rewrite Htok, Hses, JSON_parse_token.
  rewrite JSON_parse_stringified by apply session_of_faithful.
  repeat split; reflexivity.
Qed.

Lemma adapter_misses_login_token_witness :
  result Storage.AuthStorage.getAuthToken logged_in_page = Normal VNull.
Proof.
  destruct (adapter_misses_login_token admin (fresh_world 1700000000000 1 "/login.html"))
    as (_ & H & _); [left; reflexivity | reflexivity | reflexivity | exact H].
Defined.

(** X20.  Constructing a [StorageManager] probes the medium with the key
    [__storage_test__]: the adapter is available exactly when the medium
    takes the probe.  The probe is removed again, and with it an entry of
    that name that was there before; every other entry is as before.  A
    medium that refuses the probe is left untouched. *)
Theorem new_StorageManager_probe (w : world) :
  let probe := "__storage_test__" in
  let b := w_browser w in
  let w1 := after Storage.new_StorageManager w in
  result Storage.new_StorageManager w = Normal tt
  /\ isAvailable (w_storage w1) = ls_accepts b probe probe
  /\ ls_items (w_browser w1)
     = (if ls_accepts b probe probe then delete probe (ls_items b) else ls_items b)
  /\ inMemoryStorage (w_storage w1) = inMemoryStorage (w_storage w).
Proof.
  destruct w as [[items accepts clk reads path input tr] a s [available memory]].
  cbv zeta. unfold result, after, Storage.new_StorageManager, Storage.checkStorageAvailability,
    Storage.set_isAvailable, localStorage_setItem, localStorage_removeItem.
  unfold try_catch, bind, modify, ret. project_state.
  destruct (accepts "__storage_test__" "__storage_test__"); project_state;
    [rewrite delete_insert_eq|]; repeat split; reflexivity.
Qed.

(** ** Sanitizing input *)

Lemma replace_all_append c text a b :
  Validation.replace_all c text (a +:+ b)
  = Validation.replace_all c text a +:+ Validation.replace_all c text b.
Proof.
  induction a as [|x a IH]; [reflexivity|].
  rewrite append_cons. cbn [Validation.replace_all]. rewrite IH, append_assoc. reflexivity.
Qed.

Lemma escape_markup_append a b : escape_markup (a +:+ b) = escape_markup a +:+ escape_markup b.
Proof. unfold escape_markup. rewrite !replace_all_append. reflexivity. Qed.

Lemma escape_markup_cons c s :
  escape_markup (String c s) = escape_markup (String c EmptyString) +:+ escape_markup s.
Proof. rewrite <- escape_markup_append. reflexivity. Qed.

(** What the replacements make of one code unit: an entity, or the code
    unit itself; white space is kept and nothing begins or ends with it
    otherwise. *)
Lemma escape_markup_char c :
  all_chars (fun x => negb (markup_char x)) (escape_markup (String c EmptyString)) = true
  /\ (markup_char c = false -> escape_markup (String c EmptyString) = String c EmptyString)
  /\ (is_white_space c = false ->
      exists x r, escape_markup (String c EmptyString) = String x r
                  /\ is_white_space x = false
                  /\ trimEnd (String x r) = String x r).
Proof.
  destruct c as [[] [] [] [] [] [] [] []];
    (split; [reflexivity|]; split;
     [intros H; first [reflexivity | discriminate H]
     |intros H; first [discriminate H | eexists _, _; repeat split]]).
Qed.

Lemma all_chars_append p a b : all_chars p (a +:+ b) = all_chars p a && all_chars p b.
Proof.
  induction a as [|x a IH]; [reflexivity|]. rewrite append_cons. cbn [all_chars].
  rewrite IH, andb_assoc. reflexivity.
Qed.

Lemma escape_markup_clean s : all_chars (fun x => negb (markup_char x)) (escape_markup s) = true.
Proof.
  induction s as [|c s IH]; [reflexivity|].
  rewrite (escape_markup_cons c s), all_chars_append, IH, (proj1 (escape_markup_char c)).
  reflexivity.
Qed.

Lemma escape_markup_fixed s :
  all_chars (fun x => negb (markup_char x)) s = true -> escape_markup s = s.
Proof.
  induction s as [|c s IH]; [reflexivity|]. cbn [all_chars].
  intros [Hc Hs]%andb_true_iff. apply negb_true_iff in Hc.
  rewrite (escape_markup_cons c s), (proj1 (proj2 (escape_markup_char c)) Hc), (IH Hs).
  reflexivity.
Qed.

Lemma escape_markup_white_space c :
  is_white_space c = true -> escape_markup (String c EmptyString) = String c EmptyString.
Proof. destruct c as [[] [] [] [] [] [] [] []]; intros H; first [reflexivity | discriminate H]. Qed.

Lemma trimStart_escape_markup s : trimStart (escape_markup s) = escape_markup (trimStart s).
Proof.
  induction s as [|c s IH]; [reflexivity|]. rewrite (escape_markup_cons c s). cbn [trimStart].
  destruct (is_white_space c) eqn:Hc.
  - rewrite (escape_markup_white_space c Hc), append_cons, append_nil_l. cbn [trimStart].
    rewrite Hc. exact IH.
  - destruct (proj2 (proj2 (escape_markup_char c)) Hc) as (x & r & Hx & Hws & _).
    rewrite (escape_markup_cons c s), Hx, append_cons. cbn [trimStart]. rewrite Hws.
    reflexivity.
Qed.

Lemma trimEnd_append a b :
  trimEnd (a +:+ b) = match trimEnd b with
                      | EmptyString => trimEnd a
                      | r => a +:+ r
                      end.
Proof.
  induction a as [|x a IH].
  - rewrite append_nil_l. destruct (trimEnd b); reflexivity.
  - rewrite append_cons. cbn [trimEnd]. rewrite IH.
    destruct (trimEnd b) as [|y r]; [reflexivity|].
    rewrite !append_cons. destruct a; reflexivity.
Qed.

Lemma escape_markup_empty s : escape_markup s = "" -> s = "".
Proof.
  destruct s as [|c s]; [reflexivity|]. rewrite (escape_markup_cons c s).
  destruct c as [[] [] [] [] [] [] [] []]; discriminate.
Qed.

Lemma trimEnd_escape_markup s : trimEnd (escape_markup s) = escape_markup (trimEnd s).
Proof.
  induction s as [|c s IH]; [reflexivity|].
  rewrite (escape_markup_cons c s), trimEnd_append, IH. cbn [trimEnd].
  destruct (trimEnd s) as [|y r] eqn:Hs.
  - change (escape_markup "") with "".
    destruct (is_white_space c) eqn:Hc.
    + rewrite (escape_markup_white_space c Hc). cbn [trimEnd]. rewrite Hc. reflexivity.
    + destruct (proj2 (proj2 (escape_markup_char c)) Hc) as (x & t & Hx & _ & He).
      rewrite Hx. exact He.
  - destruct (escape_markup (String y r)) as [|y' r'] eqn:He.
    + apply escape_markup_empty in He. discriminate He.
    + rewrite (escape_markup_cons c (String y r)), He. reflexivity.
Qed.

Lemma trimStart_fixed s : trimStart (trimStart s) = trimStart s.
Proof.
  induction s as [|c s IH]; [reflexivity|]. cbn [trimStart].
  destruct (is_white_space c) eqn:Hc; [exact IH|]. cbn [trimStart]. rewrite Hc. reflexivity.
Qed.

Lemma trimEnd_fixed s : trimEnd (trimEnd s) = trimEnd s.
Proof.
  induction s as [|c s IH]; [reflexivity|]. cbn [trimEnd].
  destruct (trimEnd s) as [|y r] eqn:Hs.
  - destruct (is_white_space c) eqn:Hc; [reflexivity|]. cbn [trimEnd]. rewrite Hc. reflexivity.
  - cbn [trimEnd] in *. rewrite IH. reflexivity.
Qed.

Lemma trimStart_trimEnd s : trimStart s = s -> trimStart (trimEnd s) = trimEnd s.
Proof.
  destruct s as [|c s]; [reflexivity|]. cbn [trimStart trimEnd].
  destruct (is_white_space c) eqn:Hc.
  - intros H. exfalso.
    assert (Hl : forall t, (String.length (trimStart t) <= String.length t)%nat).
    { induction t as [|x t IH]; simpl; [lia|]. destruct (is_white_space x); simpl; lia. }
    specialize (Hl s). rewrite H in Hl. simpl in Hl. lia.
  - intros _. destruct (trimEnd s); cbn [trimStart]; rewrite Hc; reflexivity.
Qed.

Lemma trim_fixed s : trim (trim s) = trim s.
Proof.
  unfold trim. rewrite (trimStart_trimEnd (trimStart s) (trimStart_fixed s)).
  apply trimEnd_fixed.
Qed.

Lemma trim_escape_markup s : trim (escape_markup s) = escape_markup (trim s).
Proof. unfold trim. rewrite trimStart_escape_markup, trimEnd_escape_markup. reflexivity. Qed.

(** X21.  [sanitizeInput] returns what is not a string as it is.  Of a
    string it returns a text without the code units [<], [>], the double
    quote, the apostrophe and [/], and without white space at either end.
    Sanitizing twice gives what sanitizing once gives.  The ampersand is not
    rewritten, so a text that already holds an entity is sanitized to the
    same text as the code unit it stands for. *)
Theorem sanitizeInput_properties (s : string) :
  (forall v, typeof v <> "string" -> Validation.sanitizeInput v = v)
  /\ (exists out,
        Validation.sanitizeInput (VStr s) = VStr out
        /\ all_chars (fun x => negb (markup_char x)) out = true
        /\ trim out = out
        /\ Validation.sanitizeInput (VStr out) = VStr out)
  /\ Validation.sanitizeInput (VStr "&lt;") = Validation.sanitizeInput (VStr "<").
Proof.
  split; [|split; [|reflexivity]].
  - intros v Hv. destruct v; try reflexivity. exfalso. apply Hv. reflexivity.
  - exists (escape_markup (trim s)).
    assert (Htrim : trim (escape_markup (trim s)) = escape_markup (trim s)).
    { rewrite trim_escape_markup, trim_fixed. reflexivity. }
    split; [reflexivity|]. split; [apply escape_markup_clean|]. split; [exact Htrim|].
    change (Validation.sanitizeInput (VStr (escape_markup (trim s))))
      with (VStr (escape_markup (trim (escape_markup (trim s))))).
    rewrite Htrim, (escape_markup_fixed _ (escape_markup_clean (trim s))). reflexivity.
Qed.
(** ** The patterns of the rules *)

Lemma test_many_cons p rest c r :
  Validation.test (Validation.Many p :: rest) (String c r)
  = p c && (Validation.test (Validation.Many p :: rest) r || Validation.test rest r).
Proof. reflexivity. Qed.

(** A repeated class matches a prefix of one or more code units of the
    class, after which the rest of the pattern matches. *)
Lemma test_many p rest s :
  Validation.test (Validation.Many p :: rest) s = true <->
  exists a b, s = a +:+ b /\ a <> "" /\ all_chars p a = true /\ Validation.test rest b = true.
Proof.
  split.
  - induction s as [|c r IH]; [discriminate|]. rewrite test_many_cons.
    intros [Hc [Hm|Hr]%orb_true_iff]%andb_true_iff.
    + destruct (IH Hm) as (a & b & -> & Ha & Hall & Hb).
      exists (String c a), b. cbn [all_chars]. rewrite Hc, Hall.
      repeat split; auto; discriminate.
    + exists (String c EmptyString), r. cbn [all_chars]. rewrite Hc.
      repeat split; auto; discriminate.
  - intros (a & b & -> & Ha & Hall & Hb). induction a as [|c a IH]; [contradiction|].
    rewrite append_cons, test_many_cons. cbn [all_chars] in Hall.
    apply andb_true_iff in Hall as [Hc Hall]. rewrite Hc. cbn [andb].
    destruct a as [|c' a'].
    + rewrite append_nil_l, Hb. apply orb_true_r.
    + rewrite IH; [reflexivity | discriminate | exact Hall].
Qed.

Lemma test_one p rest c r :
  Validation.test (Validation.One p :: rest) (String c r) = p c && Validation.test rest r.
Proof. reflexivity. Qed.

(** The pattern of user names accepts the texts of one or more code units
    of its class. *)
Lemma test_username s :
  Validation.test Validation.VALIDATION_RULES.USERNAME.PATTERN s
  = negb (String.eqb s "") && all_chars Validation.username_char s.
Proof.
  unfold Validation.VALIDATION_RULES.USERNAME.PATTERN.
  induction s as [|c r IH]; [reflexivity|]. rewrite test_many_cons, IH.
  cbn [all_chars Validation.test String.eqb negb andb].
  destruct (Validation.username_char c); [|reflexivity]. cbn [andb].
  destruct r as [|c' r']; [reflexivity|]. cbn [String.eqb negb andb orb].
  apply orb_false_r.
Qed.

Lemma validateUsername_string s :
  Validation.validateUsername (VStr s)
  = Normal (Validation.verdict (if String.eqb s "" then None else username_message (trim s))).
Proof.
  unfold Validation.validateUsername, username_message. cbn [truthy negb].
  destruct (String.eqb s ""); cbn [negb]; [reflexivity|].
  cbn [Validation.call_trim cbind].
  change Validation.VALIDATION_RULES.USERNAME.MIN_LENGTH with 2.
  change Validation.VALIDATION_RULES.USERNAME.MAX_LENGTH with 30.
  set (t := trim s). set (n := Z.of_nat (String.length t)).
  destruct (Z.ltb_spec n 2) as [Hs|Hs]; [reflexivity|].
  destruct (30 <? n); [reflexivity|].
  rewrite test_username.
  assert (Hne : String.eqb t "" = false).
  { destruct t; [simpl in n; lia | reflexivity]. }
  rewrite Hne. cbn [negb andb]. destruct (all_chars _ t); reflexivity.
Qed.

(** X22.  [validateUsername] on a string: the empty string passes (the
    field may be left out); otherwise the text is trimmed and has to be 2
    to 30 code units long, of letters a-z and A-Z, digits, underscore, dot
    and dash only; the message names the first of these requirements that
    fails.  On a value that is falsy it passes, on any other value that is
    not a string it raises a TypeError. *)
Theorem validateUsername_accepts (s : string) :
  let t := trim s in
  let n := Z.of_nat (String.length t) in
  Validation.validateUsername (VStr s)
  = Normal (Validation.verdict
      (if String.eqb s "" then None
       else if n <? 2 then Some "Username must be at least 2 characters"
       else if 30 <? n then Some "Username cannot exceed 30 characters"
       else if all_chars Validation.username_char t then None
       else Some "Username can only contain letters, numbers, dots, dashes, and underscores"))
  /\ (forall v, truthy v = false -> Validation.validateUsername v = Normal (Validation.verdict None))
  /\ (forall v, truthy v = true -> typeof v <> "string" ->
      Validation.validateUsername v = Throw TypeError).
Proof.
  intros t n. split; [apply validateUsername_string|]. split.
  - intros v Hv. unfold Validation.validateUsername. rewrite Hv. reflexivity.
  - intros v Hv Ht. unfold Validation.validateUsername. rewrite Hv. cbn [negb].
    destruct v; try reflexivity. exfalso. apply Ht. reflexivity.
Qed.

Lemma validateEmail_string s :
  s <> "" ->
  Validation.validateEmail (VStr s) = Normal (Validation.verdict (email_message (trim s))).
Proof.
  intros Hne. unfold Validation.validateEmail, email_message. cbn [truthy].
  destruct (String.eqb_spec s "") as [E|_]; [contradiction|]. cbn [negb Validation.call_trim cbind].
  destruct (Validation.test _ (trim s)); reflexivity.
Qed.

(** X23.  [validateEmail] on a string that is not empty passes exactly
    when the trimmed text has the shape [local@domain.tld]: three parts
    that are not empty and hold neither white space nor [@], with one [@]
    after the first and a dot between the other two.  Otherwise the message
    is the one for an invalid address. *)
Theorem validateEmail_accepts (s : string) :
  s <> "" ->
  (Validation.validateEmail (VStr s) = Normal (Validation.verdict None)
   \/ Validation.validateEmail (VStr s)
      = Normal (Validation.verdict (Some "Please enter a valid email address")))
  /\ (Validation.validateEmail (VStr s) = Normal (Validation.verdict None) <->
      exists local domain tld,
        trim s = local +:+ "@" +:+ domain +:+ "." +:+ tld
        /\ local <> "" /\ domain <> "" /\ tld <> ""
        /\ all_chars Validation.email_char local = true
        /\ all_chars Validation.email_char domain = true
        /\ all_chars Validation.email_char tld = true).
Proof.
  intros Hne.
  assert (Hrun : Validation.validateEmail (VStr s)
    = Normal (Validation.verdict
        (if Validation.test Validation.VALIDATION_RULES.EMAIL.PATTERN (trim s)
         then None else Some "Please enter a valid email address"))).
  { unfold Validation.validateEmail. cbn [truthy].
    destruct (String.eqb_spec s "") as [E|_]; [contradiction|]. reflexivity. }
  assert (Hshape : Validation.test Validation.VALIDATION_RULES.EMAIL.PATTERN (trim s) = true <->
    exists local domain tld,
      trim s = local +:+ "@" +:+ domain +:+ "." +:+ tld
      /\ local <> "" /\ domain <> "" /\ tld <> ""
      /\ all_chars Validation.email_char local = true
      /\ all_chars Validation.email_char domain = true
      /\ all_chars Validation.email_char tld = true).
  { unfold Validation.VALIDATION_RULES.EMAIL.PATTERN. rewrite test_many. split.
    - intros (local & b & -> & Hl & Hlc & Hb).
      destruct b as [|c b]; [discriminate Hb|]. rewrite test_one in Hb.
      apply andb_true_iff in Hb as [Hat Hb]. apply Ascii.eqb_eq in Hat. subst c.
      apply test_many in Hb as (domain & b' & -> & Hd & Hdc & Hb').
      destruct b' as [|c b']; [discriminate Hb'|]. rewrite test_one in Hb'.
      apply andb_true_iff in Hb' as [Hdot Hb']. apply Ascii.eqb_eq in Hdot. subst c.
      apply test_many in Hb' as (tld & e & -> & Ht & Htc & He).
      cbn [Validation.test] in He. apply String.eqb_eq in He. subst e.
      exists local, domain, tld. rewrite append_nil_r. repeat split; assumption.
    - intros (local & domain & tld & -> & Hl & Hd & Ht & Hlc & Hdc & Htc).
      exists local, ("@" +:+ domain +:+ "." +:+ tld). repeat split; try assumption.
      change ("@" +:+ domain +:+ "." +:+ tld) with (String "@"%char (domain +:+ "." +:+ tld)).
      rewrite test_one. cbn [Ascii.eqb Bool.eqb andb]. apply test_many.
      exists domain, ("." +:+ tld). repeat split; try assumption.
      change ("." +:+ tld) with (String "."%char tld).
      rewrite test_one. cbn [Ascii.eqb Bool.eqb andb]. apply test_many.
      exists tld, EmptyString. rewrite append_nil_r. repeat split; assumption. }
  rewrite Hrun. split.
  - destruct (Validation.test _ (trim s)); [left | right]; reflexivity.
  - rewrite <- Hshape. destruct (Validation.test _ (trim s)); split; intros H;
      first [reflexivity | discriminate H].
Qed.

Lemma validateEmail_accepts_witness :
  Validation.validateEmail (VStr " admin@taskmanager.com ") = Normal (Validation.verdict None).
Proof.
  apply (validateEmail_accepts " admin@taskmanager.com "); [discriminate|].
  exists "admin", "taskmanager", "com". repeat split; discriminate.
Defined.
(** ** Validating a field *)

Lemma validateField_array validators value rules :
  Validation.validateField validators value (VArr rules)
  = cbind (Validation.first_error validators value rules)
      (fun errors => Normal (field_verdict errors)).
Proof. reflexivity. Qed.

Lemma first_error_app validators value pre rest :
  Validation.first_error validators value pre = Normal [] ->
  Validation.first_error validators value (pre ++ rest)
  = Validation.first_error validators value rest.
Proof.
  induction pre as [|rule pre IH]; [reflexivity|]. cbn [app Validation.first_error].
  destruct (match rule with VStr name => validators !! name | _ => None end) as [validate|];
    [|exact IH].
  destruct (validate value) as [result|]; [|discriminate]. cbn [cbind].
  destruct (get_prop result "isValid") as [ok|]; [|discriminate]. cbn [cbind].
  destruct (negb (truthy ok)); [|exact IH].
  destruct (get_prop result "error"); discriminate.
Qed.

Lemma first_error_at_most_one validators value rules errors :
  Validation.first_error validators value rules = Normal errors -> (length errors <= 1)%nat.
Proof.
  induction rules as [|rule rules IH]; cbn [Validation.first_error].
  - intros H. injection H as <-. simpl. lia.
  - destruct (match rule with VStr name => validators !! name | _ => None end) as [validate|];
      [|exact IH].
    destruct (validate value) as [result|]; [|discriminate]. cbn [cbind].
    destruct (get_prop result "isValid") as [ok|]; [|discriminate]. cbn [cbind].
    destruct (negb (truthy ok)); [|exact IH].
    destruct (get_prop result "error"); [|discriminate]. cbn [cbind].
    intros H. injection H as <-. simpl. lia.
Qed.

(** X24.  [validateField] on an array of rules stops at the first rule
    that fails: the result is invalid, holds the one error of that rule, and
    the rules after it are not consulted, whatever they are.  Names without
    a validator, and rules that are not strings, are passed over.  When all
    rules pass the result is valid with no error.  In every result the list
    of errors has at most one entry and the field is valid exactly when the
    list is empty. *)
Theorem validateField_first_error
  (validators : gmap string Validation.validator) (value : jsval) (pre post : list jsval) :
  Validation.first_error validators value pre = Normal [] ->
  (forall name validate result error,
     validators !! name = Some validate ->
     validate value = Normal result ->
     get_prop result "isValid" = Normal (VBool false) ->
     get_prop result "error" = Normal error ->
     Validation.validateField validators value (VArr (pre ++ VStr name :: post))
     = Normal (field_verdict [error]))
  /\ (forall rule,
        match rule with VStr name => validators !! name | _ => None end = None ->
        Validation.validateField validators value (VArr (pre ++ rule :: post))
        = Validation.validateField validators value (VArr post))
  /\ Validation.validateField validators value (VArr pre) = Normal (field_verdict [])
  /\ (forall rules result,
        Validation.validateField validators value (VArr rules) = Normal result ->
        exists errors,
          result = field_verdict errors /\ (length errors <= 1)%nat
          /\ get_prop result "isValid" = Normal (VBool (length errors =? 0)%nat)).
Proof.
  intros Hpre. split; [|split; [|split]].
  - intros name validate result error Hlook Hrun Hvalid Herror.
    rewrite validateField_array, (first_error_app _ _ _ _ Hpre).
    cbn [Validation.first_error]. rewrite Hlook, Hrun. cbn [cbind]. rewrite Hvalid.
    cbn [cbind truthy negb]. rewrite Herror. reflexivity.
  - intros rule Hnone.
    rewrite !validateField_array, (first_error_app _ _ _ _ Hpre).
    destruct rule; cbn [Validation.first_error]; unfold Validation.validator in *;
      rewrite ?Hnone; reflexivity.
  - rewrite validateField_array, Hpre. reflexivity.
  - intros rules result. rewrite validateField_array.
    destruct (Validation.first_error validators value rules) as [errors|] eqn:He;
      [|discriminate].
    cbn [cbind]. intros H. injection H as <-. exists errors.
    split; [reflexivity|]. split; [exact (first_error_at_most_one _ _ _ _ He) | reflexivity].
Qed.

Lemma validateField_first_error_witness :
  Validation.validateField Validation.setupDefaultValidators (VStr "abc")
    (VArr [VStr "required"; VStr "password"; VStr "email"])
  = Normal (field_message (Some "Password must be at least 6 characters")).
Proof.
  destruct (validateField_first_error Validation.setupDefaultValidators (VStr "abc")
              [VStr "required"] [VStr "email"]) as (H & _); [reflexivity|].
  apply (H "password" Validation.validatePassword
           (Validation.verdict (Some "Password must be at least 6 characters")));
    reflexivity.
Defined.
(** ** The rules of the login form *)

Lemma validateRequired_string s :
  Validation.validateRequired (VStr s)
  = Normal (Validation.verdict
      (if String.eqb (trim s) "" then Some "This field is required" else None)).
Proof.
  unfold Validation.validateRequired. cbn [to_string cbind].
  destruct (trim s); reflexivity.
Qed.

Lemma fin_ltb_integer a b : fin_ltb a 0 b 0 = (a <? b).
Proof.
  unfold fin_ltb. change (Z.min 0 0) with 0. change (10 ^ (0 - 0)) with 1.
  rewrite !Z.mul_1_r. reflexivity.
Qed.

Lemma validatePassword_string p :
  p <> "" ->
  Validation.validatePassword (VStr p) = Normal (Validation.verdict (password_message p)).
Proof.
  intros Hne. unfold Validation.validatePassword, password_message. cbn [truthy].
  destruct (String.eqb_spec p "") as [E|_]; [contradiction|]. cbn [negb].
  change (get_prop (VStr p) "length") with (Normal (VInt (Z.of_nat (String.length p)))).
  cbn [cbind]. unfold Validation.less_than, Validation.greater_than, VInt.
  cbn [to_number cbind]. rewrite !fin_ltb_integer.
  change Validation.VALIDATION_RULES.PASSWORD.MIN_LENGTH with 6.
  change Validation.VALIDATION_RULES.PASSWORD.MAX_LENGTH with 128.
  destruct (_ <? 6); [reflexivity|]. destruct (128 <? _); reflexivity.
Qed.

Lemma validateUsernameOrEmail_string u :
  trim u <> "" ->
  Validation.validateUsernameOrEmail (VStr u)
  = Normal (Validation.verdict
      (if includes (trim u) "@" then email_message (trim u) else username_message (trim u))).
Proof.
  intros Hne. unfold Validation.validateUsernameOrEmail. cbn [truthy].
  assert (Hu : String.eqb u "" = false).
  { destruct u; [exfalso; apply Hne; reflexivity | reflexivity]. }
  rewrite Hu. cbn [negb Validation.call_trim cbind].
  destruct (includes (trim u) "@").
  - rewrite (validateEmail_string _ Hne), trim_fixed. reflexivity.
  - rewrite validateUsername_string, trim_fixed.
    destruct (String.eqb_spec (trim u) "") as [E|_]; [contradiction | reflexivity].
Qed.

Lemma verdict_valid e :
  get_prop (Validation.verdict e) "isValid"
  = Normal (VBool match e with None => true | Some _ => false end)
  /\ get_prop (Validation.verdict e) "error"
     = Normal match e with None => VNull | Some m => VStr m end.
Proof. split; reflexivity. Qed.

(** The result of a field with two rules, the first of which is [required]. *)
Lemma required_then validators second (rule : Validation.validator) s e :
  validators !! "required" = Some Validation.validateRequired ->
  validators !! second = Some rule ->
  (trim s <> "" -> rule (VStr s) = Normal (Validation.verdict e)) ->
  (forall m, e = Some m -> m <> "") ->
  Validation.validateField validators (VStr s) (VArr [VStr "required"; VStr second])
  = Normal (field_message (if String.eqb (trim s) "" then Some "This field is required" else e)).
Proof.
  intros Hreq Hsecond Hrule Hmsg. rewrite validateField_array.
  cbn [Validation.first_error]. unfold Validation.validator in *.
  rewrite Hreq, validateRequired_string. cbn [cbind].
  destruct (String.eqb_spec (trim s) "") as [E|E]; [reflexivity|].
  rewrite (proj1 (verdict_valid None)). cbn [cbind truthy negb].
  rewrite Hsecond, (Hrule E). cbn [cbind].
  destruct (verdict_valid e) as [-> ->]. cbn [cbind].
  destruct e as [m|]; cbn [truthy negb cbind]; [|reflexivity].
  unfold field_message, field_verdict. cbn [length Nat.eqb truthy].
  destruct (String.eqb_spec m "") as [Em|_]; [exfalso; apply (Hmsg m eq_refl Em) | reflexivity].
Qed.

Lemma username_message_nonempty t m : username_message t = Some m -> m <> "".
Proof.
  unfold username_message. repeat (destruct (_ <? _)); try destruct (all_chars _ _);
    intros H; try discriminate H; injection H as <-; discriminate.
Qed.

Lemma email_message_nonempty t m : email_message t = Some m -> m <> "".
Proof.
  unfold email_message. destruct (Validation.test _ _); intros H; [discriminate H|].
  injection H as <-. discriminate.
Qed.

Lemma password_message_nonempty p m : password_message p = Some m -> m <> "".
Proof.
  unfold password_message. repeat (destruct (_ <? _));
    intros H; try discriminate H; injection H as <-; discriminate.
Qed.

Lemma username_field u :
  Validation.validateField Validation.setupDefaultValidators (VStr u) username_rules
  = Normal (field_message
      (if String.eqb (trim u) "" then Some "This field is required"
       else if includes (trim u) "@" then email_message (trim u)
       else username_message (trim u))).
Proof.
  apply (required_then _ "usernameOrEmail" Validation.validateUsernameOrEmail);
    try reflexivity.
  - apply validateUsernameOrEmail_string.
  - intros m. destruct (includes (trim u) "@");
      [apply email_message_nonempty | apply username_message_nonempty].
Qed.

Lemma password_field p :
  Validation.validateField Validation.setupDefaultValidators (VStr p) password_rules
  = Normal (field_message
      (if String.eqb (trim p) "" then Some "This field is required" else password_message p)).
Proof.
  apply (required_then _ "password" Validation.validatePassword); try reflexivity.
  - intros Hne. apply validatePassword_string. intros ->. apply Hne. reflexivity.
  - apply password_message_nonempty.
Qed.
(** ** Letter case and the rules of the login form *)

Ltac each_code_unit c := destruct c as [[] [] [] [] [] [] [] []]; reflexivity.

Lemma lower_char_username c :
  Validation.username_char (lower_char c) = Validation.username_char c.
Proof. each_code_unit c. Qed.

Lemma lower_char_email c : Validation.email_char (lower_char c) = Validation.email_char c.
Proof. each_code_unit c. Qed.

Lemma lower_char_at c : Ascii.eqb "@" (lower_char c) = Ascii.eqb "@" c.
Proof. each_code_unit c. Qed.

Lemma lower_char_dot c : Ascii.eqb "." (lower_char c) = Ascii.eqb "." c.
Proof. each_code_unit c. Qed.

Lemma lower_char_markup c : markup_char (lower_char c) = markup_char c.
Proof. each_code_unit c. Qed.

Lemma all_chars_toLowerCase p s :
  (forall c, p (lower_char c) = p c) -> all_chars p (toLowerCase s) = all_chars p s.
Proof.
  intros Hp. induction s as [|c s IH]; [reflexivity|].
  cbn [toLowerCase all_chars]. rewrite Hp, IH. reflexivity.
Qed.

Lemma length_toLowerCase s : String.length (toLowerCase s) = String.length s.
Proof. induction s as [|c s IH]; [reflexivity|]. cbn [toLowerCase String.length]. now rewrite IH. Qed.

Lemma toLowerCase_empty s : toLowerCase s = "" -> s = "".
Proof. destruct s; [reflexivity | discriminate]. Qed.

Lemma test_toLowerCase pattern s :
  List.Forall (fun a => forall c, class_of a (lower_char c) = class_of a c) pattern ->
  Validation.test pattern (toLowerCase s) = Validation.test pattern s.
Proof.
  intros Hall. revert s. induction Hall as [|a rest Ha _ IH]; intros s.
  - destruct s; reflexivity.
  - destruct a as [p|p]; cbn [class_of] in Ha.
    + destruct s as [|c r]; [reflexivity|]. cbn [toLowerCase].
      rewrite !test_one, Ha, IH. reflexivity.
    + induction s as [|c r IHr]; [reflexivity|]. cbn [toLowerCase].
      rewrite !test_many_cons, Ha, IHr, IH. reflexivity.
Qed.

Lemma email_message_toLowerCase t : email_message (toLowerCase t) = email_message t.
Proof.
  unfold email_message. rewrite test_toLowerCase; [reflexivity|].
  unfold Validation.VALIDATION_RULES.EMAIL.PATTERN.
  repeat constructor; cbn [class_of];
    auto using lower_char_email, lower_char_at, lower_char_dot.
Qed.

Lemma username_message_toLowerCase t : username_message (toLowerCase t) = username_message t.
Proof.
  unfold username_message.
  rewrite length_toLowerCase, (all_chars_toLowerCase _ _ lower_char_username). reflexivity.
Qed.

Lemma prefix_at_lower_char c r r' :
  String.prefix "@" (String (lower_char c) r') = String.prefix "@" (String c r).
Proof.
  destruct c as [[] [] [] [] [] [] [] []]; try reflexivity; destruct r, r'; reflexivity.
Qed.

Lemma includes_at_toLowerCase s : includes (toLowerCase s) "@" = includes s "@".
Proof.
  induction s as [|c s IH]; [reflexivity|]. cbn [toLowerCase includes].
  rewrite IH, (prefix_at_lower_char c s). reflexivity.
Qed.

(** [findUser] looks at its first argument through [toLowerCase] and [trim] only. *)
Lemma findUser_normalized a b p :
  trim (toLowerCase a) = trim (toLowerCase b) -> Auth.findUser a p = Auth.findUser b p.
Proof. intros H. unfold Auth.findUser. rewrite H. reflexivity. Qed.

(** What [findUser] finds: one of the two accounts, under its name or its
    address, with its password. *)
Lemma findUser_found u p user :
  Auth.findUser u p = Some user ->
  In (toLowerCase (trim u), p)
    [("admin", "password123"); ("admin@taskmanager.com", "password123");
     ("user", "user123"); ("user@taskmanager.com", "user123")].
Proof.
  unfold Auth.findUser. rewrite trim_toLowerCase. cbv zeta.
  set (n := toLowerCase (trim u)). intros H.
  apply List.find_some in H as [Hin H].
  apply andb_true_iff in H as [Hn Hp]. apply String.eqb_eq in Hp. subst p.
  apply orb_true_iff in Hn as [Hn|Hn]; apply String.eqb_eq in Hn; rewrite <- Hn;
    destruct Hin as [<-|[<-|[]]]; cbn; tauto.
Qed.
(** X25.  The two fields of the login form, which hold strings.  Each
    reports at most one message.  A field of white space only is reported
    as required.  Otherwise the name is judged after trimming, as an
    address when it holds an [@] and as a user name when not, and the
    password is judged by its length alone, which is taken before trimming:
    the password field passes exactly when it is not blank and is 6 to 128
    code units long. *)
Theorem login_form_fields (u p : string) :
  Validation.validateField Validation.setupDefaultValidators (VStr u) username_rules
  = Normal (field_message
      (if String.eqb (trim u) "" then Some "This field is required"
       else if includes (trim u) "@" then email_message (trim u)
       else username_message (trim u)))
  /\ Validation.validateField Validation.setupDefaultValidators (VStr p) password_rules
     = Normal (field_message
         (if String.eqb (trim p) "" then Some "This field is required"
          else password_message p))
  /\ (Validation.validateField Validation.setupDefaultValidators (VStr p) password_rules
      = Normal (field_message None)
      <-> trim p <> "" /\ 6 <= Z.of_nat (String.length p) <= 128).
Proof.
  split; [apply username_field|]. split; [apply password_field|].
  rewrite password_field. unfold password_message.
  destruct (String.eqb_spec (trim p) "") as [E|E].
  - split; [discriminate | tauto].
  - destruct (Z.ltb_spec (Z.of_nat (String.length p)) 6);
      [|destruct (Z.ltb_spec 128 (Z.of_nat (String.length p)))];
      (split; [first [discriminate | intros _; split; [exact E | lia]] | intros [_ ?]]);
      first [reflexivity | lia].
Qed.

(** X26.  The login form lets through every pair that [findUser] accepts:
    when [findUser] finds an account for what was typed, both fields pass
    their rules, [sanitizeInput] changes nothing but the white space around
    the name, and [findUser] finds the same account for the texts that
    [getFormData] hands to [login]. *)
Theorem login_form_accepts_accounts (u p : string) (user : Auth.user) :
  Auth.findUser u p = Some user ->
  Validation.validateField Validation.setupDefaultValidators (VStr u) username_rules
  = Normal (field_message None)
  /\ Validation.validateField Validation.setupDefaultValidators (VStr p) password_rules
     = Normal (field_message None)
  /\ Validation.sanitizeInput (VStr u) = VStr (trim u)
  /\ Validation.sanitizeInput (VStr p) = VStr p
  /\ Auth.findUser (trim u) p = Some user.
Proof.
  intros Hfound. pose proof (findUser_found _ _ _ Hfound) as Hin.
  assert (Hsame : Auth.findUser (trim u) p = Auth.findUser u p).
  { apply findUser_normalized. rewrite !trim_toLowerCase, trim_fixed. reflexivity. }
  rewrite Hsame, username_field, password_field.
  change (Validation.sanitizeInput (VStr u)) with (VStr (escape_markup (trim u))).
  change (Validation.sanitizeInput (VStr p)) with (VStr (escape_markup (trim p))).
  set (t := trim u) in *.
  rewrite <- (includes_at_toLowerCase t), <- (email_message_toLowerCase t),
    <- (username_message_toLowerCase t).
  assert (Ht : String.eqb t "" = String.eqb (toLowerCase t) "") by (destruct t; reflexivity).
  assert (Hclean : all_chars (fun x => negb (markup_char x)) t
                   = all_chars (fun x => negb (markup_char x)) (toLowerCase t)).
  { symmetry. apply all_chars_toLowerCase. intros c. now rewrite lower_char_markup. }
  rewrite Ht.
  cbn [In] in Hin.
  destruct Hin as [H|[H|[H|[H|[]]]]]; injection H as Hn <-; rewrite <- Hn in *;
    (split; [reflexivity|]); (split; [reflexivity|]);
    (split; [|split; [reflexivity | exact Hfound]]);
    (rewrite escape_markup_fixed; [reflexivity | rewrite Hclean; reflexivity]).
Qed.

Lemma login_form_accepts_accounts_witness :
  Validation.validateField Validation.setupDefaultValidators
    (VStr " Admin@TaskManager.com ") username_rules
  = Normal (field_message None)
  /\ Validation.validateField Validation.setupDefaultValidators
       (VStr "password123") password_rules
     = Normal (field_message None)
  /\ Validation.sanitizeInput (VStr " Admin@TaskManager.com ") = VStr "Admin@TaskManager.com"
  /\ Validation.sanitizeInput (VStr "password123") = VStr "password123"
  /\ Auth.findUser "Admin@TaskManager.com" "password123"
     = Some (Auth.mkUser "admin123" "admin" "password123" "admin@taskmanager.com" "admin").
Proof.
  exact (login_form_accepts_accounts " Admin@TaskManager.com " "password123" _ eq_refl).
Defined.
(** ** The filter *)

Lemma handleFilterChange_state f w :
  after (Script.handleFilterChange f) w
  = set_script (fun s => mkScript (tasks s) f (script_currentUser s)) w.
Proof.
  unfold after, Script.handleFilterChange, Script.set_currentFilter, seq, bind, modify.
  cbv beta iota zeta.
  match goal with |- context [Script.renderTasks ?x] =>
    pose proof (renderTasks_state x) as H; destruct (Script.renderTasks x) as [[[]|e] w'] end;
    exact H.
Qed.

(** X27.  The three views of the filter.  [handleFilterChange] changes the
    filter and nothing else: the task list, the session and the browser,
    with its store, are as before.  After it [getFilteredTasks] shows, for
    [active] and [completed], two lists that share no task and together
    hold every task once, and for any other value of the filter the whole
    list. *)
Theorem filter_views (w : world) :
  let view f := result Script.getFilteredTasks (after (Script.handleFilterChange f) w) in
  let all := tasks (w_script w) in
  exists active completed,
    view "active" = Normal active
    /\ view "completed" = Normal completed
    /\ (forall f, f <> "active" -> f <> "completed" -> view f = Normal all)
    /\ (length active + length completed = length all)%nat
    /\ (forall t, In t all <-> In t active \/ In t completed)
    /\ (forall t, In t active -> In t completed -> False)
    /\ (forall f, let w1 := after (Script.handleFilterChange f) w in
          tasks (w_script w1) = all /\ w_browser w1 = w_browser w
          /\ w_auth w1 = w_auth w /\ w_storage w1 = w_storage w
          /\ script_currentUser (w_script w1) = script_currentUser (w_script w)).
Proof.
  cbv zeta.
  assert (Hview : forall f,
    result Script.getFilteredTasks (after (Script.handleFilterChange f) w)
    = Normal (if String.eqb f "active"
              then List.filter (fun t => negb (Script.completed t)) (tasks (w_script w))
              else if String.eqb f "completed"
              then List.filter Script.completed (tasks (w_script w))
              else tasks (w_script w))).
  { intros f. rewrite handleFilterChange_state. destruct w as [b a [l g u] s].
    unfold result, Script.getFilteredTasks, bind, gets, ret. cbn.
    destruct (String.eqb f "active"); [reflexivity|].
    destruct (String.eqb f "completed"); reflexivity. }
  exists (List.filter (fun t => negb (Script.completed t)) (tasks (w_script w))),
         (List.filter Script.completed (tasks (w_script w))).
  split; [apply (Hview "active")|]. split; [apply (Hview "completed")|].
  split.
  { intros f Ha Hc. rewrite Hview.
    destruct (String.eqb_spec f "active"); [contradiction|].
    destruct (String.eqb_spec f "completed"); [contradiction | reflexivity]. }
  split; [symmetry; apply filter_split_length|]. split.
  { intros t. rewrite !List.filter_In. destruct (Script.completed t); cbn [negb]; intuition discriminate. }
  split.
  { intros t [_ Ha]%List.filter_In [_ Hc]%List.filter_In. rewrite Hc in Ha. discriminate Ha. }
  intros f. rewrite handleFilterChange_state. destruct w as [b a [l g u] s].
  repeat split.
Qed.
(** ** Validating a form *)

Lemma default_validator_total name validate v :
  Validation.setupDefaultValidators !! name = Some validate ->
  text_or_missing v ->
  exists e, validate v = Normal (Validation.verdict e) /\ (forall m, e = Some m -> m <> "").
Proof.
  unfold Validation.setupDefaultValidators. intros Hlook Hv.
  repeat (apply lookup_insert_Some in Hlook; destruct Hlook as [[_ <-]|[_ Hlook]]);
    [| | | | | rewrite lookup_empty in Hlook; discriminate Hlook];
    (destruct Hv as [->|[s ->]];
      [first [ exists None; split; [reflexivity | discriminate]
             | exists (Some "This field is required"); split;
               [reflexivity | intros m H; injection H as <-; discriminate] ] |]).
  - (* usernameOrEmail *)
    destruct (String.eqb_spec (trim s) "") as [E|E].
    + exists None. split; [|discriminate].
      unfold Validation.validateUsernameOrEmail. cbn [truthy].
      destruct (String.eqb s ""); [reflexivity|]. cbn [negb Validation.call_trim cbind].
      rewrite E. reflexivity.
    + eexists. split; [apply (validateUsernameOrEmail_string _ E)|].
      intros m. destruct (includes (trim s) "@");
        [apply email_message_nonempty | apply username_message_nonempty].
  - (* password *)
    destruct (String.eqb_spec s "") as [->|E].
    + exists None. split; [reflexivity | discriminate].
    + eexists. split; [apply (validatePassword_string _ E) | apply password_message_nonempty].
  - (* username *)
    eexists. split; [apply validateUsername_string|].
    intros m. destruct (String.eqb s ""); [discriminate | apply username_message_nonempty].
  - (* email *)
    destruct (String.eqb_spec s "") as [->|E].
    + exists None. split; [reflexivity | discriminate].
    + eexists. split; [apply (validateEmail_string _ E) | apply email_message_nonempty].
  - (* required *)
    eexists. split; [apply validateRequired_string|].
    intros m. destruct (String.eqb (trim s) ""); [|discriminate].
    intros H; injection H as <-; discriminate.
Qed.

Lemma first_error_default v names :
  text_or_missing v ->
  exists e, Validation.first_error Validation.setupDefaultValidators v (map VStr names)
            = Normal match e with Some m => [VStr m] | None => [] end
            /\ (forall m, e = Some m -> m <> "").
Proof.
  intros Hv. induction names as [|name names IH].
  - exists None. split; [reflexivity | discriminate].
  - cbn [map Validation.first_error].
    destruct (Validation.setupDefaultValidators !! name) as [validate|] eqn:Hlook; [|exact IH].
    destruct (default_validator_total _ _ _ Hlook Hv) as (e & -> & Hm). cbn [cbind].
    destruct (verdict_valid e) as [-> ->]. cbn [cbind].
    destruct e as [m|]; cbn [truthy negb cbind]; [|exact IH].
    exists (Some m). split; [reflexivity | exact Hm].
Qed.

Lemma validateField_default v names :
  text_or_missing v ->
  exists e, Validation.validateField Validation.setupDefaultValidators v (VArr (map VStr names))
            = Normal (field_message e)
            /\ (forall m, e = Some m -> m <> "").
Proof.
  intros Hv. destruct (first_error_default v names Hv) as (e & He & Hm).
  exists e. split; [|exact Hm]. rewrite validateField_array, He. cbn [cbind].
  destruct e as [m|]; [|reflexivity].
  unfold field_message, field_verdict. cbn [length Nat.eqb truthy].
  destruct (String.eqb_spec m "") as [E|_]; [exfalso; exact (Hm m eq_refl E) | reflexivity].
Qed.

Lemma obj_get_text_fields data f : text_or_missing (obj_get (text_fields data) f).
Proof.
  induction data as [|[k s] data IH]; [left; reflexivity|].
  cbn [text_fields map obj_get fst snd]. destruct (String.eqb k f); [right; eauto | exact IH].
Qed.
Lemma has_own_In o k : has_own o k = true <-> In k (map fst o).
Proof.
  induction o as [|[k' v] o IH]; cbn [has_own map In fst]; [split; [discriminate | tauto]|].
  rewrite orb_true_iff, IH, String.eqb_eq. tauto.
Qed.

Lemma In_insert_index i k v o x : In x (obj_insert_index i k v o) <-> x = (k, v) \/ In x o.
Proof.
  induction o as [|[k' v'] o IH]; cbn [obj_insert_index In]; [intuition|].
  destruct (array_index k') as [j|]; [destruct (j <? i)%N|]; cbn [In]; rewrite ?IH; intuition.
Qed.

Lemma In_obj_set_new k v o x :
  has_own o k = false -> In x (obj_set k v o) <-> x = (k, v) \/ In x o.
Proof.
  intros H. unfold obj_set. rewrite H. destruct (array_index k).
  - apply In_insert_index.
  - rewrite in_app_iff. cbn [In]. intuition.
Qed.

Lemma forallb_In {A} (p : A -> bool) l l' :
  (forall x, In x l <-> In x l') -> forallb p l = forallb p l'.
Proof.
  intros H. apply eq_true_iff_eq. rewrite !forallb_forall.
  split; intros Hp x Hx; apply Hp, H, Hx.
Qed.

Lemma forallb_obj_set_new p k v o :
  has_own o k = false -> forallb p (obj_set k v o) = forallb p o && p (k, v).
Proof.
  intros H. rewrite andb_comm. change (p (k, v) && forallb p o) with (forallb p ((k, v) :: o)).
  apply forallb_In. intros x. rewrite (In_obj_set_new _ _ _ _ H). cbn [In]. intuition.
Qed.

Lemma has_own_obj_set_new k v o k' :
  has_own o k = false -> has_own (obj_set k v o) k' = String.eqb k k' || has_own o k'.
Proof.
  intros H. apply eq_true_iff_eq. rewrite orb_true_iff, String.eqb_eq, !has_own_In, !in_map_iff.
  split.
  - intros ([a b] & <- & Hin). apply (In_obj_set_new _ _ _ _ H) in Hin as [E|Hin].
    + injection E as -> ->. left. reflexivity.
    + right. exists (a, b). auto.
  - intros [<-|([a b] & <- & Hin)].
    + exists (k, v). split; [reflexivity|]. apply (In_obj_set_new _ _ _ _ H). auto.
    + exists (a, b). split; [reflexivity|]. apply (In_obj_set_new _ _ _ _ H). auto.
Qed.

Lemma obj_get_In o k : has_own o k = true -> In (k, obj_get o k) o.
Proof.
  induction o as [|[k' v] o IH]; cbn [has_own obj_get In]; [discriminate|].
  destruct (String.eqb_spec k' k) as [->|_]; [left; reflexivity|].
  cbn [orb]. intros H. right. exact (IH H).
Qed.

Lemma filter_negb_nil {A} (p : A -> bool) l :
  List.filter (fun x => negb (p x)) l = [] <-> forallb p l = true.
Proof.
  induction l as [|x l IH]; cbn [List.filter forallb]; [tauto|].
  destruct (p x); cbn [negb andb]; [exact IH | split; discriminate].
Qed.

Lemma field_ok_message f e :
  field_ok (f, field_message e) = match e with None => true | Some _ => false end.
Proof. destruct e; reflexivity. Qed.

Lemma validate_fields_default data rules : forall results valid,
  List.NoDup (map fst rules) ->
  (forall f, In f (map fst rules) -> f <> "__proto__" /\ has_own results f = false) ->
  exists results' passed,
    Validation.validate_fields Validation.setupDefaultValidators (VObj (text_fields data))
      (rule_lists rules) results valid
    = Normal (results', valid && passed)
    /\ forallb field_ok results' = forallb field_ok results && passed
    /\ (forall f, has_own results' f = true <-> has_own results f = true \/ In f (map fst rules))
    /\ (forall f, ~ In f (map fst rules) -> obj_get results' f = obj_get results f)
    /\ (forall f names, In (f, names) rules ->
          exists e,
            Validation.validateField Validation.setupDefaultValidators
              (obj_get (text_fields data) f) (VArr (map VStr names))
            = Normal (field_message e)
            /\ obj_get results' f = field_message e
            /\ (forall m, e = Some m -> m <> "")).
Proof.
  induction rules as [|[f names] rules IH]; intros results valid Hnodup Hnew.
  - exists results, true. cbn [rule_lists map Validation.validate_fields In].
    rewrite !andb_true_r. repeat split; try tauto; intros [H|[]]; exact H.
  - cbn [map fst] in Hnodup. apply List.NoDup_cons_iff in Hnodup as [Hf Hnodup].
    destruct (Hnew f (or_introl eq_refl)) as [Hproto Hfresh].
    destruct (validateField_default _ names (obj_get_text_fields data f)) as (e & He & Hm).
    set (r := field_message e) in *.
    destruct (IH (obj_set f r results) (valid && field_ok (f, r)) Hnodup)
      as (results' & passed & Hrun & Hall & Hown & Hother & Hfields).
    { intros g Hg. split; [apply Hnew; right; exact Hg|].
      rewrite (has_own_obj_set_new _ _ _ _ Hfresh).
      destruct (String.eqb_spec f g) as [->|_]; [contradiction|].
      apply Hnew. right. exact Hg. }
    exists results', (field_ok (f, r) && passed).
    split; [|split; [|split; [|split]]].
    + cbn [rule_lists map Validation.validate_fields fst snd get_prop cbind].
      fold (rule_lists rules). rewrite He. cbn [cbind].
      unfold Validation.assign. destruct (String.eqb_spec f "__proto__") as [E|_]; [contradiction|].
      replace (get_prop r "isValid") with (Normal (VBool (field_ok (f, r))))
        by (subst r; destruct e; reflexivity).
      cbn [cbind truthy].
      replace (if negb (field_ok (f, r)) then false else valid) with (valid && field_ok (f, r))
        by (destruct valid, (field_ok (f, r)); reflexivity).
      rewrite Hrun, andb_assoc. reflexivity.
    + rewrite Hall, (forallb_obj_set_new _ _ _ _ Hfresh), andb_assoc. reflexivity.
    + intros g. rewrite Hown, (has_own_obj_set_new _ _ _ _ Hfresh), orb_true_iff, String.eqb_eq.
      cbn [map fst In]. tauto.
    + intros g Hg. cbn [map fst In] in Hg. rewrite Hother by tauto.
      apply obj_get_set_other. tauto.
    + intros g names' [E|Hin].
      * injection E as <- <-. exists e. split; [exact He|]. split; [|exact Hm].
        rewrite (Hother f Hf). apply obj_get_set.
      * apply (Hfields g names' Hin).
Qed.

(** X28.  [validateForm] with the validators of the class, on a form whose
    fields hold texts and whose rules are lists of names, where no field has
    a name that objects inherit.  It returns the object
    [{ isValid, fields, errors }]: [fields] has one result for each field of
    the rules and no other, which is the result of [validateField] on the
    text of the field, or on [undefined] when the form lacks the field;
    [isValid] is true exactly when [errors] is empty, and every field that
    fails has its entry with its message in [errors]. *)
Theorem validateForm_default
  (data : list (string * string)) (rules : list (string * list string)) :
  List.NoDup (map fst rules) ->
  (forall f, In f (map fst rules) -> ~ In f inherited_names) ->
  exists valid fields errors,
    Validation.validateForm Validation.setupDefaultValidators
      (VObj (text_fields data)) (VObj (rule_lists rules))
    = Normal (VObj (object_literal
        [("isValid", VBool valid); ("fields", VObj fields); ("errors", VArr errors)]))
    /\ (valid = true <-> errors = [])
    /\ (forall f, has_own fields f = true <-> In f (map fst rules))
    /\ (forall f names, In (f, names) rules ->
          exists e,
            Validation.validateField Validation.setupDefaultValidators
              (obj_get (text_fields data) f) (VArr (map VStr names))
            = Normal (field_message e)
            /\ obj_get fields f = field_message e
            /\ (forall m, e = Some m -> In (error_entry f m) errors)).
Proof.
  intros Hnodup Hnames.
  destruct (validate_fields_default data rules [] true Hnodup)
    as (fields & passed & Hrun & Hall & Hown & _ & Hfields).
  { intros f Hf. split; [|reflexivity]. intros ->. apply (Hnames _ Hf). left. reflexivity. }
  cbn [forallb andb] in Hall, Hrun.
  exists passed, fields.
  eexists. split; [|split; [|split]].
  - unfold Validation.validateForm. cbn [Validation.entries spread cbind].
    rewrite Hrun. cbn [cbind]. reflexivity.
  - rewrite <- Hall, <- (filter_negb_nil field_ok). split.
    + intros Hok. unfold field_ok in Hok. rewrite Hok. reflexivity.
    + intros Hnil. apply map_eq_nil in Hnil. exact Hnil.
  - intros f. rewrite Hown. cbn [has_own]. intuition discriminate.
  - intros f names Hin. destruct (Hfields f names Hin) as (e & He & Hget & Hm).
    exists e. split; [exact He|]. split; [exact Hget|].
    intros m ->. apply in_map_iff. exists (f, field_message (Some m)).
    split.
    + unfold error_entry, field_message, field_verdict.
      cbn [fst snd Validation.member obj_get String.eqb Ascii.eqb Bool.eqb truthy].
      destruct (String.eqb_spec m "") as [E|_]; [exfalso; exact (Hm m eq_refl E) | reflexivity].
    + apply List.filter_In. split; [|reflexivity].
      rewrite <- Hget. apply obj_get_In, Hown. right.
      apply in_map_iff. exists (f, names). split; [reflexivity | exact Hin].
Qed.

Lemma validateForm_default_witness :
  exists valid fields errors,
    Validation.validateForm Validation.setupDefaultValidators
      (VObj (text_fields [("username", "admin"); ("password", "abc")]))
      (VObj (rule_lists [("username", ["required"; "usernameOrEmail"]);
                         ("password", ["required"; "password"])]))
    = Normal (VObj (object_literal
        [("isValid", VBool valid); ("fields", VObj fields); ("errors", VArr errors)]))
    /\ (valid = true <-> errors = [])
    /\ (forall f, has_own fields f = true <-> In f ["username"; "password"])
    /\ (forall f names,
          In (f, names) [("username", ["required"; "usernameOrEmail"]);
                         ("password", ["required"; "password"])] ->
          exists e,
            Validation.validateField Validation.setupDefaultValidators
              (obj_get (text_fields [("username", "admin"); ("password", "abc")]) f)
              (VArr (map VStr names))
            = Normal (field_message e)
            /\ obj_get fields f = field_message e
            /\ (forall m, e = Some m -> In (error_entry f m) errors)).
Proof.
  apply (validateForm_default
           [("username", "admin"); ("password", "abc")]
           [("username", ["required"; "usernameOrEmail"]); ("password", ["required"; "password"])]).
  - repeat constructor; cbn [In map fst]; intuition discriminate.
  - intros f [<-|[<-|[]]]; cbn [In inherited_names]; intuition discriminate.
Defined.
